(** * Now-playing detection and display reconciliation

    A shallow embedding of the now-playing engine of the extension:
    - the module [media-control]: the media probe ([inspectNowPlaying]), the
      per-kind eligibility cache ([saveEligibleMedia], [readEligibleMedia])
      and the lookup orchestrator ([inspectNowPlayingForLookup]);
    - the menu-bar command: the payload normalizer ([readStringField],
      [readArtworkUrl], [toArtworkDataUri]) and the display reconciler
      ([setNowPlayingState], [setStatePreservingLastNowPlaying],
      [refreshNowPlaying]).

    The host functions the code calls ([execFile], [JSON.parse],
    [JSON.stringify], [Date.now], [process.platform]) are fields of a
    [Runtime] record; the two stores ([LocalStorage] and the menubar [Cache])
    are finite maps that are threaded through the asynchronous functions. *)

From Stdlib Require Import ZArith NArith Ascii String List Bool Lia DecimalString.
From stdpp Require Import base option gmap strings.
Import ListNotations.

#[local] Set Warnings "-register-all".
Local Open Scope string_scope.
Local Open Scope list_scope.
Local Open Scope Z_scope.

(** ** JavaScript strings and values *)

Module JS.

(** A JavaScript string is a sequence of code units.  The model keeps the code
    units 0..255 (one [ascii] each), which is enough for every literal of the
    source; the white space of ECMAScript in that range is TAB, LF, VT, FF,
    CR, SP and NBSP. *)
Definition isWhiteSpace (a : ascii) : bool :=
  let c := N_of_ascii a in
  ((9 <=? c) && (c <=? 13) || (c =? 32) || (c =? 160))%N.

Fixpoint trimStart (s : string) : string :=
  match s with
  | EmptyString => EmptyString
  | String a s' => if isWhiteSpace a then trimStart s' else s
  end.

Fixpoint trimEnd (s : string) : string :=
  match s with
  | EmptyString => EmptyString
  | String a s' =>
      match trimEnd s' with
      | EmptyString => if isWhiteSpace a then EmptyString else String a EmptyString
      | r => String a r
      end
  end.

(** [String.prototype.trim] *)
Definition trim (s : string) : string := trimEnd (trimStart s).

(** [String.prototype.toLowerCase] on the code units 0..255: the letters A-Z
    and the Latin-1 capitals U+00C0..U+00DE (U+00D7, the multiplication sign,
    is not a letter). *)
Definition lowerUnit (a : ascii) : ascii :=
  let c := N_of_ascii a in
  if ((65 <=? c) && (c <=? 90) || (192 <=? c) && (c <=? 222) && negb (c =? 215))%N
  then ascii_of_N (c + 32) else a.

Fixpoint toLowerCase (s : string) : string :=
  match s with
  | EmptyString => EmptyString
  | String a s' => String (lowerUnit a) (toLowerCase s')
  end.

(** [String.prototype.includes] *)
Fixpoint includes (s needle : string) : bool :=
  String.prefix needle s
  || match s with
     | EmptyString => false
     | String _ s' => includes s' needle
     end.

(** [Array.prototype.join] on an array of strings. *)
Fixpoint join (sep : string) (l : list string) : string :=
  match l with
  | [] => ""
  | [x] => x
  | x :: rest => x +:+ sep +:+ join sep rest
  end.

(** Truthiness of a string: only the empty string is falsy. *)
Definition truthyStr (s : string) : bool :=
  match s with EmptyString => false | _ => true end.

(** [a || b] on strings. *)
Definition orStr (a b : string) : string := if truthyStr a then a else b.

(** A value of type [unknown]: what [JSON.parse] returns, and [undefined]
    for a property that is not there.  Numbers are never inspected by the
    code under study apart from their truthiness; they are kept as integers.
    An object is the list of its own properties. *)
Inductive value : Type :=
  | Undefined
  | Null
  | Bool (b : bool)
  | Num (n : Z)
  | Str (s : string)
  | Arr (items : list value)
  | Obj (props : list (string * value)).

(** [!!v] *)
Definition truthy (v : value) : bool :=
  match v with
  | Undefined | Null => false
  | Bool b => b
  | Num n => negb (n =? 0)
  | Str s => truthyStr s
  | Arr _ | Obj _ => true
  end.

(** [typeof v === "object"] *)
Definition typeofObject (v : value) : bool :=
  match v with
  | Null | Arr _ | Obj _ => true
  | _ => false
  end.

Fixpoint ownProperty (props : list (string * value)) (key : string) : value :=
  match props with
  | [] => Undefined
  | (k, v) :: rest => if String.eqb k key then v else ownProperty rest key
  end.

(** [(v as Record<string, unknown>)[key]] for a [v] that passed the
    [typeof v === "object"] test.  The keys the source reads are fixed names
    ("title", "album", "payload", ...): none is an array index, "length" or a
    member of [Object.prototype], so an array has none of them. *)
Definition getProperty (v : value) (key : string) : value :=
  match v with
  | Obj props => ownProperty props key
  | _ => Undefined
  end.

(** [a === b] where at least one side is a primitive: an object or an array
    is identical to nothing but itself. *)
Definition strictEq (a b : value) : bool :=
  match a, b with
  | Undefined, Undefined | Null, Null => true
  | Bool x, Bool y => Bool.eqb x y
  | Num x, Num y => (x =? y)
  | Str x, Str y => String.eqb x y
  | _, _ => false
  end.

(** *** Regular expressions

    The fragment the source uses: literals, sequence, alternation and [?],
    tested at the start of the input ([^]), with or without the [i] flag. *)
Inductive regex : Set :=
  | Eps
  | Chr (a : ascii)
  | Cat (r1 r2 : regex)
  | Alt (r1 r2 : regex)
  | Opt (r : regex).

Fixpoint lit (s : string) : regex :=
  match s with
  | EmptyString => Eps
  | String a s' => Cat (Chr a) (lit s')
  end.

(** [Canonicalize] of the [i] flag (without [u]): upper case.  A code unit
    above 127 never canonicalizes to an ASCII one, and the patterns of the
    source are ASCII, so only a-z matter. *)
Definition canonicalize (a : ascii) : ascii :=
  let c := N_of_ascii a in
  if ((97 <=? c) && (c <=? 122))%N then ascii_of_N (c - 32) else a.

Definition unitMatches (ignoreCase : bool) (p a : ascii) : bool :=
  if ignoreCase then Ascii.eqb (canonicalize p) (canonicalize a) else Ascii.eqb p a.

(** What is left of [s] after each way of matching [r] at its start, in the
    order the backtracking matcher tries them. *)
Fixpoint residuals (ignoreCase : bool) (r : regex) (s : string) : list string :=
  match r with
  | Eps => [s]
  | Chr p =>
      match s with
      | String a s' => if unitMatches ignoreCase p a then [s'] else []
      | EmptyString => []
      end
  | Cat r1 r2 => flat_map (residuals ignoreCase r2) (residuals ignoreCase r1 s)
  | Alt r1 r2 => residuals ignoreCase r1 s ++ residuals ignoreCase r2 s
  | Opt r1 => residuals ignoreCase r1 s ++ [s]
  end.

(** [s] starts with [p], letter case ignored as the [i] flag does. *)
Fixpoint startsWithIgnoringCase (p s : string) : bool :=
  match p, s with
  | EmptyString, _ => true
  | String c p', String a s' => unitMatches true c a && startsWithIgnoringCase p' s'
  | String _ _, EmptyString => false
  end.

(** [/^r/.test(s)] and [/^r/i.test(s)] *)
Definition testAtStart (ignoreCase : bool) (r : regex) (s : string) : bool :=
  match residuals ignoreCase r s with
  | [] => false
  | _ => true
  end.

(** [s] without its first [n] code units. *)
Fixpoint skipUnits (n : nat) (s : string) : string :=
  match n, s with
  | O, _ => s
  | S n', String _ s' => skipUnits n' s'
  | S _, EmptyString => EmptyString
  end.

Fixpoint noWhiteSpace (s : string) : bool :=
  match s with
  | EmptyString => true
  | String a s' => negb (isWhiteSpace a) && noWhiteSpace s'
  end.

Definition nonEmpty {A} (l : list A) : bool :=
  match l with
  | [] => false
  | _ => true
  end.

End JS.

(** ** The media probe, the eligibility cache and the lookup orchestrator
    (module [media-control]) *)

Module MediaControl.
Import JS.

Inductive LookupKind : Set := track | artist | album.

Definition CACHE_KEYS (kind : LookupKind) : string :=
  match kind with
  | track => "cached-eligible-media-track"
  | artist => "cached-eligible-media-artist"
  | album => "cached-eligible-media-album"
  end.

Record LookupOptions : Set := { allowCacheFallbackOnIneligible : option bool }.

(** *** Errors and the host *)

(** The [code] property of a rejection of [execFile]: absent (a [SyntaxError]
    of [JSON.parse] has none), [null] (the child was killed), an exit status
    or a system error name such as ["ENOENT"] or ["EACCES"]. *)
Inductive ErrorCode : Set :=
  | NoCode
  | CodeNull
  | CodeNum (n : Z)
  | CodeStr (s : string).

(** What a [catch] clause receives: an [Error] object. *)
Record Error : Set := { code : ErrorCode; message : string }.

Inductive result (A : Type) : Type :=
  | Returned (a : A)
  | Thrown (e : Error).
Arguments Returned {A} a.
Arguments Thrown {A} e.

Inductive ExecResult : Set :=
  | Exited (stdout stderr : string)
  | Rejected (e : Error).

(** The host: [process.platform], [execFileAsync(binary, ["get"], ...)] (the
    options are the same at every call), [JSON.parse], [JSON.stringify] and
    [Date.now()]. *)
Record Runtime : Type := {
  platform : string;
  execFileAsync : string -> ExecResult;
  JSON_parse : string -> result value;
  JSON_stringify : value -> string;
  Date_now : Z;
}.

(** [LocalStorage] of the extension: string keys, string, number or boolean
    values.  A call is rejected when the store has the matching fault. *)
Inductive StoredValue : Set :=
  | StoredString (s : string)
  | StoredNumber (n : Z)
  | StoredBoolean (b : bool).

Record LocalStorage : Type := {
  items : gmap string StoredValue;
  getItemFault : option Error;
  setItemFault : option Error;
}.

(** *** Asynchronous functions over [LocalStorage]: state and exceptions *)

Definition Async (A : Type) : Type := LocalStorage -> result A * LocalStorage.

Definition resolve {A} (a : A) : Async A := fun ls => (Returned a, ls).

Definition await {A B} (m : Async A) (k : A -> Async B) : Async B :=
  fun ls =>
    match m ls with
    | (Returned a, ls') => k a ls'
    | (Thrown e, ls') => (Thrown e, ls')
    end.

(** [try { body } catch (e) { handler }] *)
Definition tryCatch {A} (body : Async A) (handler : Error -> Async A) : Async A :=
  fun ls =>
    match body ls with
    | (Returned a, ls') => (Returned a, ls')
    | (Thrown e, ls') => handler e ls'
    end.

Definition liftResult {A} (r : result A) : Async A := fun ls => (r, ls).

Notation "x <~ m ;; k" := (await m (fun x => k))
  (at level 100, m at next level, right associativity).

(** [LocalStorage.getItem]: [None] is [undefined]. *)
Definition getItem (key : string) : Async (option StoredValue) :=
  fun ls =>
    match getItemFault ls with
    | Some e => (Thrown e, ls)
    | None => (Returned (items ls !! key), ls)
    end.

(** [LocalStorage.setItem] *)
Definition setItem (key : string) (v : string) : Async unit :=
  fun ls =>
    match setItemFault ls with
    | Some e => (Thrown e, ls)
    | None =>
        (Returned tt,
         {| items := <[key := StoredString v]> (items ls);
            getItemFault := getItemFault ls;
            setItemFault := setItemFault ls |})
    end.

(** *** The functions of the module *)

Record MediaControlDebugInfo : Type := {
  query : option string;
  stdout : string;
  stderr : string;
  error : option string;
  payload : value;
  binary : option string;
  attempts : list string;
  isNotInstalled : bool;
}.

(** [String(code || "")] *)
Definition codeString (c : ErrorCode) : string :=
  match c with
  | NoCode | CodeNull => ""
  | CodeNum n => if n =? 0 then "" else NilZero.string_of_int (Z.to_int n)
  | CodeStr s => s
  end.

Definition isMissingBinaryError (error : Error) : bool :=
  let code := codeString (code error) in
  if String.eqb code "ENOENT" then true
  else
    let message := message error in
    includes message "ENOENT" || includes (toLowerCase message) "not found".

Definition readStringField (payload : value) (key : string) : string :=
  if negb (truthy payload) || negb (typeofObject payload) then ""
  else
    match getProperty payload key with
    | Str s => trim s
    | _ => ""
    end.

(** [null] is [None]. *)
Definition asPayloadRecord (payload : value) : option value :=
  if negb (truthy payload) || negb (typeofObject payload) then None
  else Some payload.

Definition formatNowPlayingSearchQuery (payload : value) : option string :=
  let title := readStringField payload "title" in
  let artist := readStringField payload "artist" in
  if negb (truthyStr title) then None
  else Some (join " " (List.filter truthyStr [title; artist])).

Definition formatNowPlayingAlbumSearchQuery (payload : value) : option string :=
  let album := readStringField payload "album" in
  if negb (truthyStr album) then None else Some album.

Definition queryForLookupKind (payload : value) (kind : LookupKind) : option string :=
  let album := readStringField payload "album" in
  if negb (truthyStr album) then None
  else
    match kind with
    | MediaControl.album => formatNowPlayingAlbumSearchQuery payload
    | _ => formatNowPlayingSearchQuery payload
    end.

(** [q] as a condition: [null] and the empty string are falsy. *)
Definition truthyQuery (q : option string) : bool :=
  match q with
  | Some s => truthyStr s
  | None => false
  end.

(** A [Record<string, unknown> | null] passed where [unknown] is expected. *)
Definition orNull (p : option value) : value :=
  match p with
  | Some v => v
  | None => Null
  end.

(** [options?.allowCacheFallbackOnIneligible === true] *)
Definition optedIn (options : option LookupOptions) : bool :=
  match options with
  | Some o =>
      match allowCacheFallbackOnIneligible o with
      | Some true => true
      | _ => false
      end
  | None => false
  end.

Section WithRuntime.
Variable rt : Runtime.

Definition saveEligibleMedia (kind : LookupKind) (payload : value) : Async unit :=
  tryCatch
    (setItem (CACHE_KEYS kind)
       (JSON_stringify rt (Obj [("payload", payload); ("cachedAt", Num (Date_now rt))])))
    (fun _ => resolve tt).

Definition readEligibleMedia (kind : LookupKind) : Async (option value) :=
  tryCatch
    (cachedRaw <~ getItem (CACHE_KEYS kind);;
     match cachedRaw with
     | Some (StoredString cachedRaw) =>
         if negb (truthyStr cachedRaw) then resolve None
         else
           parsed <~ liftResult (JSON_parse rt cachedRaw);;
           if negb (truthy parsed) || negb (typeofObject parsed) then resolve None
           else resolve (asPayloadRecord (getProperty parsed "payload"))
     | _ => resolve None
     end)
    (fun _ => resolve None).

Definition candidates : list string :=
  [ "media-control";
    "/opt/homebrew/bin/media-control";
    "/usr/local/bin/media-control";
    "/opt/local/bin/media-control";
    "/opt/homebrew/opt/media-control/bin/media-control";
    "/usr/local/opt/media-control/bin/media-control" ].

(** The [try] block of the loop for one candidate: run it, parse its output. *)
Definition attempt (mediaControlBinary : string) : result (string * string * value) :=
  match execFileAsync rt mediaControlBinary with
  | Rejected e => Thrown e
  | Exited stdout stderr =>
      match JSON_parse rt stdout with
      | Thrown e => Thrown e
      | Returned payload => Returned (stdout, stderr, payload)
      end
  end.

(** The [for] loop over the candidates still to try, with the loop's two
    variables, and the code after the loop. *)
Fixpoint tryCandidates (rest : list string) (attempts : list string)
    (missingBinaryAttempts : nat) : MediaControlDebugInfo :=
  match rest with
  | mediaControlBinary :: rest' =>
      match attempt mediaControlBinary with
      | Returned (stdout, stderr, payload) =>
          {| query := formatNowPlayingSearchQuery payload;
             stdout := stdout;
             stderr := stderr;
             error := None;
             payload := payload;
             binary := Some mediaControlBinary;
             attempts := attempts;
             isNotInstalled := false |}
      | Thrown error =>
          let message := message error in
          tryCandidates rest'
            (attempts ++ [mediaControlBinary +:+ ": " +:+ message])
            (if isMissingBinaryError error
             then S missingBinaryAttempts else missingBinaryAttempts)
      end
  | [] =>
      let isNotInstalled := Nat.eqb missingBinaryAttempts (length candidates) in
      {| query := None;
         stdout := "";
         stderr := "";
         error := Some (orStr (List.last attempts "") "Failed to execute media-control");
         payload := Null;
         binary := None;
         attempts := attempts;
         isNotInstalled := isNotInstalled |}
  end.

Definition inspectNowPlaying : MediaControlDebugInfo :=
  if negb (String.eqb (platform rt) "darwin") then
    {| query := None;
       stdout := "";
       stderr := "";
       error := Some "media-control is only supported on macOS";
       payload := Null;
       binary := None;
       attempts := [];
       isNotInstalled := false |}
  else tryCandidates candidates [] 0%nat.

(** [{ ...info, payload, query }] *)
Definition withPayloadAndQuery (info : MediaControlDebugInfo) (p : value)
    (q : option string) : MediaControlDebugInfo :=
  {| query := q;
     stdout := stdout info;
     stderr := stderr info;
     error := error info;
     payload := p;
     binary := binary info;
     attempts := attempts info;
     isNotInstalled := isNotInstalled info |}.

Definition inspectNowPlayingForLookup (kind : LookupKind)
    (options : option LookupOptions) : Async MediaControlDebugInfo :=
  info <~ resolve inspectNowPlaying;;
  let livePayload := asPayloadRecord (payload info) in
  let allowCacheFallbackOnIneligible := optedIn options in
  let noQuery := resolve (withPayloadAndQuery info Null None) in
  match livePayload with
  | Some livePayload =>
      let liveQuery := queryForLookupKind livePayload kind in
      if truthyQuery liveQuery then
        _ <~ saveEligibleMedia kind livePayload;;
        resolve (withPayloadAndQuery info livePayload liveQuery)
      else if allowCacheFallbackOnIneligible then
        cachedPayload <~ readEligibleMedia kind;;
        let cachedQuery := queryForLookupKind (orNull cachedPayload) kind in
        match cachedPayload with
        | Some cached =>
            if truthyQuery cachedQuery
            then resolve (withPayloadAndQuery info cached cachedQuery)
            else noQuery
        | None => noQuery
        end
      else noQuery
  | None =>
      cachedPayload <~ readEligibleMedia kind;;
      let cachedQuery := queryForLookupKind (orNull cachedPayload) kind in
      match cachedPayload with
      | Some cached =>
          if truthyQuery cachedQuery
          then resolve (withPayloadAndQuery info cached cachedQuery)
          else noQuery
      | None => noQuery
      end
  end.

End WithRuntime.

End MediaControl.

(** ** The payload normalizer and the display reconciler
    (the menu-bar command) *)

Module Menubar.
Import JS.

(** The [status] of a state is one of five strings; [readCachedState] lets in
    any truthy value it finds in the cache, so the field holds a value. *)
Definition Status : Type := value.
Definition StatusOk : Status := Str "ok".
Definition StatusNoTrack : Status := Str "no-track".
Definition StatusMissingMediaControl : Status := Str "missing-media-control".
Definition StatusUnsupportedPlatform : Status := Str "unsupported-platform".
Definition StatusError : Status := Str "error".

Record NowPlayingState : Type := {
  track : string;
  artist : string;
  album : string;
  artworkUrl : string;
  status : Status;
  error : option string;
}.

(** The [Cache] of namespace "now-playing-menubar". *)
Abbreviation Cache := (gmap string string).

Definition LAST_STATE_CACHE_KEY : string := "last-state".

(** What [JSON.stringify] is given for a state: a property that is
    [undefined] is left out. *)
Definition stateObject (state : NowPlayingState) : value :=
  Obj ([ ("track", Str (track state));
         ("artist", Str (artist state));
         ("album", Str (album state));
         ("artworkUrl", Str (artworkUrl state));
         ("status", status state) ]
       ++ match error state with
          | Some e => [("error", Str e)]
          | None => []
          end).

(** [prev.error === next.error] *)
Definition sameError (a b : option string) : bool :=
  match a, b with
  | None, None => true
  | Some x, Some y => String.eqb x y
  | _, _ => false
  end.

(** The comparison of six fields that the three updaters share. *)
Definition sameFields (prev next : NowPlayingState) : bool :=
  String.eqb (track prev) (track next)
  && String.eqb (artist prev) (artist next)
  && String.eqb (album prev) (album next)
  && String.eqb (artworkUrl prev) (artworkUrl next)
  && strictEq (status prev) (status next)
  && sameError (error prev) (error next).

Definition readStringField (payload : value) (key : string) : string :=
  if negb (truthy payload) || negb (typeofObject payload) then ""
  else
    match getProperty payload key with
    | Str s => trim s
    | _ => ""
    end.

(** [/^(https?:\/\/|data:|file:\/\/)/i] *)
Definition artworkUrlPattern : regex :=
  Alt (Cat (lit "http") (Cat (Opt (Chr "s")) (lit "://")))
      (Alt (lit "data:") (lit "file://")).

Definition toArtworkDataUri (data : string) (mimeType : string) : string :=
  let raw := trim data in
  if negb (truthyStr raw) then ""
  else if testAtStart true artworkUrlPattern raw then raw
  else
    let mime := orStr (trim mimeType) "image/jpeg" in
    "data:" +:+ mime +:+ ";base64," +:+ raw.

(** [typeof v === "string" && v.trim()] as a condition. *)
Definition nonBlankString (v : value) : bool :=
  match v with
  | Str s => truthyStr (trim s)
  | _ => false
  end.

(** The loop over the keys of a nested artwork object; [None] when it ends
    without returning. *)
Fixpoint nestedArtwork (dataObject : value) (artworkMimeType : string)
    (keys : list string) : option string :=
  match keys with
  | [] => None
  | key :: rest =>
      match getProperty dataObject key with
      | Str value =>
          if truthyStr (trim value) then
            let nestedMime :=
              match getProperty dataObject "mimeType" with
              | Str m => orStr (trim m) artworkMimeType
              | _ => artworkMimeType
              end in
            Some (toArtworkDataUri value nestedMime)
          else nestedArtwork dataObject artworkMimeType rest
      | _ => nestedArtwork dataObject artworkMimeType rest
      end
  end.

(** The loop over the flat keys of the payload. *)
Fixpoint flatArtwork (payload : value) (keys : list string) : string :=
  match keys with
  | [] => ""
  | key :: rest =>
      let value := readStringField payload key in
      if truthyStr value then value else flatArtwork payload rest
  end.

Definition readArtworkUrl (payload : value) : string :=
  let artworkMimeType := orStr (readStringField payload "artworkMimeType") "image/jpeg" in
  let artworkData :=
    if truthy payload && typeofObject payload
    then getProperty payload "artworkData" else Undefined in
  let candidates :=
    ["artwork_url"; "artworkUrl"; "artwork"; "album_art_url"; "albumArtUrl"; "image";
     "thumbnail"] in
  match artworkData with
  | Str data =>
      if truthyStr (trim data) then toArtworkDataUri data artworkMimeType
      else flatArtwork payload candidates
  | _ =>
      let nestedCandidates := ["url"; "src"; "data"; "image"; "artwork_url"; "artworkUrl"] in
      match
        (if truthy artworkData && typeofObject artworkData
         then nestedArtwork artworkData artworkMimeType nestedCandidates
         else None)
      with
      | Some uri => uri
      | None => flatArtwork payload candidates
      end
  end.

(** The [setState] updater of [setStateIfChanged]. *)
Definition setStateIfChanged (next prev : NowPlayingState) : NowPlayingState :=
  if sameFields prev next then prev else next.

(** The [setState] updater of [setStatePreservingLastNowPlaying]. *)
Definition setStatePreservingLastNowPlaying (next prev : NowPlayingState)
    : NowPlayingState :=
  if strictEq (status prev) StatusOk && truthyStr (track prev) then prev
  else if sameFields prev next then prev
  else next.

(** The state the menubar shows for a lookup that gave nothing. *)
Definition blankState (st : Status) (err : option string) : NowPlayingState :=
  {| track := ""; artist := ""; album := ""; artworkUrl := ""; status := st; error := err |}.

(** [info.error || undefined] *)
Definition errorOrUndefined (e : option string) : option string :=
  match e with
  | Some s => if truthyStr s then Some s else None
  | None => None
  end.

Section WithRuntime.
Variable rt : MediaControl.Runtime.

Definition defaultState : NowPlayingState :=
  blankState
    (if String.eqb (MediaControl.platform rt) "darwin"
     then StatusNoTrack else StatusUnsupportedPlatform)
    None.

Definition readCachedState (menubarCache : Cache) : option NowPlayingState :=
  match menubarCache !! LAST_STATE_CACHE_KEY with
  | None => None
  | Some raw =>
      if negb (truthyStr raw) then None
      else
        match MediaControl.JSON_parse rt raw with
        | MediaControl.Thrown _ => None
        | MediaControl.Returned parsed =>
            if negb (truthy parsed) || negb (typeofObject parsed) then None
            else
              match getProperty parsed "track", getProperty parsed "artist",
                    getProperty parsed "album", getProperty parsed "artworkUrl" with
              | Str t, Str a, Str al, Str u =>
                  if negb (truthy (getProperty parsed "status")) then None
                  else
                    Some {| track := t;
                            artist := a;
                            album := al;
                            artworkUrl := u;
                            status := getProperty parsed "status";
                            error := match getProperty parsed "error" with
                                     | Str e => Some e
                                     | _ => None
                                     end |}
              | _, _, _, _ => None
              end
        end
  end.

Definition writeCachedState (state : NowPlayingState) (menubarCache : Cache) : Cache :=
  if negb (strictEq (status state) StatusOk) || negb (truthyStr (track state))
  then menubarCache
  else <[LAST_STATE_CACHE_KEY := MediaControl.JSON_stringify rt (stateObject state)]>
         menubarCache.

(** The [setState] updater of [setNowPlayingState]; it writes the cache. *)
Definition setNowPlayingState (track artist album artworkUrl : string)
    (prev : NowPlayingState) (menubarCache : Cache) : NowPlayingState * Cache :=
  let sameAlbum :=
    truthyStr (Menubar.album prev) && truthyStr album
    && String.eqb (Menubar.album prev) album in
  let reusableArtwork := if sameAlbum then Menubar.artworkUrl prev else "" in
  let resolvedArtworkUrl := orStr (orStr artworkUrl reusableArtwork) "" in
  if negb (truthyStr resolvedArtworkUrl)
     && strictEq (status prev) StatusOk && truthyStr (Menubar.track prev)
  then (prev, menubarCache)
  else
    let next :=
      {| track := track;
         artist := artist;
         album := album;
         artworkUrl := resolvedArtworkUrl;
         status := StatusOk;
         error := None |} in
    let menubarCache' := writeCachedState next menubarCache in
    if sameFields prev next then (prev, menubarCache') else (next, menubarCache').

(** The statements of [refreshNowPlaying] that follow the [await], as an
    update of the displayed state and the cache. *)
Definition applyLookup (info : MediaControl.MediaControlDebugInfo)
    (prev : NowPlayingState) (menubarCache : Cache) : NowPlayingState * Cache :=
  let track := readStringField (MediaControl.payload info) "title" in
  let artist := readStringField (MediaControl.payload info) "artist" in
  let album := readStringField (MediaControl.payload info) "album" in
  let artworkUrl := readArtworkUrl (MediaControl.payload info) in
  if MediaControl.isNotInstalled info then
    (setStateIfChanged
       (blankState StatusMissingMediaControl (errorOrUndefined (MediaControl.error info)))
       prev,
     menubarCache)
  else if truthyStr track then
    setNowPlayingState track artist album artworkUrl prev menubarCache
  else if MediaControl.truthyQuery (MediaControl.query info)
          || truthy (MediaControl.payload info) then
    (setStatePreservingLastNowPlaying (blankState StatusNoTrack None) prev, menubarCache)
  else
    (setStatePreservingLastNowPlaying
       (blankState StatusError (errorOrUndefined (MediaControl.error info)))
       prev,
     menubarCache).

(** The [catch] clause of [refreshNowPlaying]. *)
Definition applyFailure (error : MediaControl.Error) (prev : NowPlayingState)
    : NowPlayingState :=
  setStatePreservingLastNowPlaying
    (blankState StatusError (Some (MediaControl.message error))) prev.

(** The mutable data of one mounted [Command]: the two [useState] cells and
    the [useRef] guard; the menubar cache outlives it. *)
Record Command : Type := {
  state : NowPlayingState;
  hasInitialized : bool;
  inFlight : bool;
}.

Definition refreshNowPlaying (c : Command) (menubarCache : Cache)
    (ls : MediaControl.LocalStorage) : Command * Cache * MediaControl.LocalStorage :=
  if inFlight c || negb (String.eqb (MediaControl.platform rt) "darwin")
  then (c, menubarCache, ls)
  else
    let '(outcome, ls') :=
      MediaControl.inspectNowPlayingForLookup rt MediaControl.track
        (Some {| MediaControl.allowCacheFallbackOnIneligible := Some true |}) ls in
    let '(next, menubarCache') :=
      match outcome with
      | MediaControl.Returned info => applyLookup info (state c) menubarCache
      | MediaControl.Thrown error => (applyFailure error (state c), menubarCache)
      end in
    ({| state := next; hasInitialized := true; inFlight := false |}, menubarCache', ls').

(** The first render: the state cells are initialised from the cache. *)
Definition mount (menubarCache : Cache) : Command :=
  let cachedState := readCachedState menubarCache in
  {| state := match cachedState with
              | Some s => s
              | None => defaultState
              end;
     hasInitialized := match cachedState with Some _ => true | None => false end;
     inFlight := false |}.

(** The effect that runs once after the first render. *)
Definition onMount (c : Command) (menubarCache : Cache)
    (ls : MediaControl.LocalStorage) : Command * Cache * MediaControl.LocalStorage :=
  if negb (String.eqb (MediaControl.platform rt) "darwin") then
    ({| state := setStateIfChanged (blankState StatusUnsupportedPlatform None) (state c);
        hasInitialized := hasInitialized c;
        inFlight := inFlight c |},
     menubarCache, ls)
  else refreshNowPlaying c menubarCache ls.

End WithRuntime.

End Menubar.

(** ** Vocabulary of the properties *)

Module Spec.
Import JS.

Section Probe.
Import MediaControl.
Variable rt : Runtime.

(** The candidate failed with an error of the not-found class. *)
Definition missingBinary (binary : string) : Prop :=
  exists e, attempt rt binary = Thrown e /\ isMissingBinaryError e = true.

Definition countsAsMissing (binary : string) : bool :=
  match attempt rt binary with
  | Thrown e => isMissingBinaryError e
  | Returned _ => false
  end.

(** What the orchestrator answers from the cache: the cached payload and its
    query when it has one, "no query" otherwise. *)
Definition answerFromCache (kind : LookupKind) (ls : LocalStorage)
    : MediaControlDebugInfo :=
  let info := inspectNowPlaying rt in
  match fst (readEligibleMedia rt kind ls) with
  | Returned (Some cached) =>
      if truthyQuery (queryForLookupKind cached kind)
      then withPayloadAndQuery info cached (queryForLookupKind cached kind)
      else withPayloadAndQuery info Null None
  | _ => withPayloadAndQuery info Null None
  end.

(** The lookup [refreshNowPlaying] makes: kind [track], with the opt-in. *)
Definition menubarLookup : Async MediaControlDebugInfo :=
  inspectNowPlayingForLookup rt track
    (Some {| allowCacheFallbackOnIneligible := Some true |}).

(** The host at a later time: the provider and the clock may have changed. *)
Definition later (exec : string -> ExecResult) (now : Z) : Runtime :=
  {| platform := platform rt;
     execFileAsync := exec;
     JSON_parse := JSON_parse rt;
     JSON_stringify := JSON_stringify rt;
     Date_now := now |}.

End Probe.

Import Menubar.

(** The prefixes of a string that is a URL already. *)
Definition urlSchemes : list string := ["http://"; "https://"; "data:"; "file://"].

Definition hasUrlScheme (s : string) : bool :=
  existsb (fun p => startsWithIgnoringCase p s) urlSchemes.

(** A track is on display: the state the reconciler holds on to. *)
Definition displaysTrack (s : NowPlayingState) : Prop :=
  status s = StatusOk /\ track s <> "".

(** The artwork a new track resolves to: its own, or the one on display when
    the album is the same. *)
Definition resolvedArtwork (prev : NowPlayingState) (album artworkUrl : string) : string :=
  if truthyStr artworkUrl then artworkUrl
  else if truthyStr album && String.eqb (Menubar.album prev) album
       then Menubar.artworkUrl prev
  else "".

(** The state a committed update shows. *)
Definition committed (track artist album artworkUrl : string) : NowPlayingState :=
  {| track := track; artist := artist; album := album; artworkUrl := artworkUrl;
     status := StatusOk; error := None |}.

(** The configurations of the menubar command: the first render over the
    cache it finds, then the mount effect and any number of refreshes, each
    against what the provider and the stores hold at that time; the command
    may be unloaded and mounted again over the cache it left. *)
Inductive reachable (rt : MediaControl.Runtime) (initial : Cache)
    : Command * Cache -> Prop :=
  | reachable_mount : reachable rt initial (mount rt initial, initial)
  | reachable_remount (c : Command) (menubarCache : Cache) :
      reachable rt initial (c, menubarCache) ->
      reachable rt initial (mount rt menubarCache, menubarCache)
  | reachable_onMount (c : Command) (menubarCache : Cache) exec now ls :
      reachable rt initial (c, menubarCache) ->
      reachable rt initial (fst (onMount (later rt exec now) c menubarCache ls))
  | reachable_refresh (c : Command) (menubarCache : Cache) exec now ls :
      reachable rt initial (c, menubarCache) ->
      reachable rt initial (fst (refreshNowPlaying (later rt exec now) c menubarCache ls)).

(** The invariant of a displayed state. *)
Definition wellFormed (s : NowPlayingState) : Prop :=
  status s = StatusOk -> track s <> "".

(** What [JSON.parse] makes of the text [JSON.stringify] gave for a state
    that shows a track (status [ok], all of its fields strings) is the object
    of that state.  Other states are never written, and nothing is asked of
    their text. *)
Definition readsBackStates (rt : MediaControl.Runtime) : Prop :=
  forall s v,
    displaysTrack s ->
    MediaControl.JSON_parse rt (MediaControl.JSON_stringify rt (stateObject s))
    = MediaControl.Returned v ->
    v = stateObject s.

(** An entry of the menubar cache is the one found at the start or the text
    of a state with status [ok] and a track, under the key of the last
    state. *)
Definition mirrorsDisplayedStates (rt : MediaControl.Runtime) (initial cache : Cache)
    : Prop :=
  forall key raw,
    cache !! key = Some raw ->
    initial !! key = Some raw
    \/ (key = LAST_STATE_CACHE_KEY
        /\ exists s,
             raw = MediaControl.JSON_stringify rt (stateObject s)
             /\ status s = StatusOk /\ track s <> "").

(** What one step did to the cache: nothing, or it stored the state now on
    display, which has status [ok] and a track. *)
Definition mirrorsOnlyTracks (rt : MediaControl.Runtime) (before : Cache)
    (after : Command * Cache) : Prop :=
  snd after = before
  \/ (snd after
      = <[LAST_STATE_CACHE_KEY :=
            MediaControl.JSON_stringify rt (stateObject (state (fst after)))]> before
      /\ status (state (fst after)) = StatusOk
      /\ track (state (fst after)) <> "").

(** The three things a step can do to the displayed state and the cache:
    leave them, blank the state, or commit a track and mirror it. *)
Definition stepOutcome (rt : MediaControl.Runtime) (before after : Command * Cache)
    : Prop :=
  (state (fst after) = state (fst before) /\ snd after = snd before)
  \/ (exists st err,
        st <> StatusOk
        /\ (displaysTrack (state (fst before)) ->
            st = StatusMissingMediaControl \/ st = StatusUnsupportedPlatform)
        /\ state (fst after) = blankState st err /\ snd after = snd before)
  \/ (exists t a al u,
        t <> ""
        /\ state (fst after) = committed t a al u
        /\ snd after
           = <[LAST_STATE_CACHE_KEY :=
                 MediaControl.JSON_stringify rt (stateObject (committed t a al u))]>
               (snd before)).

End Spec.

(** ** Concrete hosts

    A host whose provider prints fixed documents, for the examples below.
    Its [JSON.stringify] prints a value whose strings need no escape, and its
    [JSON.parse] reads back the documents it is told about and rejects every
    other text. *)

Module Scenario.
Import JS MediaControl.

Definition quoted (s : string) : string := String "034" (s +:+ String "034" "").

Fixpoint textOf (v : value) : string :=
  match v with
  | Undefined => "undefined"
  | Null => "null"
  | Bool true => "true"
  | Bool false => "false"
  | Num n => NilZero.string_of_int (Z.to_int n)
  | Str s => quoted s
  | Arr items => "[" +:+ join "," (map textOf items) +:+ "]"
  | Obj props =>
      "{" +:+ join "," (map (fun kv => quoted (fst kv) +:+ ":" +:+ textOf (snd kv)) props)
      +:+ "}"
  end.

Definition syntaxError : Error :=
  {| code := NoCode; message := "Unexpected token in JSON at position 0" |}.

Definition parseKnown (docs : list value) (text : string) : result value :=
  match find (fun v => String.eqb (textOf v) text) docs with
  | Some v => Returned v
  | None => Thrown syntaxError
  end.

Definition runtime (exec : string -> ExecResult) (docs : list value) : Runtime :=
  {| platform := "darwin";
     execFileAsync := exec;
     JSON_parse := parseKnown docs;
     JSON_stringify := textOf;
     Date_now := 1771977600000 |}.

Definition storage (entries : list (string * StoredValue)) : LocalStorage :=
  {| items := list_to_map entries; getItemFault := None; setItemFault := None |}.

(** The provider is installed as the bare command and prints [doc]. *)
Definition prints (doc : value) : string -> ExecResult :=
  fun _ => Exited (textOf doc) "".

Definition enoent (binary : string) : Error :=
  {| code := CodeStr "ENOENT"; message := "spawn " +:+ binary +:+ " ENOENT" |}.

Definition eacces (binary : string) : Error :=
  {| code := CodeStr "EACCES"; message := "spawn " +:+ binary +:+ " EACCES" |}.

(** No candidate exists. *)
Definition notInstalled : string -> ExecResult := fun binary => Rejected (enoent binary).

(** No candidate exists, except one that may not be executed. *)
Definition oneForbidden (forbidden : string) : string -> ExecResult :=
  fun binary =>
    if String.eqb binary forbidden then Rejected (eacces binary)
    else Rejected (enoent binary).

Definition songPayload : value :=
  Obj [("title", Str "Song"); ("artist", Str "Artist"); ("album", Str "Album")].

(** What [saveEligibleMedia] stored for [songPayload] some time ago. *)
Definition songRecord : value :=
  Obj [("payload", songPayload); ("cachedAt", Num 1771977000000)].

Definition songStorage : LocalStorage :=
  storage [(CACHE_KEYS track, StoredString (textOf songRecord))].

(** The provider prints a JSON string, not an object. *)
Definition scalarRuntime : Runtime :=
  runtime (prints (Str "stopped")) [Str "stopped"; songRecord].

(** The provider prints an object with a title but no album. *)
Definition untitledAlbum : value := Obj [("title", Str "Jingle")].

Definition jingleRuntime : Runtime :=
  runtime (prints untitledAlbum) [untitledAlbum; songRecord].

(** A store that rejects every call. *)
Definition brokenStorage : LocalStorage :=
  {| items := ∅;
     getItemFault := Some {| code := NoCode; message := "storage unavailable" |};
     setItemFault := Some {| code := NoCode; message := "storage unavailable" |} |}.

(** The menubar shows track "A" of album "X" with its artwork. *)
Definition shownA : Menubar.NowPlayingState := Spec.committed "A" "" "X" "u1".

Definition mountedA : Menubar.Command :=
  {| Menubar.state := shownA; Menubar.hasInitialized := true; Menubar.inFlight := false |}.

(** The provider prints track "B" of the same album, without artwork. *)
Definition trackB : value := Obj [("title", Str "B"); ("album", Str "X")].

Definition runtimeB : Runtime := runtime (prints trackB) [trackB].

(** What the lookup of the menubar returns on [runtimeB]. *)
Definition lookupB : MediaControlDebugInfo :=
  {| query := Some "B";
     stdout := textOf trackB;
     stderr := "";
     error := None;
     payload := trackB;
     binary := Some "media-control";
     attempts := [];
     isNotInstalled := false |}.

(** A lookup that returned track "C" of another album, without artwork. *)
Definition trackC : value := Obj [("title", Str "C"); ("album", Str "Y")].

Definition lookupC : MediaControlDebugInfo :=
  {| query := Some "C";
     stdout := textOf trackC;
     stderr := "";
     error := None;
     payload := trackC;
     binary := Some "media-control";
     attempts := [];
     isNotInstalled := false |}.

(** The provider is installed where it may not be executed. *)
Definition forbiddenRuntime : Runtime :=
  runtime (oneForbidden "/usr/local/bin/media-control") [].

End Scenario.

(** ** Interpretation prompts: identifiers *)

Module Prompts.
Import JS.

(** The class [[a-z0-9]] of the two normalisers. *)
Definition isLowerAlnum (a : ascii) : bool :=
  let c := N_of_ascii a in
  ((97 <=? c) && (c <=? 122) || (48 <=? c) && (c <=? 57))%N.

(** [s.replace(/[^a-z0-9]+/g, sep)]: every maximal run of units outside the
    class becomes one [sep]; [inRun] tells that the unit before was outside
    the class. *)
Fixpoint replaceRuns (sep : string) (inRun : bool) (s : string) : string :=
  match s with
  | EmptyString => EmptyString
  | String a s' =>
      if isLowerAlnum a then String a (replaceRuns sep false s')
      else if inRun then replaceRuns sep true s'
      else sep +:+ replaceRuns sep true s'
  end.

(** [s.replace(/^-+|-+$/g, "")]: the dashes at the start, then those at the
    end. *)
Fixpoint dropDashesStart (s : string) : string :=
  match s with
  | EmptyString => EmptyString
  | String a s' => if Ascii.eqb a "-" then dropDashesStart s' else s
  end.

Fixpoint dropDashesEnd (s : string) : string :=
  match s with
  | EmptyString => EmptyString
  | String a s' =>
      match dropDashesEnd s' with
      | EmptyString => if Ascii.eqb a "-" then EmptyString else String a EmptyString
      | r => String a r
      end
  end.

Definition normalizePromptId (value : string) : string :=
  orStr
    (dropDashesEnd (dropDashesStart (replaceRuns "-" false (trim (toLowerCase value)))))
    "prompt".

End Prompts.

(** ** The album command *)

Module AlbumCommand.
Import JS.

Module Artist.
Record t : Type := { name : option string }.
End Artist.

(** [AlbumResult]; a number is kept as an integer. *)
Record AlbumResult : Type := {
  id : option Z;
  name : option string;
  url : option string;
  artist : option Artist.t;
}.

Definition readStringField (payload : value) (key : string) : string :=
  if negb (truthy payload) || negb (typeofObject payload) then ""
  else match getProperty payload key with
       | Str value => trim value
       | _ => ""
       end.

Definition normalize (value : string) : string :=
  trim (Prompts.replaceRuns " " false (toLowerCase value)).

(** [result.name || ""] *)
Definition candidateAlbum (result : AlbumResult) : string :=
  match name result with
  | Some s => s
  | None => ""
  end.

(** [result.artist?.name || ""] *)
Definition candidateArtist (result : AlbumResult) : string :=
  match artist result with
  | Some a => match Artist.name a with
              | Some s => s
              | None => ""
              end
  | None => ""
  end.

(** Truthiness of [result.id]. *)
Definition truthyId (result : AlbumResult) : bool :=
  match id result with
  | Some n => negb (n =? 0)
  | None => false
  end.

(** The score one pass of the loop gives a result. *)
Definition score (normalizedTargetAlbum normalizedTargetArtist : string)
    (result : AlbumResult) : Z :=
  let normalizedCandidateAlbum := normalize (candidateAlbum result) in
  let normalizedCandidateArtist := normalize (candidateArtist result) in
  (if String.eqb normalizedCandidateAlbum normalizedTargetAlbum then 100
   else if truthyStr normalizedTargetAlbum
           && (includes normalizedCandidateAlbum normalizedTargetAlbum
               || includes normalizedTargetAlbum normalizedCandidateAlbum)
        then 60
   else 0)
  + (if truthyStr normalizedTargetArtist
        && String.eqb normalizedCandidateArtist normalizedTargetArtist
     then 20 else 0).

(** The loop of [pickBestAlbumResult] from the value [best] has. *)
Fixpoint pickLoop (normalizedTargetAlbum normalizedTargetArtist : string)
    (results : list AlbumResult) (best : option (AlbumResult * Z))
    : option (AlbumResult * Z) :=
  match results with
  | [] => best
  | result :: rest =>
      if negb (truthyStr (candidateAlbum result)) || negb (truthyId result)
      then pickLoop normalizedTargetAlbum normalizedTargetArtist rest best
      else
        let score := score normalizedTargetAlbum normalizedTargetArtist result in
        pickLoop normalizedTargetAlbum normalizedTargetArtist rest
          match best with
          | None => Some (result, score)
          | Some (_, bestScore) => if bestScore <? score then Some (result, score) else best
          end
  end.

Definition pickBestAlbumResult (results : list AlbumResult)
    (targetAlbumName targetArtistName : string) : option AlbumResult :=
  let normalizedTargetAlbum := normalize targetAlbumName in
  let normalizedTargetArtist := normalize targetArtistName in
  match pickLoop normalizedTargetAlbum normalizedTargetArtist results None with
  | Some (result, bestScore) => if 0 <? bestScore then Some result else None
  | None => None
  end.

(** The [useState] cells of [Command]. *)
Record Detection : Type := {
  searchText : string;
  isDetectingTrack : bool;
  trackDetectionError : option string;
  isMediaControlMissing : bool;
  isMediaControlInstalled : bool;
  targetAlbumName : string;
  targetArtistName : string;
}.

(** A query that is known to be a string, as a string. *)
Definition textOfQuery (q : option string) : string :=
  match q with
  | Some s => s
  | None => ""
  end.

(** [info.error || fallback] *)
Definition errorOr (e : option string) (fallback : option string) : option string :=
  match e with
  | Some s => if truthyStr s then Some s else fallback
  | None => fallback
  end.

Section WithRuntime.
Variable rt : MediaControl.Runtime.

(** The cells before the mount effect has run. *)
Definition initial : Detection :=
  {| searchText := "";
     isDetectingTrack := String.eqb (MediaControl.platform rt) "darwin";
     trackDetectionError := None;
     isMediaControlMissing := false;
     isMediaControlInstalled := false;
     targetAlbumName := "";
     targetArtistName := "" |}.

(** The cells once the promise of [refreshDetection] is settled; a rejected
    lookup leaves them as [setIsDetectingTrack(true)] made them. *)
Definition refreshDetection (prev : Detection) (ls : MediaControl.LocalStorage)
    : Detection * MediaControl.LocalStorage :=
  let '(outcome, ls') :=
    MediaControl.inspectNowPlayingForLookup rt MediaControl.album None ls in
  match outcome with
  | MediaControl.Thrown _ =>
      ({| searchText := searchText prev;
          isDetectingTrack := true;
          trackDetectionError := trackDetectionError prev;
          isMediaControlMissing := isMediaControlMissing prev;
          isMediaControlInstalled := isMediaControlInstalled prev;
          targetAlbumName := targetAlbumName prev;
          targetArtistName := targetArtistName prev |},
       ls')
  | MediaControl.Returned info =>
      let albumQuery :=
        MediaControl.formatNowPlayingAlbumSearchQuery (MediaControl.payload info) in
      let albumName := readStringField (MediaControl.payload info) "album" in
      let artistName := readStringField (MediaControl.payload info) "artist" in
      (if MediaControl.truthyQuery albumQuery then
         {| searchText := textOfQuery albumQuery;
            isDetectingTrack := false;
            trackDetectionError := None;
            isMediaControlMissing := false;
            isMediaControlInstalled := false;
            targetAlbumName := albumName;
            targetArtistName := artistName |}
       else if MediaControl.isNotInstalled info then
         {| searchText := "";
            isDetectingTrack := false;
            trackDetectionError :=
              errorOr (MediaControl.error info) (Some "No now-playing track detected");
            isMediaControlMissing := true;
            isMediaControlInstalled := false;
            targetAlbumName := "";
            targetArtistName := "" |}
       else
         {| searchText := "";
            isDetectingTrack := false;
            trackDetectionError := errorOr (MediaControl.error info) None;
            isMediaControlMissing := false;
            isMediaControlInstalled := true;
            targetAlbumName := "";
            targetArtistName := "" |},
       ls')
  end.

(** The effect that runs once after the first render. *)
Definition onMount (prev : Detection) (ls : MediaControl.LocalStorage)
    : Detection * MediaControl.LocalStorage :=
  if negb (String.eqb (MediaControl.platform rt) "darwin") then
    ({| searchText := searchText prev;
        isDetectingTrack := false;
        trackDetectionError := trackDetectionError prev;
        isMediaControlMissing := isMediaControlMissing prev;
        isMediaControlInstalled := isMediaControlInstalled prev;
        targetAlbumName := targetAlbumName prev;
        targetArtistName := targetArtistName prev |},
     ls)
  else refreshDetection prev ls.

End WithRuntime.

End AlbumCommand.

(** ** The artist view: release dates *)

Module ArtistBio.
Import JS.

(** The date of a release as Genius gives it; a number is kept as an
    integer, which is exact for the dates of the calendar. *)
Record ReleaseDateComponents : Type := {
  year : option Z;
  month : option Z;
  day : option Z;
}.

Record Album : Type := {
  release_date_components : option ReleaseDateComponents;
  release_date_for_display : option string;
}.

Definition MAX_SAFE_INTEGER : Z := 9007199254740991.

(** [n || 1] on an optional number. *)
Definition orOne (n : option Z) : Z :=
  match n with
  | Some n => if n =? 0 then 1 else n
  | None => 1
  end.

(** The class [\d]. *)
Definition isDigit (a : ascii) : bool :=
  let c := N_of_ascii a in ((48 <=? c) && (c <=? 57))%N.

(** [Number(s)] on a string of digits. *)
Definition digitsToNumber (s : string) : Z :=
  fold_left (fun n a => 10 * n + (Z.of_N (N_of_ascii a) - 48)) (list_ascii_of_string s) 0.

(** [s.match(/\d{4}/)?.[0]]: the first four digits in a row. *)
Fixpoint matchFourDigits (s : string) : option string :=
  match s with
  | EmptyString => None
  | String a s' =>
      match s' with
      | String b (String c (String d _)) =>
          if isDigit a && isDigit b && isDigit c && isDigit d
          then Some (String a (String b (String c (String d EmptyString))))
          else matchFourDigits s'
      | _ => None
      end
  end.

(** [album.release_date_components?.year] *)
Definition yearFromParts (album : Album) : option Z :=
  match release_date_components album with
  | Some c => year c
  | None => None
  end.

(** [album.release_date_for_display?.match(/\d{4}/)?.[0]] *)
Definition yearFromDisplay (album : Album) : option string :=
  match release_date_for_display album with
  | Some s => matchFourDigits s
  | None => None
  end.

Definition toReleaseSortValue (album : Album) : Z :=
  let month :=
    orOne match release_date_components album with
          | Some c => month c
          | None => None
          end in
  let day :=
    orOne match release_date_components album with
          | Some c => day c
          | None => None
          end in
  let fromDisplay :=
    match yearFromDisplay album with
    | Some y => digitsToNumber y * 10000 + 101
    | None => MAX_SAFE_INTEGER
    end in
  match yearFromParts album with
  | Some y => if y =? 0 then fromDisplay else y * 10000 + month * 100 + day
  | None => fromDisplay
  end.

End ArtistBio.
(** ** Vocabulary of the further properties *)

Module Vocabulary.
Import JS.

Section Probe.
Import MediaControl.
Variable rt : Runtime.

(** The candidate cannot be used: its run or the parse of its output threw. *)
Definition fails (binary : string) : Prop :=
  exists e, attempt rt binary = Thrown e.

(** The note the probe keeps of a failed candidate. *)
Definition attemptNote (binary : string) : string :=
  match attempt rt binary with
  | Thrown e => binary +:+ ": " +:+ message e
  | Returned _ => ""
  end.

(** The record [saveEligibleMedia] stores for a payload. *)
Definition cachedRecord (p : value) : value :=
  Obj [("payload", p); ("cachedAt", Num (Date_now rt))].

(** [JSON.parse] reads back the text [JSON.stringify] gives for [v], and that
    text is not empty. *)
Definition readsBack (v : value) : Prop :=
  JSON_parse rt (JSON_stringify rt v) = Returned v /\ JSON_stringify rt v <> "".

End Probe.

(** The candidate the probe tries last. *)
Definition lastCandidate : string := "/usr/local/opt/media-control/bin/media-control".

(** The keys under which a payload may carry its artwork. *)
Definition artworkKeys : list string :=
  ["artworkData"; "artwork_url"; "artworkUrl"; "artwork"; "album_art_url"; "albumArtUrl";
   "image"; "thumbnail"].

(** No two [d] in a row, every other unit in [[a-z0-9]]; [afterSep] tells
    that the unit before was a [d], or that the string starts here, and then
    no [d] may come first. *)
Fixpoint runs (d : ascii) (afterSep : bool) (s : string) : bool :=
  match s with
  | EmptyString => true
  | String a s' =>
      if Ascii.eqb a d then negb afterSep && runs d true s'
      else Prompts.isLowerAlnum a && runs d false s'
  end.

(** The same, and the string does not end after a [d] (nor at once when
    [afterSep] is set): with [afterSep] set, non-empty runs of [[a-z0-9]]
    with one [d] between two of them. *)
Fixpoint separated (d : ascii) (afterSep : bool) (s : string) : bool :=
  match s with
  | EmptyString => negb afterSep
  | String a s' =>
      if Ascii.eqb a d then negb afterSep && separated d true s'
      else Prompts.isLowerAlnum a && separated d false s'
  end.

(** A slug: [a-z0-9] runs joined by single dashes. *)
Definition slug (s : string) : bool := separated "-" true s.

(** Words: [a-z0-9] runs joined by single spaces. *)
Definition words (s : string) : bool := separated " " true s.

(** A result the loop of [pickBestAlbumResult] scores: it has a name and an
    id. *)
Definition usable (result : AlbumCommand.AlbumResult) : bool :=
  truthyStr (AlbumCommand.candidateAlbum result) && AlbumCommand.truthyId result.

(** The score of a result against the names the command looks for. *)
Definition scoreFor (targetAlbumName targetArtistName : string)
    (result : AlbumCommand.AlbumResult) : Z :=
  AlbumCommand.score (AlbumCommand.normalize targetAlbumName)
    (AlbumCommand.normalize targetArtistName) result.

(** [r] is the first of the usable results with the highest score. *)
Definition firstBest (targetAlbumName targetArtistName : string)
    (results : list AlbumCommand.AlbumResult) (r : AlbumCommand.AlbumResult) : Prop :=
  exists pre post,
    results = pre ++ r :: post
    /\ usable r = true
    /\ (forall x, In x pre -> usable x = true ->
         scoreFor targetAlbumName targetArtistName x
         < scoreFor targetAlbumName targetArtistName r)
    /\ (forall x, In x post -> usable x = true ->
         scoreFor targetAlbumName targetArtistName x
         <= scoreFor targetAlbumName targetArtistName r).

(** The cells of the album command when an album was found. *)
Definition found (album artist : string) : AlbumCommand.Detection :=
  {| AlbumCommand.searchText := album;
     AlbumCommand.isDetectingTrack := false;
     AlbumCommand.trackDetectionError := None;
     AlbumCommand.isMediaControlMissing := false;
     AlbumCommand.isMediaControlInstalled := false;
     AlbumCommand.targetAlbumName := album;
     AlbumCommand.targetArtistName := artist |}.

(** A date of the calendar, year 1 to 9999. *)
Definition calendarDate (y m d : Z) : Prop :=
  1 <= y <= 9999 /\ 1 <= m <= 12 /\ 1 <= d <= 31.

(** The album carries the date [y]-[m]-[d] in its components. *)
Definition releasedOn (album : ArtistBio.Album) (y m d : Z) : Prop :=
  ArtistBio.release_date_components album
  = Some {| ArtistBio.year := Some y; ArtistBio.month := Some m; ArtistBio.day := Some d |}.

(** The components of the album give no year: it is absent, or zero. *)
Definition noYear (album : ArtistBio.Album) : Prop :=
  ArtistBio.yearFromParts album = None \/ ArtistBio.yearFromParts album = Some 0.

(** The first date is before the second. *)
Definition before (y m d y' m' d' : Z) : Prop :=
  y < y' \/ (y = y' /\ (m < m' \/ (m = m' /\ d < d'))).

(** Calls on the store are not rejected. *)
Definition healthy (ls : MediaControl.LocalStorage) : Prop :=
  MediaControl.getItemFault ls = None /\ MediaControl.setItemFault ls = None.

End Vocabulary.

(** ** Further hosts and data *)

Module Samples.
Import JS MediaControl.

(** The provider is installed by Homebrew only, and prints the song. *)
Definition homebrewOnly : string -> ExecResult :=
  fun binary =>
    if String.eqb binary "/opt/homebrew/bin/media-control"
    then Exited (Scenario.textOf Scenario.songPayload) ""
    else Rejected (Scenario.enoent binary).

(** What [saveEligibleMedia] stores for the song at the time of the host. *)
Definition songRecordNow : value :=
  Obj [("payload", Scenario.songPayload); ("cachedAt", Num 1771977600000)].

Definition homebrewRuntime : Runtime :=
  Scenario.runtime homebrewOnly [Scenario.songPayload; songRecordNow].

(** No candidate exists; the parser knows the record of the song. *)
Definition goneRuntime : Runtime :=
  Scenario.runtime Scenario.notInstalled [Scenario.songRecord].

(** The album command found the song some time ago. *)
Definition albumStorage : LocalStorage :=
  Scenario.storage [(CACHE_KEYS album, StoredString (Scenario.textOf Scenario.songRecord))].

(** A payload with its artwork inline, and a lookup that returned it. *)
Definition inlineArtwork : value :=
  Obj [("title", Str "B"); ("album", Str "X"); ("artworkData", Str "QUJD")].

Definition lookupInline : MediaControlDebugInfo :=
  {| query := Some "B";
     stdout := Scenario.textOf inlineArtwork;
     stderr := "";
     error := None;
     payload := inlineArtwork;
     binary := Some "media-control";
     attempts := [];
     isNotInstalled := false |}.

(** A host whose parser knows the state of the menubar. *)
Definition stateRuntime : Runtime :=
  Scenario.runtime Scenario.notInstalled [Menubar.stateObject Scenario.shownA].

(** Two results of a search for "Abbey Road" by "The Beatles": the sessions
    by the artist, then the album by another name and another artist. *)
Definition sessions : AlbumCommand.AlbumResult :=
  {| AlbumCommand.id := Some 1;
     AlbumCommand.name := Some "Abbey Road Sessions";
     AlbumCommand.url := None;
     AlbumCommand.artist := Some {| AlbumCommand.Artist.name := Some "The Beatles" |} |}.

Definition shouted : AlbumCommand.AlbumResult :=
  {| AlbumCommand.id := Some 2;
     AlbumCommand.name := Some "ABBEY ROAD!";
     AlbumCommand.url := None;
     AlbumCommand.artist := Some {| AlbumCommand.Artist.name := Some "Tribute Band" |} |}.

(** Three albums: two of the same year, one not announced yet. *)
Definition spring : ArtistBio.Album :=
  {| ArtistBio.release_date_components :=
       Some {| ArtistBio.year := Some 2019; ArtistBio.month := Some 3;
               ArtistBio.day := Some 1 |};
     ArtistBio.release_date_for_display := Some "March 1, 2019" |}.

Definition autumn : ArtistBio.Album :=
  {| ArtistBio.release_date_components :=
       Some {| ArtistBio.year := Some 2019; ArtistBio.month := Some 11;
               ArtistBio.day := Some 22 |};
     ArtistBio.release_date_for_display := Some "November 22, 2019" |}.

Definition unannounced : ArtistBio.Album :=
  {| ArtistBio.release_date_components := None;
     ArtistBio.release_date_for_display := Some "TBA" |}.

(** The state that shows track "C", and a host that prints that track and
    whose parser knows the text of that state. *)
Definition mirroredC : Menubar.NowPlayingState := Spec.committed "C" "" "Y" "".

Definition mirrorRuntime : Runtime :=
  Scenario.runtime (Scenario.prints Scenario.trackC)
    [Scenario.trackC; Menubar.stateObject mirroredC].

(** What [saveEligibleMedia] stores for the song a minute later, and a host
    whose parser knows both records. *)
Definition songRecordLater : value :=
  Obj [("payload", Scenario.songPayload); ("cachedAt", Num 1771977660000)].

Definition savingRuntime : Runtime :=
  Scenario.runtime homebrewOnly [Scenario.songPayload; songRecordNow; songRecordLater].

End Samples.

(** * Properties *)

Import JS Spec.

(** ** Strings *)

Lemma truthyStr_false (s : string) : truthyStr s = false <-> s = "".
Proof. destruct s; simpl; split; congruence. Qed.

Lemma truthyStr_true (s : string) : truthyStr s = true <-> s <> "".
Proof. destruct s; simpl; split; congruence. Qed.

Lemma append_length (a b : string) :
  String.length (a +:+ b) = (String.length a + String.length b)%nat.
Proof. induction a as [|c a IH]; simpl; [reflexivity | now rewrite IH]. Qed.

(** ** The kind-specific query *)

Section Query.
Import MediaControl.

Lemma readStringField_not_string (payload : value) (key : string) :
  (forall s, getProperty payload key = Str s -> trim s = "") ->
  MediaControl.readStringField payload key = "".
Proof.
  intros H. unfold MediaControl.readStringField.
  destruct (negb (truthy payload) || negb (typeofObject payload)); [reflexivity |].
  destruct (getProperty payload key) eqn:E; try reflexivity.
  now apply H.
Qed.

Lemma formatNowPlayingSearchQuery_spec (payload : value) :
  let title := MediaControl.readStringField payload "title" in
  let artist := MediaControl.readStringField payload "artist" in
  formatNowPlayingSearchQuery payload =
    if truthyStr title
    then Some (if truthyStr artist then title +:+ " " +:+ artist else title)
    else None.
Proof.
  unfold formatNowPlayingSearchQuery. cbv zeta.
  destruct (MediaControl.readStringField payload "title") as [|c t] eqn:Et; simpl;
    [reflexivity |].
  now destruct (MediaControl.readStringField payload "artist").
Qed.

(** C5.  A payload whose [album] is absent, not a string or blank has no query
    for any of the three kinds, whatever its title and artist; the payload
    with title "Song", artist "Artist" and album "Album" has the query
    "Song Artist" for kind [track] and "Album" for kind [album]. *)
Theorem queryForLookupKind_needs_album :
  (forall (payload : value) (kind : LookupKind),
      (forall s, getProperty payload "album" = Str s -> trim s = "") ->
      queryForLookupKind payload kind = None)
  /\ queryForLookupKind Scenario.songPayload track = Some "Song Artist"
  /\ queryForLookupKind Scenario.songPayload album = Some "Album".
Proof.
  split; [| split; reflexivity].
  intros payload kind H. unfold queryForLookupKind.
  now rewrite (readStringField_not_string payload "album" H).
Qed.

(** C5, at a payload with a title and an artist but a blank album. *)
Lemma queryForLookupKind_needs_album_witness :
  (forall s,
      getProperty (Obj [("title", Str "Song"); ("artist", Str "Artist"); ("album", Str "  ")])
        "album" = Str s -> trim s = "")
  /\ queryForLookupKind
       (Obj [("title", Str "Song"); ("artist", Str "Artist"); ("album", Str "  ")]) track
     = None.
Proof.
  assert (H : forall s,
             getProperty
               (Obj [("title", Str "Song"); ("artist", Str "Artist"); ("album", Str "  ")])
               "album" = Str s -> trim s = "").
  { intros s E. simpl in E. injection E as <-. reflexivity. }
  split; [exact H |].
  exact (proj1 queryForLookupKind_needs_album _ track H).
Defined.

(** C10.  The query for kind [artist] is the query for kind [track].  When
    album and title are not blank it is the title joined with the artist by
    one space, or the title alone when the artist is blank; when the album or
    the title is blank there is no query, for both kinds alike.  It is never
    the artist name alone. *)
Theorem queryForLookupKind_artist_is_track (payload : value) :
  let title := MediaControl.readStringField payload "title" in
  let artistName := MediaControl.readStringField payload "artist" in
  let albumName := MediaControl.readStringField payload "album" in
  queryForLookupKind payload artist = queryForLookupKind payload track
  /\ (albumName <> "" -> title <> "" -> artistName <> "" ->
      queryForLookupKind payload artist = Some (title +:+ " " +:+ artistName))
  /\ (albumName <> "" -> title <> "" -> artistName = "" ->
      queryForLookupKind payload artist = Some title)
  /\ (albumName = "" \/ title = "" -> queryForLookupKind payload artist = None)
  /\ (forall q,
        queryForLookupKind payload artist = Some q ->
        albumName <> ""
        /\ title <> ""
        /\ q = join " " (List.filter truthyStr [title; artistName])
        /\ q <> artistName)
  /\ queryForLookupKind Scenario.songPayload artist = Some "Song Artist".
Proof.
  cbv zeta.
  assert (Hq : queryForLookupKind payload artist
               = if truthyStr (MediaControl.readStringField payload "album")
                 then if truthyStr (MediaControl.readStringField payload "title")
                      then Some (if truthyStr (MediaControl.readStringField payload "artist")
                                 then MediaControl.readStringField payload "title" +:+ " "
                                      +:+ MediaControl.readStringField payload "artist"
                                 else MediaControl.readStringField payload "title")
                      else None
                 else None).
  { unfold queryForLookupKind. rewrite formatNowPlayingSearchQuery_spec. cbv zeta.
    now destruct (truthyStr (MediaControl.readStringField payload "album")). }
  split; [reflexivity |]. rewrite Hq. clear Hq.
  split; [| split; [| split; [| split; [| reflexivity]]]].
  - intros Ha Ht Hr. apply truthyStr_true in Ha, Ht, Hr. now rewrite Ha, Ht, Hr.
  - intros Ha Ht Hr. apply truthyStr_true in Ha, Ht. rewrite Ha, Ht, Hr. reflexivity.
  - intros [Ha | Ht].
    + now rewrite Ha.
    + rewrite Ht. now destruct (truthyStr (MediaControl.readStringField payload "album")).
  - intros q.
    destruct (truthyStr (MediaControl.readStringField payload "album")) eqn:Ea;
      [| discriminate].
    destruct (truthyStr (MediaControl.readStringField payload "title")) eqn:Et;
      [| discriminate].
    intros [= <-]. split; [now apply truthyStr_true |]. split; [now apply truthyStr_true |].
    split.
    + cbn [List.filter]. rewrite Et.
      now destruct (truthyStr (MediaControl.readStringField payload "artist")).
    + destruct (truthyStr (MediaControl.readStringField payload "artist")) eqn:Er.
      * intros Heq. apply (f_equal String.length) in Heq.
        rewrite !append_length in Heq. simpl in Heq. lia.
      * apply truthyStr_false in Er. rewrite Er. now apply truthyStr_true.
Qed.

End Query.

(** ** The media probe *)

Section Probe.
Import MediaControl.
Variable rt : Runtime.

Lemma countsAsMissing_iff (binary : string) :
  countsAsMissing rt binary = true <-> missingBinary rt binary.
Proof.
  unfold countsAsMissing, missingBinary. destruct (attempt rt binary) as [r | e].
  - split; [discriminate | intros (e & E & _); discriminate].
  - split; [intros H; now exists e | intros (e' & E & H); now injection E as ->].
Qed.

Lemma filter_length_le {A} (f : A -> bool) (l : list A) :
  (length (List.filter f l) <= length l)%nat.
Proof. induction l as [|x l IH]; simpl; [lia | destruct (f x); simpl; lia]. Qed.

Lemma filter_length_all {A} (f : A -> bool) (l : list A) :
  length (List.filter f l) = length l <-> Forall (fun x => f x = true) l.
Proof.
  induction l as [|x l IH]; simpl.
  - split; [constructor | reflexivity].
  - pose proof (filter_length_le f l) as Hle. destruct (f x) eqn:E; simpl.
    + split.
      * intros H. constructor; [assumption | apply IH; lia].
      * intros H. inversion H; subst. f_equal. now apply IH.
    + split; [lia |]. intros H. inversion H; congruence.
Qed.

(** The loop: the flag is set exactly when every remaining candidate fails
    and the counter reaches the number of candidates. *)
Lemma tryCandidates_isNotInstalled (rest attempts : list string) (missing : nat) :
  isNotInstalled (tryCandidates rt rest attempts missing) = true <->
  (missing + length (List.filter (countsAsMissing rt) rest) = length candidates)%nat
  /\ Forall (fun binary => exists e, attempt rt binary = Thrown e) rest.
Proof.
  revert attempts missing. induction rest as [|binary rest IH]; intros attempts missing.
  - simpl. rewrite Nat.eqb_eq. split; [intros H; split; [lia | constructor] | lia].
  - simpl. unfold countsAsMissing at 1.
    destruct (attempt rt binary) as [[[out err] p] | e] eqn:Ea.
    + simpl. split; [discriminate |]. intros [_ H]. inversion H as [|? ? (e & E) ?].
      congruence.
    + rewrite IH. destruct (isMissingBinaryError e); simpl.
      * split; intros [Hc Hf]; (split; [lia | ]).
        -- constructor; [now exists e | assumption].
        -- now inversion Hf.
      * split; intros [Hc Hf]; (split; [lia | ]).
        -- constructor; [now exists e | assumption].
        -- now inversion Hf.
Qed.

(** Every failed candidate leaves a note. *)
Lemma tryCandidates_attempts (rest attempts : list string) (missing : nat) :
  Forall (fun binary => exists e, attempt rt binary = Thrown e) rest ->
  length (MediaControl.attempts (tryCandidates rt rest attempts missing))
  = (length attempts + length rest)%nat.
Proof.
  revert attempts missing. induction rest as [|binary rest IH]; intros attempts missing H.
  - simpl. lia.
  - inversion H as [|? ? (e & E) Hrest]; subst. simpl. rewrite E.
    rewrite IH by assumption. rewrite length_app. simpl. lia.
Qed.

(** C3.  The probe reports "not installed" exactly when (on the supported
    platform) every one of the six candidates failed with an error of the
    not-found class; all six were then attempted.  One failure of another
    class, such as a permission error, among the candidates clears the flag. *)
Theorem inspectNowPlaying_isNotInstalled :
  length candidates = 6%nat
  /\ (isNotInstalled (inspectNowPlaying rt) = true <->
      platform rt = "darwin" /\ Forall (missingBinary rt) candidates)
  /\ (isNotInstalled (inspectNowPlaying rt) = true ->
      length (attempts (inspectNowPlaying rt)) = 6%nat)
  /\ (forall binary e,
        In binary candidates ->
        attempt rt binary = Thrown e ->
        isMissingBinaryError e = false ->
        isNotInstalled (inspectNowPlaying rt) = false).
Proof.
  assert (Hiff : isNotInstalled (inspectNowPlaying rt) = true <->
                 platform rt = "darwin" /\ Forall (missingBinary rt) candidates).
  { unfold inspectNowPlaying. destruct (String.eqb (platform rt) "darwin") eqn:Ep;
      cbn [negb isNotInstalled].
    - apply String.eqb_eq in Ep. rewrite tryCandidates_isNotInstalled.
      rewrite Nat.add_0_l, filter_length_all. split.
      + intros [Hall _]. split; [assumption |].
        eapply List.Forall_impl; [| exact Hall]. intros b Hb. now apply countsAsMissing_iff.
      + intros [_ Hall]. split.
        * eapply List.Forall_impl; [| exact Hall]. intros b Hb. now apply countsAsMissing_iff.
        * eapply List.Forall_impl; [| exact Hall]. intros b (e & E & _). now exists e.
    - apply String.eqb_neq in Ep. split; [discriminate | tauto]. }
  split; [reflexivity |]. split; [exact Hiff |]. split.
  - intros H. apply Hiff in H as [Ep Hall]. unfold inspectNowPlaying.
    apply String.eqb_eq in Ep. rewrite Ep. simpl negb. cbv iota.
    rewrite tryCandidates_attempts; [reflexivity |].
    eapply List.Forall_impl; [| exact Hall]. intros b (e & E & _). now exists e.
  - intros binary e Hin E Hno.
    destruct (isNotInstalled (inspectNowPlaying rt)) eqn:Hflag; [| reflexivity].
    destruct (proj1 Hiff eq_refl) as [_ Hall]. rewrite List.Forall_forall in Hall.
    destruct (Hall binary Hin) as (e' & E' & Hmiss). congruence.
Qed.

End Probe.

(** Nothing is installed: the flag is set. *)
Example inspectNowPlaying_all_missing :
  MediaControl.isNotInstalled
    (MediaControl.inspectNowPlaying (Scenario.runtime Scenario.notInstalled [])) = true.
Proof. reflexivity. Qed.

(** One candidate exists but may not be executed: the flag is clear, and the
    error of the last candidate is reported. *)
Example inspectNowPlaying_one_forbidden :
  let info :=
    MediaControl.inspectNowPlaying
      (Scenario.runtime (Scenario.oneForbidden "/usr/local/bin/media-control") []) in
  MediaControl.isNotInstalled info = false /\ length (MediaControl.attempts info) = 6%nat.
Proof. split; reflexivity. Qed.

(** ** The eligibility cache *)

Section EligibilityCache.
Import MediaControl.
Variable rt : Runtime.

Lemma saveEligibleMedia_returns (kind : LookupKind) (payload : value) (ls : LocalStorage) :
  exists ls',
    saveEligibleMedia rt kind payload ls = (Returned tt, ls')
    /\ getItemFault ls' = getItemFault ls
    /\ setItemFault ls' = setItemFault ls
    /\ (forall e, setItemFault ls = Some e -> ls' = ls)
    /\ (setItemFault ls = None ->
        items ls' =
          <[CACHE_KEYS kind :=
              StoredString
                (JSON_stringify rt (Obj [("payload", payload); ("cachedAt", Num (Date_now rt))]))]>
            (items ls)).
Proof.
  unfold saveEligibleMedia, tryCatch, setItem, resolve.
  destruct (setItemFault ls) as [e |] eqn:E.
  - exists ls. repeat split; intros; first [reflexivity | exact E | discriminate].
  - eexists. split; [reflexivity |]. simpl.
    repeat split; intros; first [reflexivity | exact E | discriminate].
Qed.

(** What [readEligibleMedia] finds for a kind: the record under the
    [payload] property of the parsed, non-empty string stored under the key
    of the kind. *)
Lemma readEligibleMedia_returns (kind : LookupKind) (ls : LocalStorage) :
  exists r,
    readEligibleMedia rt kind ls = (Returned r, ls)
    /\ (forall p,
          r = Some p <->
          getItemFault ls = None
          /\ exists raw parsed,
               items ls !! CACHE_KEYS kind = Some (StoredString raw)
               /\ raw <> ""
               /\ JSON_parse rt raw = Returned parsed
               /\ asPayloadRecord (getProperty parsed "payload") = Some p).
Proof.
  unfold readEligibleMedia, tryCatch, await, getItem, liftResult, resolve.
  destruct (getItemFault ls) as [e |] eqn:Ef.
  { exists None. split; [reflexivity |]. intros p. split; [discriminate |].
    intros [H _]. discriminate. }
  destruct (items ls !! CACHE_KEYS kind) as [[raw | n | b] |] eqn:Ei;
    try (exists None; split; [reflexivity |]; intros p; split; [discriminate |];
         intros (_ & raw' & parsed & E & _); discriminate).
  destruct (truthyStr raw) eqn:Et; simpl.
  2:{ exists None. split; [reflexivity |]. intros p. split; [discriminate |].
      intros (_ & raw' & parsed & E & Hne & _). injection E as <-.
      apply truthyStr_false in Et. contradiction. }
  apply truthyStr_true in Et.
  destruct (JSON_parse rt raw) as [parsed | e] eqn:Ep.
  2:{ exists None. split; [reflexivity |]. intros p. split; [discriminate |].
      intros (_ & raw' & parsed & E & _ & Hp & _). injection E as <-. congruence. }
  destruct (negb (truthy parsed) || negb (typeofObject parsed)) eqn:Eo.
  - exists None. split; [reflexivity |]. intros p. split; [discriminate |].
    intros (_ & raw' & parsed' & E & _ & Hp & Hr). injection E as <-.
    rewrite Ep in Hp. injection Hp as <-.
    destruct parsed; simpl in Eo, Hr; try discriminate.
  - exists (asPayloadRecord (getProperty parsed "payload")). split; [reflexivity |].
    intros p. split.
    + intros H. split; [reflexivity |]. now exists raw, parsed.
    + intros (_ & raw' & parsed' & E & _ & Hp & Hr). injection E as <-. congruence.
Qed.

End EligibilityCache.

(** ** The lookup orchestrator *)

Section Lookup.
Import MediaControl.
Variable rt : Runtime.

(** A query is a non-empty string: "has a query" and "the query is truthy"
    are the same test. *)
Lemma queryForLookupKind_truthy (p : value) (kind : LookupKind) :
  truthyQuery (queryForLookupKind p kind) = true <-> queryForLookupKind p kind <> None.
Proof.
  unfold queryForLookupKind.
  destruct (truthyStr (MediaControl.readStringField p "album")) eqn:Ea; simpl;
    [| split; [discriminate | congruence]].
  assert (Hs : truthyQuery (formatNowPlayingSearchQuery p) = true <->
               formatNowPlayingSearchQuery p <> None).
  { rewrite formatNowPlayingSearchQuery_spec. cbv zeta.
    destruct (MediaControl.readStringField p "title") as [|c t]; simpl;
      [split; [discriminate | congruence] |].
    destruct (truthyStr (MediaControl.readStringField p "artist")); simpl;
      split; congruence. }
  destruct kind; try exact Hs.
  unfold formatNowPlayingAlbumSearchQuery. rewrite Ea. simpl. rewrite Ea.
  split; congruence.
Qed.

Lemma queryForLookupKind_falsy (p : value) (kind : LookupKind) :
  truthyQuery (queryForLookupKind p kind) = false <-> queryForLookupKind p kind = None.
Proof.
  pose proof (queryForLookupKind_truthy p kind) as H.
  destruct (truthyQuery (queryForLookupKind p kind)), (queryForLookupKind p kind);
    split; try congruence; intros; exfalso; intuition congruence.
Qed.

(** A live payload that is eligible is saved and returned, whatever the
    options and the state of the store. *)
Lemma lookup_live_eligible (kind : LookupKind) (options : option LookupOptions)
    (ls : LocalStorage) (p : value) :
  asPayloadRecord (payload (inspectNowPlaying rt)) = Some p ->
  queryForLookupKind p kind <> None ->
  inspectNowPlayingForLookup rt kind options ls =
    (Returned (withPayloadAndQuery (inspectNowPlaying rt) p (queryForLookupKind p kind)),
     snd (saveEligibleMedia rt kind p ls)).
Proof.
  intros Hp Hq. apply queryForLookupKind_truthy in Hq.
  unfold inspectNowPlayingForLookup, await at 1, resolve at 1. rewrite Hp, Hq.
  unfold await. destruct (saveEligibleMedia_returns rt kind p ls) as (ls' & E & _).
  rewrite E. reflexivity.
Qed.

Lemma await_readEligibleMedia {B} (kind : LookupKind) (k : option value -> Async B)
    (ls : LocalStorage) :
  await (readEligibleMedia rt kind) k ls
  = match fst (readEligibleMedia rt kind ls) with
    | Returned r => k r ls
    | Thrown e => (Thrown e, ls)
    end.
Proof.
  unfold await. destruct (readEligibleMedia_returns rt kind ls) as (r & E & _).
  now rewrite E.
Qed.

Lemma lookup_no_live_payload (kind : LookupKind) (options : option LookupOptions)
    (ls : LocalStorage) :
  asPayloadRecord (payload (inspectNowPlaying rt)) = None ->
  inspectNowPlayingForLookup rt kind options ls = (Returned (answerFromCache rt kind ls), ls).
Proof.
  intros Hp. unfold inspectNowPlayingForLookup, await at 1, resolve at 1. rewrite Hp.
  rewrite await_readEligibleMedia. unfold answerFromCache.
  destruct (readEligibleMedia_returns rt kind ls) as (r & E & _). rewrite E.
  cbn [fst orNull]. destruct r as [cached |]; [| reflexivity].
  cbn [orNull]. now destruct (truthyQuery (queryForLookupKind cached kind)).
Qed.

Lemma lookup_live_ineligible (kind : LookupKind) (options : option LookupOptions)
    (ls : LocalStorage) (p : value) :
  asPayloadRecord (payload (inspectNowPlaying rt)) = Some p ->
  queryForLookupKind p kind = None ->
  inspectNowPlayingForLookup rt kind options ls =
    (Returned
       (if optedIn options then answerFromCache rt kind ls
        else withPayloadAndQuery (inspectNowPlaying rt) Null None),
     ls).
Proof.
  intros Hp Hq. apply queryForLookupKind_falsy in Hq.
  unfold inspectNowPlayingForLookup, await at 1, resolve at 1. rewrite Hp, Hq.
  destruct (optedIn options); [| reflexivity].
  rewrite await_readEligibleMedia. unfold answerFromCache.
  destruct (readEligibleMedia_returns rt kind ls) as (r & E & _). rewrite E.
  cbn [fst orNull]. destruct r as [cached |]; [| reflexivity].
  cbn [orNull]. now destruct (truthyQuery (queryForLookupKind cached kind)).
Qed.

End Lookup.

Section LookupProperties.
Import MediaControl.
Variable rt : Runtime.

Lemma answerFromCache_hit (kind : LookupKind) (ls : LocalStorage) (cached : value)
    (q : string) :
  fst (readEligibleMedia rt kind ls) = Returned (Some cached) ->
  queryForLookupKind cached kind = Some q ->
  answerFromCache rt kind ls = withPayloadAndQuery (inspectNowPlaying rt) cached (Some q).
Proof.
  intros Hr Hq. unfold answerFromCache. cbv zeta. rewrite Hr.
  assert (Ht : truthyQuery (queryForLookupKind cached kind) = true)
    by (apply queryForLookupKind_truthy; congruence).
  now rewrite Ht, Hq.
Qed.

(** C4, as the code has it.  When the probe returned a record (a JSON object
    or array) that is ineligible for the kind and the caller did not opt in,
    the orchestrator answers [query = null], [payload = null] with the
    diagnostics of the probe, and neither reads nor writes the store: the
    answer is the same whatever the cache holds.  With the opt-in the answer
    comes from the cache.  A probe output that is no record (a JSON number,
    string, boolean or [null]) counts as no payload: the cache answers for
    it with or without the opt-in. *)
Theorem lookup_discards_ineligible_record (kind : LookupKind) (ls : LocalStorage) :
  let info := inspectNowPlaying rt in
  (forall p options,
      asPayloadRecord (payload info) = Some p ->
      queryForLookupKind p kind = None ->
      optedIn options = false ->
      exists answer,
        inspectNowPlayingForLookup rt kind options ls = (Returned answer, ls)
        /\ query answer = None
        /\ payload answer = Null
        /\ error answer = error info
        /\ attempts answer = attempts info
        /\ binary answer = binary info
        /\ isNotInstalled answer = isNotInstalled info
        /\ stdout answer = stdout info
        /\ stderr answer = stderr info)
  /\ (forall p options,
        asPayloadRecord (payload info) = Some p ->
        queryForLookupKind p kind = None ->
        optedIn options = true ->
        inspectNowPlayingForLookup rt kind options ls
        = (Returned (answerFromCache rt kind ls), ls))
  /\ (forall options,
        asPayloadRecord (payload info) = None ->
        inspectNowPlayingForLookup rt kind options ls
        = (Returned (answerFromCache rt kind ls), ls)).
Proof.
  cbv zeta. split; [| split].
  - intros p options Hp Hq Ho. eexists. split.
    + rewrite (lookup_live_ineligible rt kind options ls p Hp Hq), Ho. reflexivity.
    + repeat split.
  - intros p options Hp Hq Ho.
    now rewrite (lookup_live_ineligible rt kind options ls p Hp Hq), Ho.
  - intros options Hp. now apply lookup_no_live_payload.
Qed.

(** C8.  [saveEligibleMedia] returns to its caller whatever the store does,
    and a lookup with an eligible live payload answers with that payload
    even when the write failed.  [readEligibleMedia] returns too, leaves the
    store as it was, and its result is [null] when the read is rejected,
    when nothing is stored, when what is stored is no string, when the
    string does not parse, and when what it parses to has no record under
    [payload]. *)
Theorem eligibility_cache_never_throws (kind : LookupKind) (ls : LocalStorage) :
  (forall payload, exists ls', saveEligibleMedia rt kind payload ls = (Returned tt, ls'))
  /\ (forall p options,
        asPayloadRecord (payload (inspectNowPlaying rt)) = Some p ->
        queryForLookupKind p kind <> None ->
        fst (inspectNowPlayingForLookup rt kind options ls)
        = Returned
            (withPayloadAndQuery (inspectNowPlaying rt) p (queryForLookupKind p kind)))
  /\ exists r,
       readEligibleMedia rt kind ls = (Returned r, ls)
       /\ (getItemFault ls <> None -> r = None)
       /\ (items ls !! CACHE_KEYS kind = None -> r = None)
       /\ (forall n, items ls !! CACHE_KEYS kind = Some (StoredNumber n) -> r = None)
       /\ (forall b, items ls !! CACHE_KEYS kind = Some (StoredBoolean b) -> r = None)
       /\ (forall raw e,
             items ls !! CACHE_KEYS kind = Some (StoredString raw) ->
             JSON_parse rt raw = Thrown e -> r = None)
       /\ (forall raw parsed,
             items ls !! CACHE_KEYS kind = Some (StoredString raw) ->
             JSON_parse rt raw = Returned parsed ->
             asPayloadRecord (getProperty parsed "payload") = None -> r = None).
Proof.
  split; [| split].
  - intros p. destruct (saveEligibleMedia_returns rt kind p ls) as (ls' & E & _).
    now exists ls'.
  - intros p options Hp Hq. now rewrite (lookup_live_eligible rt kind options ls p Hp Hq).
  - destruct (readEligibleMedia_returns rt kind ls) as (r & E & Hr).
    exists r. split; [exact E |].
    assert (Hnone : (forall p, r = Some p -> False) -> r = None).
    { destruct r as [p |]; [intros H; destruct (H p eq_refl) | reflexivity]. }
    repeat split.
    + intros Hf. apply Hnone. intros p Hp. apply Hr in Hp as [Hg _]. contradiction.
    + intros Hi. apply Hnone. intros p Hp.
      apply Hr in Hp as (_ & raw & parsed & E' & _). congruence.
    + intros n Hi. apply Hnone. intros p Hp.
      apply Hr in Hp as (_ & raw & parsed & E' & _). congruence.
    + intros b Hi. apply Hnone. intros p Hp.
      apply Hr in Hp as (_ & raw & parsed & E' & _). congruence.
    + intros raw e Hi He. apply Hnone. intros p Hp.
      apply Hr in Hp as (_ & raw' & parsed & E' & _ & Hparse & _). congruence.
    + intros raw parsed Hi Hparse Hnp. apply Hnone. intros p Hp.
      apply Hr in Hp as (_ & raw' & parsed' & E' & _ & Hparse' & Hrec). congruence.
Qed.

End LookupProperties.

(** C4, counterexample.  The provider prints the JSON string "stopped": a
    payload with no query for any kind.  The caller did not opt in, a song is
    cached for kind [track], and the orchestrator answers with the cached
    song and its query. *)
Lemma lookup_scalar_payload_answers_from_cache :
  MediaControl.payload (MediaControl.inspectNowPlaying Scenario.scalarRuntime)
  = Str "stopped"
  /\ MediaControl.queryForLookupKind (Str "stopped") MediaControl.track = None
  /\ MediaControl.optedIn None = false
  /\ exists answer,
       fst (MediaControl.inspectNowPlayingForLookup Scenario.scalarRuntime
              MediaControl.track None Scenario.songStorage)
       = MediaControl.Returned answer
       /\ MediaControl.query answer = Some "Song Artist"
       /\ MediaControl.query answer <> None
       /\ MediaControl.payload answer = Scenario.songPayload.
Proof.
  split; [reflexivity |]. split; [reflexivity |]. split; [reflexivity |].
  eexists. split; [vm_compute; reflexivity |].
  split; [reflexivity |]. split; [discriminate | reflexivity].
Qed.

(** C4, at a provider that prints an object with no album while the cache
    holds a song: without the opt-in the answer has no query and no payload. *)
Lemma lookup_discards_ineligible_record_witness :
  MediaControl.asPayloadRecord
    (MediaControl.payload (MediaControl.inspectNowPlaying Scenario.jingleRuntime))
  = Some Scenario.untitledAlbum
  /\ MediaControl.queryForLookupKind Scenario.untitledAlbum MediaControl.track = None
  /\ MediaControl.optedIn None = false
  /\ exists answer,
       MediaControl.inspectNowPlayingForLookup Scenario.jingleRuntime MediaControl.track
         None Scenario.songStorage
       = (MediaControl.Returned answer, Scenario.songStorage)
       /\ MediaControl.query answer = None
       /\ MediaControl.payload answer = Null.
Proof.
  split; [reflexivity |]. split; [reflexivity |]. split; [reflexivity |].
  destruct (proj1 (lookup_discards_ineligible_record Scenario.jingleRuntime
                     MediaControl.track Scenario.songStorage)
              Scenario.untitledAlbum None eq_refl eq_refl eq_refl)
    as (answer & E & Hq & Hp & _).
  exists answer. repeat split; assumption.
Defined.

(** With the opt-in, the same lookup answers with the cached song. *)
Example lookup_opted_in_answers_from_cache :
  exists answer,
    fst (MediaControl.inspectNowPlayingForLookup Scenario.jingleRuntime MediaControl.track
           (Some {| MediaControl.allowCacheFallbackOnIneligible := Some true |})
           Scenario.songStorage)
    = MediaControl.Returned answer
    /\ MediaControl.query answer = Some "Song Artist".
Proof. eexists. split; [vm_compute; reflexivity | reflexivity]. Qed.

(** A store that rejects every call does not stop the lookup of a live song. *)
Example lookup_survives_broken_storage :
  exists answer,
    MediaControl.inspectNowPlayingForLookup
      (Scenario.runtime (Scenario.prints Scenario.songPayload) [Scenario.songPayload])
      MediaControl.album None Scenario.brokenStorage
    = (MediaControl.Returned answer, Scenario.brokenStorage)
    /\ MediaControl.query answer = Some "Album".
Proof. eexists. split; [vm_compute; reflexivity | reflexivity]. Qed.

(** ** Artwork normalization *)

Section Artwork.
Import Menubar.

#[local] Arguments unitMatches : simpl never.

Lemma residuals_lit (p s : string) :
  residuals true (lit p) s
  = if startsWithIgnoringCase p s then [skipUnits (String.length p) s] else [].
Proof.
  revert s. induction p as [|c p IH]; intros s; simpl; [reflexivity |].
  destruct s as [|a s]; simpl; [reflexivity |].
  destruct (unitMatches true c a); simpl; [| reflexivity].
  rewrite IH. destruct (startsWithIgnoringCase p s); reflexivity.
Qed.

Lemma startsWithIgnoringCase_app (p q s : string) :
  startsWithIgnoringCase (p +:+ q) s
  = startsWithIgnoringCase p s && startsWithIgnoringCase q (skipUnits (String.length p) s).
Proof.
  revert s. induction p as [|c p IH]; intros s; simpl; [reflexivity |].
  destruct s as [|a s]; [reflexivity |].
  rewrite IH. now rewrite andb_assoc.
Qed.

Lemma nonEmpty_app {A} (l1 l2 : list A) : nonEmpty (l1 ++ l2) = nonEmpty l1 || nonEmpty l2.
Proof. now destruct l1. Qed.

Lemma nonEmpty_if {A} (b : bool) (x : A) : nonEmpty (if b then [x] else []) = b.
Proof. now destruct b. Qed.

Lemma optional_s (t : string) :
  nonEmpty (residuals true (Cat (Opt (Chr "s")) (lit "://")) t)
  = startsWithIgnoringCase ("s" +:+ "://") t || startsWithIgnoringCase "://" t.
Proof.
  rewrite startsWithIgnoringCase_app.
  change (residuals true (Cat (Opt (Chr "s")) (lit "://")) t)
    with (flat_map (residuals true (lit "://")) (residuals true (Chr "s") t ++ [t])).
  rewrite flat_map_app, nonEmpty_app. f_equal.
  - destruct t as [|a t]; [reflexivity |].
    change (residuals true (Chr "s") (String a t))
      with (if unitMatches true "s" a then [t] else []).
    change (startsWithIgnoringCase "s" (String a t)) with (unitMatches true "s" a && true).
    change (skipUnits (String.length "s") (String a t)) with t.
    rewrite andb_true_r. destruct (unitMatches true "s" a); [| reflexivity].
    change (flat_map (residuals true (lit "://")) [t])
      with (residuals true (lit "://") t ++ []).
    now rewrite app_nil_r, residuals_lit, nonEmpty_if.
  - change (flat_map (residuals true (lit "://")) [t])
      with (residuals true (lit "://") t ++ []).
    now rewrite app_nil_r, residuals_lit, nonEmpty_if.
Qed.

Lemma artworkUrlPattern_test (s : string) :
  testAtStart true artworkUrlPattern s = hasUrlScheme s.
Proof.
  change (testAtStart true artworkUrlPattern s)
    with (nonEmpty
            (flat_map (residuals true (Cat (Opt (Chr "s")) (lit "://")))
               (residuals true (lit "http") s)
             ++ residuals true (lit "data:") s ++ residuals true (lit "file://") s)).
  change (hasUrlScheme s)
    with (startsWithIgnoringCase ("http" +:+ "://") s
          || (startsWithIgnoringCase ("http" +:+ ("s" +:+ "://")) s
              || (startsWithIgnoringCase "data:" s
                  || (startsWithIgnoringCase "file://" s || false)))).
  rewrite !nonEmpty_app, !residuals_lit, !nonEmpty_if, orb_false_r.
  rewrite (startsWithIgnoringCase_app "http" "://").
  rewrite (startsWithIgnoringCase_app "http" ("s" +:+ "://")).
  destruct (startsWithIgnoringCase "http" s).
  - change (flat_map ?f [?x]) with (f x ++ []).
    rewrite app_nil_r, optional_s.
    destruct (startsWithIgnoringCase ("s" +:+ "://") (skipUnits (String.length "http") s)),
      (startsWithIgnoringCase "://" (skipUnits (String.length "http") s));
      reflexivity.
  - reflexivity.
Qed.

Lemma trimEnd_cons (a : ascii) (s : string) :
  isWhiteSpace a = false -> trimEnd (String a s) = String a (trimEnd s).
Proof. intros H. simpl. rewrite H. now destruct (trimEnd s). Qed.

Lemma startsWithIgnoringCase_append (p rest : string) :
  startsWithIgnoringCase p (p +:+ rest) = true.
Proof.
  induction p as [|c p IH]; simpl; [reflexivity |]. rewrite IH, andb_true_r.
  unfold unitMatches. apply Ascii.eqb_refl.
Qed.

Lemma trimEnd_append (p rest : string) :
  noWhiteSpace p = true -> trimEnd (p +:+ rest) = p +:+ trimEnd rest.
Proof.
  induction p as [|a p IH]; intros H; [reflexivity |].
  cbn [noWhiteSpace] in H. apply andb_prop in H as [Ha Hp].
  apply negb_true_iff in Ha.
  change (String a p +:+ rest) with (String a (p +:+ rest)).
  rewrite (trimEnd_cons a _ Ha), (IH Hp). reflexivity.
Qed.

Lemma trim_scheme (p rest : string) :
  In p urlSchemes -> trim (p +:+ rest) = p +:+ trimEnd rest.
Proof.
  intros Hin. unfold trim.
  assert (Hp : noWhiteSpace p = true /\ trimStart (p +:+ rest) = p +:+ rest).
  { unfold urlSchemes in Hin. simpl in Hin.
    destruct Hin as [<- | [<- | [<- | [<- | []]]]]; split; reflexivity. }
  destruct Hp as [Hp ->]. now apply trimEnd_append.
Qed.

Lemma hasUrlScheme_append (p rest : string) :
  In p urlSchemes -> hasUrlScheme (p +:+ rest) = true.
Proof.
  intros Hin. unfold hasUrlScheme. apply existsb_exists. exists p.
  split; [exact Hin | apply startsWithIgnoringCase_append].
Qed.

(** C9, as the code has it.  The input is trimmed first.  When the trimmed
    input starts with http://, https://, data: or file://, in any letter
    case, the result is the trimmed input: the input itself when it had no
    surrounding white space, the input without them otherwise.  Any other
    input that is not blank is wrapped as data:<mime>;base64,<trimmed input>,
    where <mime> is the trimmed MIME type or image/jpeg when that is blank.
    A blank input gives the empty string.  "Zm9v" with image/png gives
    "data:image/png;base64,Zm9v". *)
Theorem toArtworkDataUri_normalizes :
  (forall p rest mimeType,
      In p urlSchemes -> toArtworkDataUri (p +:+ rest) mimeType = p +:+ trimEnd rest)
  /\ (forall data mimeType,
        trim data = data -> hasUrlScheme data = true -> toArtworkDataUri data mimeType = data)
  /\ (forall data mimeType,
        trim data <> "" ->
        hasUrlScheme (trim data) = false ->
        toArtworkDataUri data mimeType
        = "data:" +:+ orStr (trim mimeType) "image/jpeg" +:+ ";base64," +:+ trim data)
  /\ (forall data mimeType, trim data = "" -> toArtworkDataUri data mimeType = "")
  /\ toArtworkDataUri "Zm9v" "image/png" = "data:image/png;base64,Zm9v"
  /\ toArtworkDataUri "Zm9v" " " = "data:image/jpeg;base64,Zm9v"
  /\ (forall data mimeType,
        hasUrlScheme (trim data) = true -> toArtworkDataUri data mimeType = trim data)
  /\ (forall p rest, In p urlSchemes -> hasUrlScheme (p +:+ rest) = true)
  /\ hasUrlScheme "HTTPS://EXAMPLE.COM/A.PNG" = true
  /\ toArtworkDataUri " https://example.com/a.png" "image/png" = "https://example.com/a.png"
  /\ toArtworkDataUri "HTTPS://EXAMPLE.COM/A.PNG " "image/png" = "HTTPS://EXAMPLE.COM/A.PNG"
  /\ toArtworkDataUri "https://example.com/a.png" "image/png" = "https://example.com/a.png".
Proof.
  assert (Hscheme : forall data mimeType,
             hasUrlScheme (trim data) = true -> toArtworkDataUri data mimeType = trim data).
  { intros data mimeType Hs. unfold toArtworkDataUri. cbv zeta.
    rewrite artworkUrlPattern_test, Hs.
    destruct (trim data); [discriminate | reflexivity]. }
  split.
  { intros p rest mimeType Hin. unfold toArtworkDataUri. cbv zeta.
    rewrite (trim_scheme p rest Hin), artworkUrlPattern_test, hasUrlScheme_append by exact Hin.
    assert (Ht : truthyStr (p +:+ trimEnd rest) = true).
    { unfold urlSchemes in Hin. simpl in Hin.
      destruct Hin as [<- | [<- | [<- | [<- | []]]]]; reflexivity. }
    now rewrite Ht. }
  split.
  { intros data mimeType Htrim Hs. rewrite <- Htrim at 2. apply Hscheme. now rewrite Htrim. }
  split.
  { intros data mimeType Hne Hs. unfold toArtworkDataUri. cbv zeta.
    rewrite artworkUrlPattern_test, Hs. apply truthyStr_true in Hne. now rewrite Hne. }
  split.
  { intros data mimeType He. unfold toArtworkDataUri. cbv zeta. now rewrite He. }
  split; [reflexivity |]. split; [reflexivity |]. split; [exact Hscheme |].
  split; [intros p rest Hin; now apply hasUrlScheme_append |].
  split; [reflexivity |]. split; [reflexivity |]. split; reflexivity.
Qed.

(** C9, at base64 data followed by a space. *)
Lemma toArtworkDataUri_normalizes_witness :
  (trim "Zm9v " <> "" /\ hasUrlScheme (trim "Zm9v ") = false)
  /\ toArtworkDataUri "Zm9v " "image/png"
     = "data:" +:+ orStr (trim "image/png") "image/jpeg" +:+ ";base64," +:+ trim "Zm9v ".
Proof.
  assert (H1 : trim "Zm9v " <> "") by discriminate.
  assert (H2 : hasUrlScheme (trim "Zm9v ") = false) by reflexivity.
  split; [split; assumption |].
  exact (proj1 (proj2 (proj2 toArtworkDataUri_normalizes)) "Zm9v " "image/png" H1 H2).
Defined.

(** C9, counterexample.  Base64 data followed by a space is not wrapped as
    it is: the data URI holds the trimmed data.  A URL followed by a space is
    not returned unchanged: it loses the space. *)
Lemma toArtworkDataUri_trims_its_input :
  toArtworkDataUri "Zm9v " "image/png" = "data:image/png;base64,Zm9v"
  /\ toArtworkDataUri "Zm9v " "image/png" <> "data:image/png;base64," +:+ "Zm9v "
  /\ toArtworkDataUri "https://example.com/a.png " "" <> "https://example.com/a.png ".
Proof. split; [reflexivity | split; discriminate]. Qed.

End Artwork.

(** ** The display reconciler *)

Import Menubar.

Section Reconciler.
Variable rt : MediaControl.Runtime.

Lemma strictEq_eq (a b : value) : strictEq a b = true -> a = b.
Proof.
  destruct a, b; simpl; try discriminate; try reflexivity.
  - intros H. apply Bool.eqb_prop in H. now subst.
  - intros H. apply Z.eqb_eq in H. now subst.
  - intros H. apply String.eqb_eq in H. now subst.
Qed.

Lemma strictEq_StatusOk (v : value) : strictEq v StatusOk = true <-> v = StatusOk.
Proof.
  split; [apply strictEq_eq | intros ->; reflexivity].
Qed.

Lemma sameError_eq (a b : option string) : sameError a b = true -> a = b.
Proof.
  destruct a, b; simpl; try discriminate; try reflexivity.
  intros H. apply String.eqb_eq in H. now subst.
Qed.

Lemma sameFields_eq (prev next : NowPlayingState) : sameFields prev next = true -> prev = next.
Proof.
  unfold sameFields. intros H.
  repeat (apply andb_prop in H as [H ?]).
  destruct prev, next; simpl in *.
  repeat match goal with
         | E : String.eqb _ _ = true |- _ => apply String.eqb_eq in E
         | E : strictEq _ _ = true |- _ => apply strictEq_eq in E
         | E : sameError _ _ = true |- _ => apply sameError_eq in E
         end.
  congruence.
Qed.

Lemma setStateIfChanged_next (next prev : NowPlayingState) :
  setStateIfChanged next prev = next.
Proof.
  unfold setStateIfChanged. destruct (sameFields prev next) eqn:E; [| reflexivity].
  now apply sameFields_eq.
Qed.

Lemma displaysTrack_test (prev : NowPlayingState) :
  strictEq (status prev) StatusOk && truthyStr (track prev) = true <-> displaysTrack prev.
Proof.
  unfold displaysTrack. rewrite andb_true_iff, strictEq_StatusOk, truthyStr_true. tauto.
Qed.

Lemma displaysTrack_test_false (prev : NowPlayingState) :
  strictEq (status prev) StatusOk && truthyStr (track prev) = false <-> ~ displaysTrack prev.
Proof.
  rewrite <- displaysTrack_test.
  destruct (strictEq (status prev) StatusOk && truthyStr (track prev)); split; congruence.
Qed.

Lemma setStatePreservingLastNowPlaying_held (next prev : NowPlayingState) :
  displaysTrack prev -> setStatePreservingLastNowPlaying next prev = prev.
Proof.
  intros H. apply displaysTrack_test in H. unfold setStatePreservingLastNowPlaying.
  now rewrite H.
Qed.

Lemma setStatePreservingLastNowPlaying_free (next prev : NowPlayingState) :
  ~ displaysTrack prev -> setStatePreservingLastNowPlaying next prev = next.
Proof.
  intros H. apply displaysTrack_test_false in H. unfold setStatePreservingLastNowPlaying.
  rewrite H. apply setStateIfChanged_next.
Qed.

Lemma resolvedArtwork_model (prev : NowPlayingState) (album artworkUrl : string) :
  orStr (orStr artworkUrl
           (if truthyStr (Menubar.album prev) && truthyStr album
               && String.eqb (Menubar.album prev) album
            then Menubar.artworkUrl prev else ""))
    ""
  = resolvedArtwork prev album artworkUrl.
Proof.
  unfold resolvedArtwork, orStr.
  destruct (truthyStr artworkUrl) eqn:Eu; [now rewrite Eu |].
  destruct (String.eqb (Menubar.album prev) album) eqn:Ea.
  - apply String.eqb_eq in Ea. rewrite Ea.
    destruct (truthyStr album); simpl; [| reflexivity].
    now destruct (truthyStr (Menubar.artworkUrl prev)) eqn:E; [| apply truthyStr_false in E].
  - rewrite !andb_false_r. reflexivity.
Qed.

Lemma setNowPlayingState_spec (track artist album artworkUrl : string)
    (prev : NowPlayingState) (menubarCache : Cache) :
  setNowPlayingState rt track artist album artworkUrl prev menubarCache
  = if negb (truthyStr (resolvedArtwork prev album artworkUrl))
       && (strictEq (status prev) StatusOk && truthyStr (Menubar.track prev))
    then (prev, menubarCache)
    else
      let next := committed track artist album (resolvedArtwork prev album artworkUrl) in
      (next, writeCachedState rt next menubarCache).
Proof.
  unfold setNowPlayingState. cbv zeta. rewrite resolvedArtwork_model, <- andb_assoc.
  destruct (negb (truthyStr (resolvedArtwork prev album artworkUrl))
            && (strictEq (status prev) StatusOk && truthyStr (Menubar.track prev)));
    [reflexivity |].
  fold (committed track artist album (resolvedArtwork prev album artworkUrl)).
  destruct (sameFields prev _) eqn:E; [| reflexivity].
  f_equal. now apply sameFields_eq.
Qed.

(** The lookup gave a track: the reconciler runs [setNowPlayingState]. *)
Lemma applyLookup_track (info : MediaControl.MediaControlDebugInfo)
    (prev : NowPlayingState) (menubarCache : Cache) :
  MediaControl.isNotInstalled info = false ->
  readStringField (MediaControl.payload info) "title" <> "" ->
  applyLookup rt info prev menubarCache
  = setNowPlayingState rt
      (readStringField (MediaControl.payload info) "title")
      (readStringField (MediaControl.payload info) "artist")
      (readStringField (MediaControl.payload info) "album")
      (readArtworkUrl (MediaControl.payload info)) prev menubarCache.
Proof.
  intros Hi Ht. apply truthyStr_true in Ht. unfold applyLookup. cbv zeta.
  now rewrite Hi, Ht.
Qed.

(** The lookup gave no track and did not say "not installed": the
    reconciler runs [setStatePreservingLastNowPlaying]. *)
Lemma applyLookup_no_track (info : MediaControl.MediaControlDebugInfo)
    (prev : NowPlayingState) (menubarCache : Cache) :
  MediaControl.isNotInstalled info = false ->
  readStringField (MediaControl.payload info) "title" = "" ->
  exists st err,
    (st = StatusNoTrack \/ st = StatusError)
    /\ applyLookup rt info prev menubarCache
       = (setStatePreservingLastNowPlaying (blankState st err) prev, menubarCache).
Proof.
  intros Hi Ht. unfold applyLookup. cbv zeta. rewrite Hi, Ht. cbn [truthyStr].
  destruct (MediaControl.truthyQuery (MediaControl.query info)
            || truthy (MediaControl.payload info));
    do 2 eexists; (split; [| reflexivity]); [left | right]; reflexivity.
Qed.

End Reconciler.

Section ReconcilerSteps.
Variable rt : MediaControl.Runtime.

Lemma resolvedArtwork_empty (prev : NowPlayingState) (album artworkUrl : string) :
  resolvedArtwork prev album artworkUrl = "" <->
  artworkUrl = ""
  /\ (album = "" \/ Menubar.album prev <> album \/ Menubar.artworkUrl prev = "").
Proof.
  unfold resolvedArtwork.
  destruct (truthyStr artworkUrl) eqn:Eu.
  - apply truthyStr_true in Eu. tauto.
  - apply truthyStr_false in Eu.
    destruct (truthyStr album) eqn:Ea; simpl.
    + apply truthyStr_true in Ea.
      destruct (String.eqb (Menubar.album prev) album) eqn:Ee.
      * apply String.eqb_eq in Ee. tauto.
      * apply String.eqb_neq in Ee. tauto.
    + apply truthyStr_false in Ea. tauto.
Qed.

Lemma resolvedArtwork_carried (prev : NowPlayingState) (album : string) :
  Menubar.album prev = album -> album <> "" ->
  resolvedArtwork prev album "" = Menubar.artworkUrl prev.
Proof.
  intros Ha Hne. unfold resolvedArtwork. cbn [truthyStr].
  apply truthyStr_true in Hne. apply String.eqb_eq in Ha. now rewrite Hne, Ha.
Qed.

(** Every call of [setNowPlayingState].  The resolved artwork is empty
    exactly when the new payload has no artwork and none can be carried over
    (the album is blank, differs from the one on display, or the display has
    no artwork).  With no resolved artwork and a track on display (status
    [ok]), the state and the cache stay as they are.  When an artwork
    resolves or nothing is on display, the new state is committed with
    status [ok] and handed to [writeCachedState]; the displayed state changes
    in no other case. *)
Lemma setNowPlayingState_defers_until_artwork (track artist album artworkUrl : string)
    (prev : NowPlayingState) (menubarCache : Cache) :
  let resolved := resolvedArtwork prev album artworkUrl in
  let next := committed track artist album resolved in
  (resolved = "" <->
   artworkUrl = ""
   /\ (album = "" \/ Menubar.album prev <> album \/ Menubar.artworkUrl prev = ""))
  /\ (resolved = "" -> displaysTrack prev ->
      setNowPlayingState rt track artist album artworkUrl prev menubarCache
      = (prev, menubarCache))
  /\ (resolved <> "" \/ ~ displaysTrack prev ->
      setNowPlayingState rt track artist album artworkUrl prev menubarCache
      = (next, writeCachedState rt next menubarCache))
  /\ (fst (setNowPlayingState rt track artist album artworkUrl prev menubarCache) <> prev ->
      resolved <> "" \/ ~ displaysTrack prev)
  /\ (forall info,
        MediaControl.isNotInstalled info = false ->
        readStringField (MediaControl.payload info) "title" <> "" ->
        applyLookup rt info prev menubarCache
        = setNowPlayingState rt
            (readStringField (MediaControl.payload info) "title")
            (readStringField (MediaControl.payload info) "artist")
            (readStringField (MediaControl.payload info) "album")
            (readArtworkUrl (MediaControl.payload info)) prev menubarCache).
Proof.
  cbv zeta. rewrite setNowPlayingState_spec. cbv zeta.
  split; [apply resolvedArtwork_empty |].
  set (resolved := resolvedArtwork prev album artworkUrl).
  split; [| split; [| split]].
  - intros Hr Hd. apply displaysTrack_test in Hd. now rewrite Hr, Hd.
  - intros [Hr | Hd].
    + apply truthyStr_true in Hr. now rewrite Hr.
    + apply displaysTrack_test_false in Hd. now rewrite Hd, andb_false_r.
  - destruct (truthyStr resolved) eqn:Er.
    + intros _. left. now apply truthyStr_true.
    + destruct (strictEq (status prev) StatusOk && truthyStr (Menubar.track prev)) eqn:Ed.
      * simpl. intros H. now destruct H.
      * intros _. right. now apply displaysTrack_test_false.
  - intros info Hi Ht. now apply applyLookup_track.
Qed.

(** A call of [setNowPlayingState] for a new track of the album on display,
    without artwork of its own while the display has one: the next state is
    the new track and artist with the album and the artwork of the display
    carried over. *)
Lemma setNowPlayingState_same_album_carries_artwork (track artist album : string)
    (prev : NowPlayingState) (menubarCache : Cache) :
  Menubar.album prev = album ->
  album <> "" ->
  Menubar.artworkUrl prev <> "" ->
  setNowPlayingState rt track artist album "" prev menubarCache
  = (committed track artist album (Menubar.artworkUrl prev),
     writeCachedState rt (committed track artist album (Menubar.artworkUrl prev))
       menubarCache).
Proof.
  intros Ha Hne Hart. rewrite setNowPlayingState_spec.
  rewrite (resolvedArtwork_carried prev _ Ha Hne).
  apply truthyStr_true in Hart. now rewrite Hart.
Qed.

Lemma menubarLookup_returns (ls : MediaControl.LocalStorage) :
  exists info ls', menubarLookup rt ls = (MediaControl.Returned info, ls').
Proof.
  unfold menubarLookup.
  destruct (MediaControl.asPayloadRecord
              (MediaControl.payload (MediaControl.inspectNowPlaying rt))) as [p |] eqn:Hp.
  - destruct (MediaControl.queryForLookupKind p MediaControl.track) as [q |] eqn:Hq.
    + rewrite (lookup_live_eligible rt _ _ ls p Hp) by congruence. eauto.
    + rewrite (lookup_live_ineligible rt _ _ ls p Hp Hq). eauto.
  - rewrite (lookup_no_live_payload rt _ _ ls Hp). eauto.
Qed.

Lemma applyLookup_cases (info : MediaControl.MediaControlDebugInfo)
    (prev : NowPlayingState) (menubarCache : Cache) :
  applyLookup rt info prev menubarCache = (prev, menubarCache)
  \/ (exists st err,
        st <> StatusOk
        /\ (displaysTrack prev -> st = StatusMissingMediaControl)
        /\ applyLookup rt info prev menubarCache = (blankState st err, menubarCache))
  \/ (exists t a al u,
        t <> ""
        /\ applyLookup rt info prev menubarCache
           = (committed t a al u,
              <[LAST_STATE_CACHE_KEY :=
                  MediaControl.JSON_stringify rt (stateObject (committed t a al u))]>
                menubarCache)).
Proof.
  destruct (MediaControl.isNotInstalled info) eqn:Hi.
  - right. left. exists StatusMissingMediaControl. eexists.
    split; [discriminate |]. split; [reflexivity |].
    unfold applyLookup. cbv zeta. rewrite Hi, setStateIfChanged_next. reflexivity.
  - destruct (truthyStr (readStringField (MediaControl.payload info) "title")) eqn:Ht.
    + apply truthyStr_true in Ht.
      rewrite (applyLookup_track rt info prev menubarCache Hi Ht), setNowPlayingState_spec.
      destruct (negb _ && _); [now left |].
      right. right. do 4 eexists. split; [exact Ht |]. cbv zeta. unfold writeCachedState.
      cbn [status track committed]. apply truthyStr_true in Ht. rewrite Ht. reflexivity.
    + apply truthyStr_false in Ht.
      destruct (applyLookup_no_track rt info prev menubarCache Hi Ht)
        as (st & err & Hs & E).
      rewrite E.
      destruct (strictEq (status prev) StatusOk && truthyStr (Menubar.track prev)) eqn:Hd.
      * left. apply displaysTrack_test in Hd.
        now rewrite setStatePreservingLastNowPlaying_held.
      * right. left. apply displaysTrack_test_false in Hd.
        rewrite (setStatePreservingLastNowPlaying_free _ _ Hd).
        exists st, err. split; [destruct Hs as [-> | ->]; discriminate |].
        split; [intros Hd'; contradiction | reflexivity].
Qed.

(** What a refresh does: nothing while one is in flight or off the supported
    platform; otherwise the lookup returns and its result is applied. *)
Lemma refreshNowPlaying_cases (c : Command) (menubarCache : Cache)
    (ls : MediaControl.LocalStorage) :
  refreshNowPlaying rt c menubarCache ls = (c, menubarCache, ls)
  \/ exists info ls',
       menubarLookup rt ls = (MediaControl.Returned info, ls')
       /\ refreshNowPlaying rt c menubarCache ls
          = ({| state := fst (applyLookup rt info (state c) menubarCache);
                hasInitialized := true;
                inFlight := false |},
             snd (applyLookup rt info (state c) menubarCache), ls').
Proof.
  unfold refreshNowPlaying.
  destruct (inFlight c || negb (String.eqb (MediaControl.platform rt) "darwin"));
    [now left | right].
  destruct (menubarLookup_returns ls) as (info & ls' & E). exists info, ls'.
  split; [exact E |]. unfold menubarLookup in E. rewrite E.
  now destruct (applyLookup rt info (state c) menubarCache).
Qed.

Lemma refreshNowPlaying_step (c : Command) (menubarCache : Cache)
    (ls : MediaControl.LocalStorage) :
  stepOutcome rt (c, menubarCache) (fst (refreshNowPlaying rt c menubarCache ls)).
Proof.
  destruct (refreshNowPlaying_cases c menubarCache ls) as [E | (info & ls' & _ & E)];
    rewrite E; cbn [fst].
  - left. split; reflexivity.
  - destruct (applyLookup_cases info (state c) menubarCache)
      as [E' | [(st & err & Hst & Hd & E') | (t & a & al & u & Ht & E')]];
      rewrite E'; cbn [fst snd].
    + left. split; reflexivity.
    + right. left. exists st, err. cbn [fst snd state]. repeat split; try assumption.
      intros H. left. now apply Hd.
    + right. right. exists t, a, al, u. cbn [fst snd state]. repeat split; assumption.
Qed.

Lemma onMount_step (c : Command) (menubarCache : Cache)
    (ls : MediaControl.LocalStorage) :
  stepOutcome rt (c, menubarCache) (fst (onMount rt c menubarCache ls)).
Proof.
  unfold onMount.
  destruct (negb (String.eqb (MediaControl.platform rt) "darwin"));
    [| apply refreshNowPlaying_step].
  right. left. exists StatusUnsupportedPlatform, None. cbn [fst snd state].
  rewrite setStateIfChanged_next. repeat split; try discriminate. intros _. now right.
Qed.

(** A lookup without a query (no eligible live payload and no cache hit)
    carries no payload either. *)
Lemma menubarLookup_no_query (ls ls' : MediaControl.LocalStorage)
    (info : MediaControl.MediaControlDebugInfo) :
  menubarLookup rt ls = (MediaControl.Returned info, ls') ->
  MediaControl.query info = None ->
  MediaControl.payload info = Null.
Proof.
  unfold menubarLookup.
  assert (Hcache : MediaControl.query (answerFromCache rt MediaControl.track ls) = None ->
                   MediaControl.payload (answerFromCache rt MediaControl.track ls) = Null).
  { unfold answerFromCache. cbv zeta.
    destruct (fst (MediaControl.readEligibleMedia rt MediaControl.track ls))
      as [[cached |] | e]; try reflexivity.
    destruct (MediaControl.truthyQuery
                (MediaControl.queryForLookupKind cached MediaControl.track)) eqn:Eq;
      [| reflexivity].
    apply queryForLookupKind_truthy in Eq. intros H. now destruct Eq. }
  destruct (MediaControl.asPayloadRecord
              (MediaControl.payload (MediaControl.inspectNowPlaying rt))) as [p |] eqn:Hp.
  - destruct (MediaControl.queryForLookupKind p MediaControl.track) as [q |] eqn:Hq.
    + rewrite (lookup_live_eligible rt _ _ ls p Hp) by congruence.
      intros [= <- _]. cbn. congruence.
    + rewrite (lookup_live_ineligible rt _ _ ls p Hp Hq). cbn [MediaControl.optedIn].
      intros [= <- _]. exact Hcache.
  - rewrite (lookup_no_live_payload rt _ _ ls Hp). intros [= <- _]. exact Hcache.
Qed.

(** C2.  While a track is on display (status [ok], non-empty track), a
    refresh never leaves the status [no-track] or [error].  When the lookup
    gave no track and did not say "not installed" (no eligible payload and
    no cache hit, so no query; or a failed probe), the displayed state and
    the cache are what they were; the handler of a thrown lookup keeps the
    state as well, as does every call of
    [setStatePreservingLastNowPlaying]. *)
Theorem refreshNowPlaying_keeps_displayed_track (c : Command) (menubarCache : Cache)
    (ls : MediaControl.LocalStorage) :
  displaysTrack (state c) ->
  let after := fst (refreshNowPlaying rt c menubarCache ls) in
  let shown := state (fst after) in
  status shown <> StatusNoTrack
  /\ status shown <> StatusError
  /\ (forall info ls',
        menubarLookup rt ls = (MediaControl.Returned info, ls') ->
        MediaControl.isNotInstalled info = false ->
        readStringField (MediaControl.payload info) "title" = "" ->
        shown = state c /\ snd after = menubarCache)
  /\ (forall info ls',
        menubarLookup rt ls = (MediaControl.Returned info, ls') ->
        MediaControl.isNotInstalled info = false ->
        MediaControl.query info = None ->
        shown = state c /\ snd after = menubarCache)
  /\ (forall info,
        MediaControl.isNotInstalled info = false ->
        readStringField (MediaControl.payload info) "title" = "" ->
        applyLookup rt info (state c) menubarCache = (state c, menubarCache))
  /\ (forall error, applyFailure error (state c) = state c)
  /\ (forall next, setStatePreservingLastNowPlaying next (state c) = state c).
Proof.
  intros Hd. cbv zeta.
  assert (Hkeep : forall info,
             MediaControl.isNotInstalled info = false ->
             readStringField (MediaControl.payload info) "title" = "" ->
             applyLookup rt info (state c) menubarCache = (state c, menubarCache)).
  { intros info Hi Ht.
    destruct (applyLookup_no_track rt info (state c) menubarCache Hi Ht)
      as (st & err & _ & E).
    now rewrite E, setStatePreservingLastNowPlaying_held. }
  assert (Hstatus :
            status (state (fst (fst (refreshNowPlaying rt c menubarCache ls))))
            <> StatusNoTrack
            /\ status (state (fst (fst (refreshNowPlaying rt c menubarCache ls))))
               <> StatusError).
  { destruct (refreshNowPlaying_step c menubarCache ls)
      as [[E _] | [(st & err & _ & Hst & E & _) | (t & a & al & u & _ & E & _)]];
      cbn [fst] in *; rewrite E.
    - destruct Hd as [-> _]. split; discriminate.
    - destruct (Hst Hd) as [-> | ->]; split; discriminate.
    - split; discriminate. }
  destruct Hstatus as [H1 H2].
  assert (Hlookup : forall info ls',
             menubarLookup rt ls = (MediaControl.Returned info, ls') ->
             MediaControl.isNotInstalled info = false ->
             readStringField (MediaControl.payload info) "title" = "" ->
             state (fst (fst (refreshNowPlaying rt c menubarCache ls))) = state c
             /\ snd (fst (refreshNowPlaying rt c menubarCache ls)) = menubarCache).
  { intros info ls' El Hi Ht.
    destruct (refreshNowPlaying_cases c menubarCache ls) as [E | (info' & ls'' & El' & E)];
      rewrite E; cbn [fst snd state]; [split; reflexivity |].
    rewrite El in El'. injection El' as <- <-.
    now rewrite (Hkeep info Hi Ht). }
  split; [exact H1 |]. split; [exact H2 |]. split; [exact Hlookup |].
  split; [| split; [exact Hkeep |]].
  - intros info ls' El Hi Hq. apply (Hlookup info ls' El Hi).
    now rewrite (menubarLookup_no_query ls ls' info El Hq).
  - split.
    + intros error. unfold applyFailure. now apply setStatePreservingLastNowPlaying_held.
    + intros next. now apply setStatePreservingLastNowPlaying_held.
Qed.

End ReconcilerSteps.

Section ReconcilerLookups.
Variable rt : MediaControl.Runtime.

(** A query for kind [track] needs a title and an album. *)
Lemma queryForLookupKind_track_fields (p : value) :
  MediaControl.queryForLookupKind p MediaControl.track <> None ->
  readStringField p "title" <> "" /\ readStringField p "album" <> "".
Proof.
  unfold MediaControl.queryForLookupKind. cbv zeta.
  change (MediaControl.readStringField p "album") with (readStringField p "album").
  destruct (truthyStr (readStringField p "album")) eqn:Ea; cbn [negb]; [| congruence].
  rewrite formatNowPlayingSearchQuery_spec. cbv zeta.
  change (MediaControl.readStringField p "title") with (readStringField p "title").
  destruct (truthyStr (readStringField p "title")) eqn:Et; [| congruence].
  intros _. split; now apply truthyStr_true.
Qed.

(** An eligible answer of the lookup of the menubar carries a payload with a
    title and an album. *)
Lemma menubarLookup_eligible (ls : MediaControl.LocalStorage)
    (info : MediaControl.MediaControlDebugInfo) :
  fst (menubarLookup rt ls) = MediaControl.Returned info ->
  MediaControl.query info <> None ->
  readStringField (MediaControl.payload info) "title" <> ""
  /\ readStringField (MediaControl.payload info) "album" <> "".
Proof.
  unfold menubarLookup.
  assert (Hcache : MediaControl.query (answerFromCache rt MediaControl.track ls) <> None ->
                   readStringField
                     (MediaControl.payload (answerFromCache rt MediaControl.track ls))
                     "title" <> ""
                   /\ readStringField
                        (MediaControl.payload (answerFromCache rt MediaControl.track ls))
                        "album" <> "").
  { unfold answerFromCache. cbv zeta.
    destruct (fst (MediaControl.readEligibleMedia rt MediaControl.track ls))
      as [[cached |] | e]; try (intros H; now destruct H).
    destruct (MediaControl.truthyQuery
                (MediaControl.queryForLookupKind cached MediaControl.track)) eqn:Eq;
      [| intros H; now destruct H].
    intros _. apply queryForLookupKind_track_fields. now apply queryForLookupKind_truthy. }
  destruct (MediaControl.asPayloadRecord
              (MediaControl.payload (MediaControl.inspectNowPlaying rt))) as [p |] eqn:Hp.
  - destruct (MediaControl.queryForLookupKind p MediaControl.track) as [q |] eqn:Hq.
    + rewrite (lookup_live_eligible rt _ _ ls p Hp) by congruence.
      cbn [fst]. intros [= <-] _. cbn [MediaControl.withPayloadAndQuery MediaControl.payload].
      apply queryForLookupKind_track_fields. congruence.
    + rewrite (lookup_live_ineligible rt _ _ ls p Hp Hq). cbn [MediaControl.optedIn fst].
      intros [= <-]. exact Hcache.
  - rewrite (lookup_no_live_payload rt _ _ ls Hp). cbn [fst]. intros [= <-]. exact Hcache.
Qed.

(** A refresh that runs applies the answer of its lookup. *)
Lemma refreshNowPlaying_applies (c : Command) (menubarCache : Cache)
    (ls : MediaControl.LocalStorage) (info : MediaControl.MediaControlDebugInfo) :
  inFlight c = false ->
  MediaControl.platform rt = "darwin" ->
  fst (menubarLookup rt ls) = MediaControl.Returned info ->
  fst (refreshNowPlaying rt c menubarCache ls)
  = ({| state := fst (applyLookup rt info (state c) menubarCache);
        hasInitialized := true;
        inFlight := false |},
     snd (applyLookup rt info (state c) menubarCache)).
Proof.
  intros Hf Hp E. unfold refreshNowPlaying. rewrite Hf, Hp.
  change (("darwin" =? "darwin")%string) with true. cbn [negb orb].
  unfold menubarLookup in E.
  destruct (MediaControl.inspectNowPlayingForLookup rt MediaControl.track _ ls)
    as [outcome ls']. cbn [fst] in E. subst outcome.
  now destruct (applyLookup rt info (state c) menubarCache).
Qed.

(** C6, as the code has it.  For every refresh whose lookup is eligible (it
    has a query, so its payload has a title and an album).  The resolved
    artwork is empty exactly when the payload has no artwork and none can be
    carried over (the album differs from the one on display, or the display
    has no artwork).  When the lookup is not classified "not installed": with
    no resolved artwork and a track on display (status [ok]) the state and
    the cache stay as they are; when an artwork resolves or nothing is on
    display the new state is committed with status [ok] and handed to
    [writeCachedState].  When the lookup is classified "not installed" the
    display is replaced by the install hint, also when the lookup carries an
    eligible cached payload.  The displayed state changes in no other case. *)
Theorem refreshNowPlaying_defers_until_artwork (c : Command) (menubarCache : Cache)
    (ls : MediaControl.LocalStorage) (info : MediaControl.MediaControlDebugInfo) :
  inFlight c = false ->
  MediaControl.platform rt = "darwin" ->
  fst (menubarLookup rt ls) = MediaControl.Returned info ->
  MediaControl.query info <> None ->
  let title := readStringField (MediaControl.payload info) "title" in
  let artistName := readStringField (MediaControl.payload info) "artist" in
  let albumName := readStringField (MediaControl.payload info) "album" in
  let resolved :=
    resolvedArtwork (state c) albumName (readArtworkUrl (MediaControl.payload info)) in
  let next := committed title artistName albumName resolved in
  let after := fst (refreshNowPlaying rt c menubarCache ls) in
  (title <> "" /\ albumName <> "")
  /\ (resolved = "" <->
      readArtworkUrl (MediaControl.payload info) = ""
      /\ (Menubar.album (state c) <> albumName \/ Menubar.artworkUrl (state c) = ""))
  /\ (MediaControl.isNotInstalled info = false ->
      resolved = "" -> displaysTrack (state c) ->
      state (fst after) = state c /\ snd after = menubarCache)
  /\ (MediaControl.isNotInstalled info = false ->
      resolved <> "" \/ ~ displaysTrack (state c) ->
      state (fst after) = next /\ snd after = writeCachedState rt next menubarCache)
  /\ (MediaControl.isNotInstalled info = true ->
      state (fst after)
      = blankState StatusMissingMediaControl (errorOrUndefined (MediaControl.error info))
      /\ snd after = menubarCache)
  /\ (state (fst after) <> state c ->
      MediaControl.isNotInstalled info = true
      \/ resolved <> "" \/ ~ displaysTrack (state c)).
Proof.
  intros Hf Hp E Hq. cbv zeta.
  destruct (menubarLookup_eligible ls info E Hq) as [Ht Ha].
  rewrite (refreshNowPlaying_applies c menubarCache ls info Hf Hp E). cbn [fst snd state].
  pose proof (setNowPlayingState_defers_until_artwork rt
                (readStringField (MediaControl.payload info) "title")
                (readStringField (MediaControl.payload info) "artist")
                (readStringField (MediaControl.payload info) "album")
                (readArtworkUrl (MediaControl.payload info)) (state c) menubarCache) as H.
  cbv zeta in H. destruct H as (Hres & Hdefer & Hcommit & Hchange & _).
  split; [now split |]. split.
  { rewrite Hres. split.
    - intros [Hu [Hal | Hrest]]; [now destruct Ha | now split].
    - intros [Hu Hrest]. split; [exact Hu | now right]. }
  split.
  { intros Hi Hr Hd. rewrite (applyLookup_track rt info (state c) menubarCache Hi Ht).
    now rewrite (Hdefer Hr Hd). }
  split.
  { intros Hi Hr. rewrite (applyLookup_track rt info (state c) menubarCache Hi Ht).
    now rewrite (Hcommit Hr). }
  split.
  { intros Hi. unfold applyLookup. cbv zeta. rewrite Hi. cbn [fst snd].
    now rewrite setStateIfChanged_next. }
  intros Hne. destruct (MediaControl.isNotInstalled info) eqn:Hi; [now left | right].
  rewrite (applyLookup_track rt info (state c) menubarCache Hi Ht) in Hne.
  exact (Hchange Hne).
Qed.

(** C1, as the code has it.  The next eligible lookup, not classified "not
    installed", yields a new track of the album on display, without artwork
    of its own, while the display has one: after the refresh the menubar
    shows the new track and artist with the album and the artwork of the
    display carried over, with status [ok], and that state is handed to
    [writeCachedState].  The update is committed, not deferred, and the new
    title is not shown without artwork. *)
Theorem refreshNowPlaying_same_album_carries_artwork (c : Command) (menubarCache : Cache)
    (ls : MediaControl.LocalStorage) (info : MediaControl.MediaControlDebugInfo) :
  inFlight c = false ->
  MediaControl.platform rt = "darwin" ->
  fst (menubarLookup rt ls) = MediaControl.Returned info ->
  MediaControl.query info <> None ->
  MediaControl.isNotInstalled info = false ->
  readStringField (MediaControl.payload info) "album" = Menubar.album (state c) ->
  readArtworkUrl (MediaControl.payload info) = "" ->
  Menubar.artworkUrl (state c) <> "" ->
  let next :=
    committed (readStringField (MediaControl.payload info) "title")
      (readStringField (MediaControl.payload info) "artist")
      (Menubar.album (state c)) (Menubar.artworkUrl (state c)) in
  fst (refreshNowPlaying rt c menubarCache ls)
  = ({| state := next; hasInitialized := true; inFlight := false |},
     writeCachedState rt next menubarCache)
  /\ track next <> ""
  /\ next <> committed (readStringField (MediaControl.payload info) "title")
               (readStringField (MediaControl.payload info) "artist")
               (Menubar.album (state c)) "".
Proof.
  intros Hf Hp E Hq Hi Hal Hu Hart. cbv zeta.
  destruct (menubarLookup_eligible ls info E Hq) as [Ht Ha].
  split; [| split; [exact Ht |]].
  - rewrite (refreshNowPlaying_applies c menubarCache ls info Hf Hp E).
    rewrite (applyLookup_track rt info (state c) menubarCache Hi Ht), Hu, Hal.
    rewrite (setNowPlayingState_same_album_carries_artwork rt _ _ (Menubar.album (state c))
               (state c) menubarCache eq_refl); [reflexivity | congruence | exact Hart].
  - intros [= H]. now destruct Hart.
Qed.

End ReconcilerLookups.

Section Invariant.
Variable rt : MediaControl.Runtime.

Lemma writeCachedState_gate (s : NowPlayingState) (menubarCache : Cache) :
  (status s = StatusOk -> track s <> "" ->
   writeCachedState rt s menubarCache
   = <[LAST_STATE_CACHE_KEY := MediaControl.JSON_stringify rt (stateObject s)]> menubarCache)
  /\ (~ (status s = StatusOk /\ track s <> "") ->
      writeCachedState rt s menubarCache = menubarCache).
Proof.
  unfold writeCachedState. rewrite <- negb_andb. split.
  - intros Hs Ht.
    assert (H : strictEq (status s) StatusOk && truthyStr (track s) = true)
      by (apply displaysTrack_test; split; assumption).
    now rewrite H.
  - intros Hn. apply displaysTrack_test_false in Hn. now rewrite Hn.
Qed.

Lemma readCachedState_same_entry (cache cache' : Cache) :
  cache !! LAST_STATE_CACHE_KEY = cache' !! LAST_STATE_CACHE_KEY ->
  readCachedState rt cache = readCachedState rt cache'.
Proof. intros H. unfold readCachedState. now rewrite H. Qed.

(** A state that was mirrored is read back as it was. *)
Lemma readCachedState_written (cache : Cache) (s0 s : NowPlayingState) :
  readsBackStates rt ->
  displaysTrack s0 ->
  cache !! LAST_STATE_CACHE_KEY = Some (MediaControl.JSON_stringify rt (stateObject s0)) ->
  readCachedState rt cache = Some s ->
  track s = track s0.
Proof.
  intros Hcodec Hd Hc. unfold readCachedState. rewrite Hc.
  destruct (negb (truthyStr _)); [discriminate |].
  destruct (MediaControl.JSON_parse rt _) as [v | e] eqn:Ep; [| discriminate].
  apply (Hcodec s0 v Hd) in Ep. subst v.
  destruct (negb (truthy (stateObject s0)) || negb (typeofObject (stateObject s0)));
    [discriminate |].
  cbn [stateObject getProperty ownProperty app String.eqb Ascii.eqb Bool.eqb].
  destruct (negb (truthy (status s0))); [discriminate |].
  intros [= <-]. reflexivity.
Qed.

Lemma readCachedState_mirrored (initial cache : Cache) (s : NowPlayingState) :
  (forall s', readCachedState rt initial = Some s' -> wellFormed s') ->
  readsBackStates rt ->
  mirrorsDisplayedStates rt initial cache ->
  readCachedState rt cache = Some s ->
  wellFormed s.
Proof.
  intros Hinit Hcodec Hm Hs.
  destruct (cache !! LAST_STATE_CACHE_KEY) as [raw |] eqn:Hc.
  - destruct (Hm _ _ Hc) as [Hi | (_ & s0 & -> & Hok & Ht)].
    + apply Hinit. rewrite <- Hs. apply readCachedState_same_entry. congruence.
    + intros _.
      now rewrite (readCachedState_written cache s0 s Hcodec (conj Hok Ht) Hc Hs).
  - unfold readCachedState in Hs. rewrite Hc in Hs. discriminate.
Qed.

Lemma mount_well_formed (cache : Cache) :
  (forall s, readCachedState rt cache = Some s -> wellFormed s) ->
  wellFormed (state (fst (mount rt cache, cache))).
Proof.
  intros H. unfold mount. cbn [fst state].
  destruct (readCachedState rt cache) as [s |] eqn:E; [now apply H |].
  unfold defaultState, wellFormed.
  destruct (String.eqb (MediaControl.platform rt) "darwin"); discriminate.
Qed.

Lemma stepOutcome_well_formed (rt' : MediaControl.Runtime) (before after : Command * Cache) :
  stepOutcome rt' before after ->
  wellFormed (state (fst before)) -> wellFormed (state (fst after)).
Proof.
  intros [[E _] | [(st & err & Hst & _ & E & _) | (t & a & al & u & Ht & E & _)]] Hw;
    rewrite E; [exact Hw | |]; intros Hs; cbn in *; congruence.
Qed.

Lemma stepOutcome_mirrors (rt' : MediaControl.Runtime) (before after : Command * Cache) :
  stepOutcome rt' before after ->
  mirrorsOnlyTracks rt' (snd before) after.
Proof.
  intros [[_ E] | [(st & err & _ & _ & _ & E) | (t & a & al & u & Ht & Es & E)]].
  - now left.
  - now left.
  - right. rewrite Es. repeat split; assumption.
Qed.

Lemma stepOutcome_cache (rt' : MediaControl.Runtime) (initial : Cache)
    (before after : Command * Cache) :
  MediaControl.JSON_stringify rt' = MediaControl.JSON_stringify rt ->
  stepOutcome rt' before after ->
  mirrorsDisplayedStates rt initial (snd before) ->
  mirrorsDisplayedStates rt initial (snd after).
Proof.
  intros Hj [[_ E] | [(st & err & _ & _ & _ & E) | (t & a & al & u & Ht & _ & E)]] Hm;
    rewrite E; try exact Hm.
  intros key raw. rewrite lookup_insert. destruct (decide (LAST_STATE_CACHE_KEY = key)) as [<- | Hne].
  - intros [= <-]. right. split; [reflexivity |].
    exists (committed t a al u). rewrite Hj. repeat split. exact Ht.
  - apply Hm.
Qed.

(** C7.  Provided the state the command finds in the cache at its very first
    render is well formed and [JSON.parse] reads back what [JSON.stringify]
    wrote for a state that shows a track (no other state is ever written),
    every state the command displays, across refreshes and across mounts, is
    well formed: status [ok] implies a non-empty track.  Every
    entry of the menubar cache is the one found at the start or, under the
    key of the last state, the text of a state with status [ok] and a
    non-empty track.  A step writes the cache only to store the state it now
    displays, with status [ok] and a track; [writeCachedState] writes for
    such a state and for no other. *)
Theorem reachable_states_well_formed (initial : Cache) (cfg : Command * Cache) :
  (forall s, readCachedState rt initial = Some s -> wellFormed s) ->
  readsBackStates rt ->
  reachable rt initial cfg ->
  wellFormed (state (fst cfg))
  /\ mirrorsDisplayedStates rt initial (snd cfg)
  /\ (forall exec now ls,
        mirrorsOnlyTracks rt (snd cfg)
          (fst (refreshNowPlaying (later rt exec now) (fst cfg) (snd cfg) ls))
        /\ mirrorsOnlyTracks rt (snd cfg)
             (fst (onMount (later rt exec now) (fst cfg) (snd cfg) ls)))
  /\ (forall s menubarCache,
        (status s = StatusOk -> track s <> "" ->
         writeCachedState rt s menubarCache
         = <[LAST_STATE_CACHE_KEY := MediaControl.JSON_stringify rt (stateObject s)]>
             menubarCache)
        /\ (~ (status s = StatusOk /\ track s <> "") ->
            writeCachedState rt s menubarCache = menubarCache)).
Proof.
  intros Hinit Hcodec Hreach.
  assert (Hinv : wellFormed (state (fst cfg)) /\ mirrorsDisplayedStates rt initial (snd cfg)).
  { induction Hreach as [| c menubarCache _ [IHw IHm]
                           | c menubarCache exec now ls _ [IHw IHm]
                           | c menubarCache exec now ls _ [IHw IHm]].
    - split; [| intros key raw H; now left].
      apply mount_well_formed. exact Hinit.
    - split; [| exact IHm].
      apply mount_well_formed. intros s Hs.
      exact (readCachedState_mirrored initial menubarCache s Hinit Hcodec IHm Hs).
    - pose proof (onMount_step (later rt exec now) c menubarCache ls) as Hstep.
      split.
      + exact (stepOutcome_well_formed _ _ _ Hstep IHw).
      + exact (stepOutcome_cache _ initial _ _ eq_refl Hstep IHm).
    - pose proof (refreshNowPlaying_step (later rt exec now) c menubarCache ls) as Hstep.
      split.
      + exact (stepOutcome_well_formed _ _ _ Hstep IHw).
      + exact (stepOutcome_cache _ initial _ _ eq_refl Hstep IHm). }
  destruct Hinv as [Hw Hm]. split; [exact Hw |]. split; [exact Hm |]. split.
  - intros exec now ls. destruct cfg as [c menubarCache]. cbn [fst snd]. split.
    + exact (stepOutcome_mirrors (later rt exec now) _ _
               (refreshNowPlaying_step (later rt exec now) c menubarCache ls)).
    + exact (stepOutcome_mirrors (later rt exec now) _ _
               (onMount_step (later rt exec now) c menubarCache ls)).
  - intros s menubarCache. apply writeCachedState_gate.
Qed.

End Invariant.

(** ** The reconciler on concrete lookups *)

(** The lookup of the menubar on the host that prints track "B". *)
Example menubarLookup_runtimeB :
  fst (menubarLookup Scenario.runtimeB (Scenario.storage []))
  = MediaControl.Returned Scenario.lookupB.
Proof. vm_compute. reflexivity. Qed.

(** C1, counterexample.  The menubar shows track "A" of album "X" with
    artwork "u1"; the provider then reports track "B" of album "X" without
    artwork.  After the refresh the menubar shows track "B" with the artwork
    "u1" carried over: the update is not deferred. *)
Lemma refreshNowPlaying_same_album_shows_new_track :
  readStringField Scenario.trackB "title" = "B"
  /\ readStringField Scenario.trackB "album" = "X"
  /\ readArtworkUrl Scenario.trackB = ""
  /\ fst (setNowPlayingState Scenario.runtimeB "B" "" "X" "" Scenario.shownA ∅)
     <> Scenario.shownA
  /\ state (fst (fst (refreshNowPlaying Scenario.runtimeB Scenario.mountedA ∅
                        (Scenario.storage []))))
     = committed "B" "" "X" "u1"
  /\ state (fst (fst (refreshNowPlaying Scenario.runtimeB Scenario.mountedA ∅
                        (Scenario.storage []))))
     <> Scenario.shownA.
Proof.
  split; [reflexivity |]. split; [reflexivity |]. split; [reflexivity |].
  split; [vm_compute; discriminate |].
  assert (E : state (fst (fst (refreshNowPlaying Scenario.runtimeB Scenario.mountedA ∅
                                 (Scenario.storage []))))
              = committed "B" "" "X" "u1") by (vm_compute; reflexivity).
  split; [exact E |]. rewrite E. discriminate.
Qed.

(** C1, at the states of the counterexample: the host prints track "B" of
    album "X" while track "A" of that album is on display with artwork. *)
Lemma refreshNowPlaying_same_album_carries_artwork_witness :
  fst (menubarLookup Scenario.runtimeB (Scenario.storage []))
  = MediaControl.Returned Scenario.lookupB
  /\ MediaControl.query Scenario.lookupB <> None
  /\ MediaControl.isNotInstalled Scenario.lookupB = false
  /\ state (fst (fst (refreshNowPlaying Scenario.runtimeB Scenario.mountedA ∅
                        (Scenario.storage []))))
     = committed "B" "" "X" "u1".
Proof.
  assert (Hq : MediaControl.query Scenario.lookupB <> None) by discriminate.
  assert (Hart : Menubar.artworkUrl (state Scenario.mountedA) <> "") by discriminate.
  split; [exact menubarLookup_runtimeB |]. split; [exact Hq |]. split; [reflexivity |].
  rewrite (proj1 (refreshNowPlaying_same_album_carries_artwork Scenario.runtimeB
                    Scenario.mountedA ∅ (Scenario.storage []) Scenario.lookupB
                    eq_refl eq_refl menubarLookup_runtimeB Hq eq_refl eq_refl eq_refl Hart)).
  reflexivity.
Defined.

(** The lookup of the menubar on the host that prints track "C". *)
Example menubarLookup_mirrorRuntime :
  fst (menubarLookup Samples.mirrorRuntime (Scenario.storage []))
  = MediaControl.Returned Scenario.lookupC.
Proof. vm_compute. reflexivity. Qed.

(** C6, at track "C" of another album without artwork while track "A" is on
    display: the refresh leaves the state and the cache. *)
Lemma refreshNowPlaying_defers_until_artwork_witness :
  fst (menubarLookup Samples.mirrorRuntime (Scenario.storage []))
  = MediaControl.Returned Scenario.lookupC
  /\ MediaControl.query Scenario.lookupC <> None
  /\ MediaControl.isNotInstalled Scenario.lookupC = false
  /\ displaysTrack (state Scenario.mountedA)
  /\ state (fst (fst (refreshNowPlaying Samples.mirrorRuntime Scenario.mountedA ∅
                        (Scenario.storage []))))
     = Scenario.shownA
  /\ snd (fst (refreshNowPlaying Samples.mirrorRuntime Scenario.mountedA ∅
                 (Scenario.storage [])))
     = ∅.
Proof.
  assert (Hq : MediaControl.query Scenario.lookupC <> None) by discriminate.
  assert (Hd : displaysTrack (state Scenario.mountedA))
    by (split; [reflexivity | discriminate]).
  split; [exact menubarLookup_mirrorRuntime |]. split; [exact Hq |].
  split; [reflexivity |]. split; [exact Hd |].
  exact (proj1 (proj2 (proj2 (refreshNowPlaying_defers_until_artwork Samples.mirrorRuntime
                                Scenario.mountedA ∅ (Scenario.storage []) Scenario.lookupC
                                eq_refl eq_refl menubarLookup_mirrorRuntime Hq)))
           eq_refl eq_refl Hd).
Defined.

(** C6, counterexample.  Track "A" is on display; the provider is gone and
    the eligibility cache holds the song, of another album and without
    artwork.  The lookup is eligible (it answers with the cached song and
    its query), its resolved artwork is empty, and yet the old track is not
    kept: the refresh puts the install hint in its place. *)
Lemma refreshNowPlaying_install_hint_replaces_held_track :
  (exists info,
      fst (menubarLookup Samples.goneRuntime Scenario.songStorage)
      = MediaControl.Returned info
      /\ MediaControl.query info = Some "Song Artist"
      /\ MediaControl.payload info = Scenario.songPayload
      /\ MediaControl.isNotInstalled info = true
      /\ resolvedArtwork Scenario.shownA (readStringField (MediaControl.payload info) "album")
           (readArtworkUrl (MediaControl.payload info)) = "")
  /\ displaysTrack Scenario.shownA
  /\ status (state (fst (fst (refreshNowPlaying Samples.goneRuntime Scenario.mountedA ∅
                                Scenario.songStorage))))
     = StatusMissingMediaControl
  /\ track (state (fst (fst (refreshNowPlaying Samples.goneRuntime Scenario.mountedA ∅
                               Scenario.songStorage))))
     = ""
  /\ state (fst (fst (refreshNowPlaying Samples.goneRuntime Scenario.mountedA ∅
                        Scenario.songStorage)))
     <> Scenario.shownA.
Proof.
  split.
  { eexists. split; [vm_compute; reflexivity |]. repeat split. }
  split; [split; [reflexivity | discriminate] |].
  split; [vm_compute; reflexivity |]. split; [vm_compute; reflexivity |].
  vm_compute. discriminate.
Qed.

(** The same lookup on a menubar that shows nothing is committed at once,
    without artwork, and mirrored to the cache. *)
Example applyLookup_commits_on_blank_menubar :
  fst (applyLookup Scenario.runtimeB Scenario.lookupC (blankState StatusNoTrack None) ∅)
  = committed "C" "" "Y" ""
  /\ snd (applyLookup Scenario.runtimeB Scenario.lookupC (blankState StatusNoTrack None) ∅)
       !! LAST_STATE_CACHE_KEY
     = Some (Scenario.textOf (stateObject (committed "C" "" "Y" ""))).
Proof. split; vm_compute; reflexivity. Qed.

(** C2, at a provider that may not be executed while track "A" is on
    display: the refresh leaves the state. *)
Lemma refreshNowPlaying_keeps_displayed_track_witness :
  displaysTrack (state Scenario.mountedA)
  /\ status (state (fst (fst (refreshNowPlaying Scenario.forbiddenRuntime Scenario.mountedA
                                ∅ (Scenario.storage [])))))
     <> StatusNoTrack.
Proof.
  assert (Hd : displaysTrack (state Scenario.mountedA))
    by (split; [reflexivity | discriminate]).
  split; [exact Hd |].
  exact (proj1 (refreshNowPlaying_keeps_displayed_track Scenario.forbiddenRuntime
                  Scenario.mountedA ∅ (Scenario.storage []) Hd)).
Defined.

(** The probe failed, nothing is cached: the menubar still shows track "A". *)
Example refreshNowPlaying_probe_error_keeps_track :
  state (fst (fst (refreshNowPlaying Scenario.forbiddenRuntime Scenario.mountedA ∅
                     (Scenario.storage []))))
  = Scenario.shownA.
Proof. vm_compute. reflexivity. Qed.

(** The provider is gone altogether: the held track gives way to the
    install hint, the one status a refresh puts in place of a track. *)
Example refreshNowPlaying_not_installed_replaces_track :
  status (state (fst (fst (refreshNowPlaying
                             (Scenario.runtime Scenario.notInstalled [])
                             Scenario.mountedA ∅ (Scenario.storage [])))))
  = StatusMissingMediaControl.
Proof. vm_compute. reflexivity. Qed.

(** The host that prints track "C" reads back the text of every state that
    shows a track: its parser knows the text of one such state, and no other
    state that shows a track has that text. *)
Lemma mirrorRuntime_reads_back : readsBackStates Samples.mirrorRuntime.
Proof.
  intros [t a al u st err] v [Hs Ht]. cbn in Hs, Ht. subst st.
  unfold Samples.mirrorRuntime, Scenario.runtime.
  cbn [MediaControl.JSON_parse MediaControl.JSON_stringify].
  unfold Scenario.parseKnown. cbn [find].
  destruct (String.eqb_spec (Scenario.textOf Scenario.trackC)
              (Scenario.textOf
                 (stateObject {| track := t; artist := a; album := al; artworkUrl := u;
                                 status := StatusOk; error := err |}))) as [E | _].
  { exfalso. cbn in E. discriminate E. }
  destruct (String.eqb_spec (Scenario.textOf (stateObject Samples.mirroredC))
              (Scenario.textOf
                 (stateObject {| track := t; artist := a; album := al; artworkUrl := u;
                                 status := StatusOk; error := err |}))) as [E | _];
    [| discriminate].
  intros [= <-].
  pose proof (f_equal String.length E) as Hlen.
  destruct err as [e |].
  - exfalso. cbn in Hlen. rewrite !append_length in Hlen. cbn in Hlen. 
    repeat (rewrite ?append_length in Hlen; cbn in Hlen). lia.
  - cbn in Hlen. repeat (rewrite ?append_length in Hlen; cbn in Hlen).
    assert (Hl : (String.length t + String.length a + String.length al
                  + String.length u = 2)%nat) by lia.
    clear Hlen.
    destruct t as [| c1 [| c2 [| c3 t]]]; [now destruct Ht | | |];
      destruct a as [| d1 [| d2 a]]; destruct al as [| e1 [| e2 al]];
      destruct u as [| f1 [| f2 u]]; cbn in Hl; try lia; clear Hl;
      cbn in E; try discriminate E.
    injection E as <- <-. reflexivity.
Qed.

(** C7, at a command mounted over an empty cache, refreshed while the host
    prints track "C", and mounted again over the cache the refresh left: the
    state is read back from the cache and is well formed. *)
Lemma reachable_states_well_formed_witness :
  (forall s, readCachedState Samples.mirrorRuntime ∅ = Some s -> wellFormed s)
  /\ readsBackStates Samples.mirrorRuntime
  /\ MediaControl.JSON_parse Samples.mirrorRuntime
       (MediaControl.JSON_stringify Samples.mirrorRuntime (stateObject Samples.mirroredC))
     = MediaControl.Returned (stateObject Samples.mirroredC)
  /\ (let after :=
        fst (refreshNowPlaying
               (later Samples.mirrorRuntime (Scenario.prints Scenario.trackC) 0)
               (mount Samples.mirrorRuntime ∅) ∅ (Scenario.storage [])) in
      state (mount Samples.mirrorRuntime (snd after)) = Samples.mirroredC
      /\ wellFormed (state (mount Samples.mirrorRuntime (snd after)))).
Proof.
  assert (H : forall s, readCachedState Samples.mirrorRuntime ∅ = Some s -> wellFormed s).
  { intros s E. vm_compute in E. discriminate. }
  split; [exact H |]. split; [exact mirrorRuntime_reads_back |].
  split; [reflexivity |]. cbv zeta. split; [vm_compute; reflexivity |].
  pose (after := fst (refreshNowPlaying
                        (later Samples.mirrorRuntime (Scenario.prints Scenario.trackC) 0)
                        (mount Samples.mirrorRuntime ∅) ∅ (Scenario.storage []))).
  assert (Hr : reachable Samples.mirrorRuntime ∅ (fst after, snd after)).
  { rewrite <- surjective_pairing.
    exact (reachable_refresh Samples.mirrorRuntime ∅ _ _ _ _ _
             (reachable_mount Samples.mirrorRuntime ∅)). }
  exact (proj1 (reachable_states_well_formed Samples.mirrorRuntime ∅ _ H
                  mirrorRuntime_reads_back
                  (reachable_remount Samples.mirrorRuntime ∅ _ _ Hr))).
Defined.

(** The provider reports media without an album and nothing is cached: the
    lookup has no track, and the menubar still shows track "A". *)
Example refreshNowPlaying_no_track_keeps_track :
  fst (refreshNowPlaying Scenario.jingleRuntime Scenario.mountedA ∅ (Scenario.storage []))
  = (Scenario.mountedA, ∅).
Proof. vm_compute. reflexivity. Qed.

(** Off the supported platform the mount effect replaces whatever state the
    cache gave, also a held track. *)
Example onMount_unsupported_platform_replaces_track :
  let windows :=
    {| MediaControl.platform := "win32";
       MediaControl.execFileAsync := Scenario.notInstalled;
       MediaControl.JSON_parse := Scenario.parseKnown [];
       MediaControl.JSON_stringify := Scenario.textOf;
       MediaControl.Date_now := 0 |} in
  state (fst (fst (onMount windows Scenario.mountedA ∅ (Scenario.storage []))))
  = blankState StatusUnsupportedPlatform None.
Proof. vm_compute. reflexivity. Qed.

(** A command mounted over the cache that a refresh left shows the state
    that was mirrored. *)
Example mount_reads_back_mirrored_state :
  let rt :=
    Scenario.runtime (Scenario.prints Scenario.trackC)
      [Scenario.trackC; stateObject (committed "C" "" "Y" "")] in
  let after :=
    fst (refreshNowPlaying rt (mount rt ∅) ∅ (Scenario.storage [])) in
  state (fst after) = committed "C" "" "Y" ""
  /\ state (mount rt (snd after)) = committed "C" "" "Y" "".
Proof. split; vm_compute; reflexivity. Qed.

(** * Further properties *)

Import JS Spec Vocabulary.

(** ** The probe, candidate by candidate *)

Section ProbeOrder.
Import MediaControl.
Variable rt : Runtime.

Lemma tryCandidates_first_success (pre post attempts : list string) (missing : nat)
    (binary out err : string) (p : value) :
  Forall (fails rt) pre ->
  attempt rt binary = Returned (out, err, p) ->
  tryCandidates rt (pre ++ binary :: post) attempts missing
  = {| query := formatNowPlayingSearchQuery p;
       stdout := out;
       stderr := err;
       error := None;
       payload := p;
       binary := Some binary;
       attempts := attempts ++ map (attemptNote rt) pre;
       isNotInstalled := false |}.
Proof.
  intros Hpre Hb. revert attempts missing.
  induction Hpre as [| c pre (e & E) _ IH]; intros attempts missing.
  - cbn [app map tryCandidates]. rewrite Hb, app_nil_r. reflexivity.
  - assert (Hn : attemptNote rt c = c +:+ ": " +:+ message e)
      by (unfold attemptNote; now rewrite E).
    cbn [app map tryCandidates]. rewrite E, IH, Hn. now rewrite <- app_assoc.
Qed.

Lemma tryCandidates_all_fail (rest attempts : list string) (missing : nat) :
  Forall (fails rt) rest ->
  tryCandidates rt rest attempts missing
  = {| query := None;
       stdout := "";
       stderr := "";
       error :=
         Some (orStr (List.last (attempts ++ map (attemptNote rt) rest) "")
                 "Failed to execute media-control");
       payload := Null;
       binary := None;
       attempts := attempts ++ map (attemptNote rt) rest;
       isNotInstalled :=
         Nat.eqb (missing + length (List.filter (countsAsMissing rt) rest))
           (length candidates) |}.
Proof.
  intros Hrest. revert attempts missing.
  induction Hrest as [| c rest (e & E) _ IH]; intros attempts missing.
  - cbn [map tryCandidates List.filter length]. now rewrite app_nil_r, Nat.add_0_r.
  - assert (Hn : attemptNote rt c = c +:+ ": " +:+ message e)
      by (unfold attemptNote; now rewrite E).
    assert (Hm : countsAsMissing rt c = isMissingBinaryError e)
      by (unfold countsAsMissing; now rewrite E).
    cbn [map tryCandidates List.filter]. rewrite E, IH, Hn, Hm, <- !app_assoc.
    cbn [app]. destruct (isMissingBinaryError e); cbn [length]; [| reflexivity].
    now rewrite Nat.add_succ_r.
Qed.

(** X1. The first candidate, in the order of the list, whose run and parse
    succeed is the resolved binary; the attempts are the notes of the
    candidates before it, in order. *)
Theorem inspectNowPlaying_first_success (pre post : list string)
    (binary out err : string) (p : value) :
  platform rt = "darwin" ->
  candidates = pre ++ binary :: post ->
  Forall (fails rt) pre ->
  attempt rt binary = Returned (out, err, p) ->
  inspectNowPlaying rt
  = {| query := formatNowPlayingSearchQuery p;
       stdout := out;
       stderr := err;
       error := None;
       payload := p;
       binary := Some binary;
       attempts := map (attemptNote rt) pre;
       isNotInstalled := false |}.
Proof.
  intros Hp Hc Hpre Hb. unfold inspectNowPlaying. rewrite Hp. cbn [String.eqb negb].
  change (("darwin" =? "darwin")%string) with true. cbn [negb].
  rewrite Hc. now rewrite (tryCandidates_first_success pre post [] 0 binary out err p).
Qed.

Lemma attemptNote_nonempty (binary : string) :
  fails rt binary -> binary <> "" -> truthyStr (attemptNote rt binary) = true.
Proof.
  intros (e & E) Hne. unfold attemptNote. rewrite E.
  destruct binary; [contradiction | reflexivity].
Qed.

(** The probe when every candidate fails. *)
Lemma inspectNowPlaying_failure :
  platform rt = "darwin" ->
  Forall (fails rt) candidates ->
  inspectNowPlaying rt
  = {| query := None;
       stdout := "";
       stderr := "";
       error := Some (attemptNote rt lastCandidate);
       payload := Null;
       binary := None;
       attempts := map (attemptNote rt) candidates;
       isNotInstalled :=
         Nat.eqb (length (List.filter (countsAsMissing rt) candidates))
           (length candidates) |}.
Proof.
  intros Hp Hall. unfold inspectNowPlaying. rewrite Hp.
  change (("darwin" =? "darwin")%string) with true. cbn [negb].
  rewrite (tryCandidates_all_fail candidates [] 0 Hall). cbn [app Nat.add].
  assert (Hlast : List.last (map (attemptNote rt) candidates) ""
                  = attemptNote rt lastCandidate) by reflexivity.
  rewrite Hlast.
  assert (Ht : truthyStr (attemptNote rt lastCandidate) = true).
  { apply attemptNote_nonempty; [| discriminate].
    rewrite List.Forall_forall in Hall. apply Hall. cbn. tauto. }
  unfold orStr. now rewrite Ht.
Qed.

(** X2. When every candidate fails, the probe has no payload and no binary,
    one note per candidate in the order tried, and its error is the note of
    the last candidate; the stock message is never used. *)
Theorem inspectNowPlaying_all_fail :
  platform rt = "darwin" ->
  Forall (fails rt) candidates ->
  let info := inspectNowPlaying rt in
  payload info = Null
  /\ query info = None
  /\ binary info = None
  /\ attempts info = map (attemptNote rt) candidates
  /\ length (attempts info) = 6%nat
  /\ error info = Some (attemptNote rt lastCandidate)
  /\ error info <> Some "Failed to execute media-control".
Proof.
  intros Hp Hall. cbv zeta. rewrite (inspectNowPlaying_failure Hp Hall).
  cbn [payload query binary attempts error].
  do 5 (split; [reflexivity |]). split; [reflexivity |].
  assert (Hf : fails rt lastCandidate)
    by (rewrite List.Forall_forall in Hall; apply Hall; cbn; tauto).
  destruct Hf as (e & E). unfold attemptNote. rewrite E. intros [= H].
Qed.

End ProbeOrder.

(** ** The class of not-found errors *)

Section MissingBinary.
Import MediaControl.

Lemma string_of_uint_not_letter (d : Decimal.uint) :
  String.eqb (NilZero.string_of_uint d) "ENOENT" = false.
Proof. destruct d; reflexivity. Qed.

Lemma string_of_int_not_letter (i : Decimal.int) :
  String.eqb (NilZero.string_of_int i) "ENOENT" = false.
Proof.
  destruct i as [d | d]; [apply string_of_uint_not_letter |].
  cbn [NilZero.string_of_int]. reflexivity.
Qed.

Lemma codeString_ENOENT (c : ErrorCode) :
  String.eqb (codeString c) "ENOENT" = true <-> c = CodeStr "ENOENT".
Proof.
  destruct c as [| | n | s]; cbn [codeString].
  - split; intros H; [cbn in H |]; discriminate.
  - split; intros H; [cbn in H |]; discriminate.
  - split; [| discriminate]. destruct (n =? 0)%Z; [cbn; discriminate |].
    rewrite string_of_int_not_letter. discriminate.
  - rewrite String.eqb_eq. split; congruence.
Qed.

(** X3. An error is of the not-found class exactly when its code is the string
    "ENOENT", or its message contains "ENOENT", or its message contains "not
    found" in any letter case. An exit status or a missing code never decides
    by itself: the message does. *)
Theorem isMissingBinaryError_class (e : Error) :
  (isMissingBinaryError e = true <->
   code e = CodeStr "ENOENT"
   \/ includes (message e) "ENOENT" = true
   \/ includes (toLowerCase (message e)) "not found" = true)
  /\ (forall n m, isMissingBinaryError {| code := CodeNum n; message := m |}
                  = isMissingBinaryError {| code := NoCode; message := m |}).
Proof.
  split.
  - unfold isMissingBinaryError. cbv zeta.
    pose proof (codeString_ENOENT (code e)) as Hc.
    destruct (String.eqb (codeString (code e)) "ENOENT").
    + split; [intros _; left; now apply Hc | reflexivity].
    + rewrite orb_true_iff. split; [tauto |].
      intros [H | H]; [apply Hc in H; discriminate | exact H].
  - intros n m. unfold isMissingBinaryError. cbv zeta. cbn [code message].
    pose proof (codeString_ENOENT (CodeNum n)) as Hc.
    destruct (String.eqb (codeString (CodeNum n)) "ENOENT"); [| reflexivity].
    discriminate (proj1 Hc eq_refl).
Qed.

End MissingBinary.

(** ** What a lookup returns and what it does to the store *)

Section LookupShape.
Import MediaControl.
Variable rt : Runtime.

(** The three ways a lookup ends. *)
Lemma inspectNowPlayingForLookup_cases (kind : LookupKind)
    (options : option LookupOptions) (ls : LocalStorage) :
  (exists p,
      asPayloadRecord (payload (inspectNowPlaying rt)) = Some p
      /\ queryForLookupKind p kind <> None
      /\ inspectNowPlayingForLookup rt kind options ls
         = (Returned (withPayloadAndQuery (inspectNowPlaying rt) p
                        (queryForLookupKind p kind)),
            snd (saveEligibleMedia rt kind p ls)))
  \/ inspectNowPlayingForLookup rt kind options ls
     = (Returned (withPayloadAndQuery (inspectNowPlaying rt) Null None), ls)
  \/ (exists cached,
        fst (readEligibleMedia rt kind ls) = Returned (Some cached)
        /\ queryForLookupKind cached kind <> None
        /\ (asPayloadRecord (payload (inspectNowPlaying rt)) = None
            \/ optedIn options = true)
        /\ inspectNowPlayingForLookup rt kind options ls
           = (Returned (withPayloadAndQuery (inspectNowPlaying rt) cached
                          (queryForLookupKind cached kind)),
              ls)).
Proof.
  assert (Hcache : forall (side :
                      asPayloadRecord (payload (inspectNowPlaying rt)) = None
                      \/ optedIn options = true),
             answerFromCache rt kind ls = withPayloadAndQuery (inspectNowPlaying rt) Null None
             \/ exists cached,
                  fst (readEligibleMedia rt kind ls) = Returned (Some cached)
                  /\ queryForLookupKind cached kind <> None
                  /\ (asPayloadRecord (payload (inspectNowPlaying rt)) = None
                      \/ optedIn options = true)
                  /\ answerFromCache rt kind ls
                     = withPayloadAndQuery (inspectNowPlaying rt) cached
                         (queryForLookupKind cached kind)).
  { intros side. unfold answerFromCache. cbv zeta.
    destruct (fst (readEligibleMedia rt kind ls)) as [[cached |] | e] eqn:Er;
      try (now left).
    destruct (truthyQuery (queryForLookupKind cached kind)) eqn:Eq; [| now left].
    right. exists cached. apply queryForLookupKind_truthy in Eq. auto. }
  destruct (asPayloadRecord (payload (inspectNowPlaying rt))) as [p |] eqn:Hp.
  - destruct (queryForLookupKind p kind) as [q |] eqn:Hq.
    + left. exists p. split; [reflexivity |]. split; [congruence |].
      rewrite (lookup_live_eligible rt kind options ls p Hp) by congruence.
      now rewrite Hq.
    + right. rewrite (lookup_live_ineligible rt kind options ls p Hp Hq).
      destruct (optedIn options) eqn:Ho; [| now left].
      destruct (Hcache (or_intror eq_refl)) as [-> | (cached & H1 & H2 & H3 & ->)];
        [now left | right; exists cached; auto].
  - right. rewrite (lookup_no_live_payload rt kind options ls Hp).
    destruct (Hcache (or_introl eq_refl)) as [-> | (cached & H1 & H2 & H3 & ->)];
      [now left | right; exists cached; auto].
Qed.

Lemma asPayloadRecord_some (v p : value) :
  asPayloadRecord v = Some p -> p = v /\ asPayloadRecord p = Some p.
Proof.
  unfold asPayloadRecord.
  destruct (negb (truthy v) || negb (typeofObject v)) eqn:E; [discriminate |].
  intros [= <-]. now rewrite E.
Qed.

Lemma readEligibleMedia_record (kind : LookupKind) (ls : LocalStorage) (cached : value) :
  fst (readEligibleMedia rt kind ls) = Returned (Some cached) ->
  asPayloadRecord cached = Some cached.
Proof.
  destruct (readEligibleMedia_returns rt kind ls) as (r & E & Hr). rewrite E. cbn [fst].
  intros [= ->]. destruct (proj1 (Hr cached) eq_refl) as (_ & raw & parsed & _ & _ & _ & H).
  now apply asPayloadRecord_some in H.
Qed.

End LookupShape.

Section LookupAnswers.
Import MediaControl.
Variable rt : Runtime.

Lemma queryForLookupKind_album (p : value) :
  queryForLookupKind p album = formatNowPlayingAlbumSearchQuery p.
Proof.
  unfold queryForLookupKind, formatNowPlayingAlbumSearchQuery. cbv zeta.
  now destruct (negb (truthyStr (MediaControl.readStringField p "album"))).
Qed.

(** X4. The query of a lookup is always the query of the payload the lookup
    carries, for the kind asked: both are there or both are [null]. For kind
    [album] it is what [formatNowPlayingAlbumSearchQuery] makes of that
    payload. *)
Theorem inspectNowPlayingForLookup_query_of_payload (kind : LookupKind)
    (options : option LookupOptions) (ls : LocalStorage) :
  exists info ls',
    inspectNowPlayingForLookup rt kind options ls = (Returned info, ls')
    /\ query info = queryForLookupKind (payload info) kind
    /\ (query info = None <-> payload info = Null)
    /\ (kind = album -> formatNowPlayingAlbumSearchQuery (payload info) = query info).
Proof.
  destruct (inspectNowPlayingForLookup_cases rt kind options ls)
    as [(p & Hp & Hq & E) | [E | (cached & Hr & Hq & _ & E)]];
    rewrite E; do 2 eexists; (split; [reflexivity |]); cbn [query payload withPayloadAndQuery].
  - split; [reflexivity |]. split.
    + split; [intros H; contradiction |]. intros ->. exfalso. apply Hq.
      now destruct kind.
    + intros ->. apply eq_sym, queryForLookupKind_album.
  - split; [now destruct kind |]. split; [tauto |]. reflexivity.
  - apply readEligibleMedia_record in Hr.
    split; [reflexivity |]. split.
    + split; [intros H; contradiction |]. intros ->. exfalso. apply Hq.
      now destruct kind.
    + intros ->. apply eq_sym, queryForLookupKind_album.
Qed.

(** X5. Whatever the lookup answers, from the live payload, from the cache or
    nothing, it forwards the diagnostics of the probe untouched. *)
Theorem inspectNowPlayingForLookup_forwards_diagnostics (kind : LookupKind)
    (options : option LookupOptions) (ls : LocalStorage) :
  exists info ls',
    inspectNowPlayingForLookup rt kind options ls = (Returned info, ls')
    /\ error info = error (inspectNowPlaying rt)
    /\ attempts info = attempts (inspectNowPlaying rt)
    /\ binary info = binary (inspectNowPlaying rt)
    /\ isNotInstalled info = isNotInstalled (inspectNowPlaying rt)
    /\ stdout info = stdout (inspectNowPlaying rt)
    /\ stderr info = stderr (inspectNowPlaying rt).
Proof.
  destruct (inspectNowPlayingForLookup_cases rt kind options ls)
    as [(p & _ & _ & E) | [E | (cached & _ & _ & _ & E)]];
    rewrite E; do 2 eexists; (split; [reflexivity |]); repeat split.
Qed.

(** X6. A lookup writes the store only to save a live payload that is eligible
    for the kind, under the key of that kind; every other entry, and the whole
    store when the live payload is missing or ineligible, stay as they were. A
    lookup never removes an entry. *)
Theorem inspectNowPlayingForLookup_writes_only_eligible (kind : LookupKind)
    (options : option LookupOptions) (ls : LocalStorage) :
  let ls' := snd (inspectNowPlayingForLookup rt kind options ls) in
  getItemFault ls' = getItemFault ls
  /\ setItemFault ls' = setItemFault ls
  /\ (forall key, key <> CACHE_KEYS kind -> items ls' !! key = items ls !! key)
  /\ (forall key v, items ls !! key = Some v -> exists v', items ls' !! key = Some v')
  /\ (ls' = ls
      \/ exists p,
           asPayloadRecord (payload (inspectNowPlaying rt)) = Some p
           /\ queryForLookupKind p kind <> None
           /\ items ls'
              = <[CACHE_KEYS kind := StoredString (JSON_stringify rt (cachedRecord rt p))]>
                  (items ls)).
Proof.
  cbv zeta.
  destruct (inspectNowPlayingForLookup_cases rt kind options ls)
    as [(p & Hp & Hq & E) | [E | (cached & _ & _ & _ & E)]];
    rewrite E; cbn [snd]; try (repeat split; eauto; fail).
  destruct (saveEligibleMedia_returns rt kind p ls) as (ls' & Es & Hg & Hs & Hfault & Hok).
  rewrite Es. cbn [snd]. split; [exact Hg |]. split; [exact Hs |].
  destruct (setItemFault ls) as [e |] eqn:Ef.
  - rewrite (Hfault e eq_refl). repeat split; eauto.
  - specialize (Hok eq_refl). split; [| split].
    + intros key Hne. rewrite Hok. now apply lookup_insert_ne.
    + intros key v Hv. rewrite Hok, lookup_insert.
      destruct (decide (CACHE_KEYS kind = key)); eauto.
    + right. exists p. auto.
Qed.

End LookupAnswers.

(** ** The eligibility cache, written and read *)

Section CacheRoundTrip.
Import MediaControl.
Variable rt : Runtime.

Lemma CACHE_KEYS_injective (k k' : LookupKind) : CACHE_KEYS k = CACHE_KEYS k' -> k = k'.
Proof. destruct k, k'; simpl; intros H; try reflexivity; discriminate. Qed.

(** What [readEligibleMedia] returns depends on the read fault and on the
    entry of the kind only. *)
Lemma readEligibleMedia_entry (kind : LookupKind) (ls1 ls2 : LocalStorage) :
  getItemFault ls1 = getItemFault ls2 ->
  items ls1 !! CACHE_KEYS kind = items ls2 !! CACHE_KEYS kind ->
  fst (readEligibleMedia rt kind ls1) = fst (readEligibleMedia rt kind ls2).
Proof.
  intros Hf Hi. unfold readEligibleMedia, tryCatch, await, getItem, liftResult, resolve.
  rewrite Hf, Hi. destruct (getItemFault ls2); [reflexivity |].
  destruct (items ls2 !! CACHE_KEYS kind) as [[raw | n | b] |]; try reflexivity.
  destruct (negb (truthyStr raw)); [reflexivity |].
  destruct (JSON_parse rt raw) as [parsed | e]; [| reflexivity].
  now destruct (negb (truthy parsed) || negb (typeofObject parsed)).
Qed.

Lemma readEligibleMedia_stored (kind : LookupKind) (ls : LocalStorage) (p : value) :
  getItemFault ls = None ->
  items ls !! CACHE_KEYS kind
  = Some (StoredString (JSON_stringify rt (cachedRecord rt p))) ->
  readsBack rt (cachedRecord rt p) ->
  asPayloadRecord p = Some p ->
  fst (readEligibleMedia rt kind ls) = Returned (Some p).
Proof.
  intros Hf Hi [Hparse Hne] Hp.
  destruct (readEligibleMedia_returns rt kind ls) as (r & E & Hr). rewrite E. cbn [fst].
  f_equal. apply Hr. split; [exact Hf |].
  exists (JSON_stringify rt (cachedRecord rt p)), (cachedRecord rt p).
  repeat split; assumption.
Qed.

Lemma saveEligibleMedia_read_back (kind : LookupKind) (ls : LocalStorage) (p : value) :
  healthy ls ->
  readsBack rt (cachedRecord rt p) ->
  asPayloadRecord p = Some p ->
  healthy (snd (saveEligibleMedia rt kind p ls))
  /\ items (snd (saveEligibleMedia rt kind p ls))
     = <[CACHE_KEYS kind := StoredString (JSON_stringify rt (cachedRecord rt p))]> (items ls)
  /\ fst (readEligibleMedia rt kind (snd (saveEligibleMedia rt kind p ls)))
     = Returned (Some p).
Proof.
  intros [Hg Hs] Hrb Hp.
  destruct (saveEligibleMedia_returns rt kind p ls) as (ls1 & E1 & Hg1 & Hs1 & _ & Hok1).
  rewrite E1. cbn [snd]. specialize (Hok1 Hs).
  split; [split; congruence |]. split; [exact Hok1 |].
  apply readEligibleMedia_stored; try assumption; [congruence |].
  rewrite Hok1. apply lookup_insert_eq.
Qed.

(** X8. A save for one kind leaves what is read for another kind as it was. *)
Theorem saveEligibleMedia_other_kind (kind kind' : LookupKind) (ls : LocalStorage)
    (p : value) :
  kind <> kind' ->
  fst (readEligibleMedia rt kind' (snd (saveEligibleMedia rt kind p ls)))
  = fst (readEligibleMedia rt kind' ls).
Proof.
  intros Hk.
  destruct (saveEligibleMedia_returns rt kind p ls) as (ls1 & E1 & Hg1 & _ & Hfault & Hok).
  rewrite E1. cbn [snd]. apply readEligibleMedia_entry; [exact Hg1 |].
  destruct (setItemFault ls) as [e |] eqn:Ef.
  - now rewrite (Hfault e eq_refl).
  - rewrite (Hok eq_refl). apply lookup_insert_ne.
    intros H. apply Hk. now apply CACHE_KEYS_injective.
Qed.

(** X9. The cache bridges a gap: after a lookup that found an eligible live
    payload, a later lookup of the same kind whose probe gives no payload
    answers with that payload and its query, with or without the opt-in. *)
Theorem lookup_falls_back_to_last_eligible (kind : LookupKind)
    (options options' : option LookupOptions) (ls : LocalStorage) (p : value)
    (exec : string -> ExecResult) (now : Z) :
  healthy ls ->
  asPayloadRecord (payload (inspectNowPlaying rt)) = Some p ->
  queryForLookupKind p kind <> None ->
  readsBack rt (cachedRecord rt p) ->
  asPayloadRecord (payload (inspectNowPlaying (later rt exec now))) = None ->
  let ls1 := snd (inspectNowPlayingForLookup rt kind options ls) in
  exists info,
    inspectNowPlayingForLookup (later rt exec now) kind options' ls1 = (Returned info, ls1)
    /\ payload info = p
    /\ query info = queryForLookupKind p kind.
Proof.
  intros Hh Hp Hq Hrb Hgap. cbv zeta.
  rewrite (lookup_live_eligible rt kind options ls p Hp Hq). cbn [snd].
  set (ls1 := snd (saveEligibleMedia rt kind p ls)).
  assert (Hread : fst (readEligibleMedia rt kind ls1) = Returned (Some p))
    by (apply (saveEligibleMedia_read_back kind ls p Hh Hrb);
        now apply asPayloadRecord_some in Hp).
  rewrite (lookup_no_live_payload (later rt exec now) kind options' ls1 Hgap).
  eexists. split; [reflexivity |].
  unfold answerFromCache. cbv zeta.
  change (readEligibleMedia (later rt exec now) kind ls1) with (readEligibleMedia rt kind ls1).
  rewrite Hread. apply queryForLookupKind_truthy in Hq. rewrite Hq. split; reflexivity.
Qed.

End CacheRoundTrip.

Section CacheTimestamps.
Import MediaControl.
Variable rt : Runtime.

(** X7. Save, then read: on a store that takes the calls, with a [JSON.parse]
    that reads back the stored records, [readEligibleMedia] returns the
    record payload that [saveEligibleMedia] was given, after one save and
    after the same payload is saved again at a later time.  The second save
    replaces the entry of the kind by the record with the new time; it adds
    no entry. *)
Theorem saveEligibleMedia_then_read (kind : LookupKind) (ls : LocalStorage) (p : value)
    (exec : string -> ExecResult) (now : Z) :
  healthy ls ->
  readsBack rt (cachedRecord rt p) ->
  readsBack rt (cachedRecord (later rt exec now) p) ->
  asPayloadRecord p = Some p ->
  let once := snd (saveEligibleMedia rt kind p ls) in
  let twice := snd (saveEligibleMedia (later rt exec now) kind p once) in
  fst (readEligibleMedia rt kind once) = Returned (Some p)
  /\ fst (readEligibleMedia (later rt exec now) kind twice) = Returned (Some p)
  /\ items once
     = <[CACHE_KEYS kind := StoredString (JSON_stringify rt (cachedRecord rt p))]> (items ls)
  /\ items twice
     = <[CACHE_KEYS kind :=
          StoredString (JSON_stringify rt (cachedRecord (later rt exec now) p))]> (items ls).
Proof.
  intros Hh Hrb Hrb' Hp. cbv zeta.
  destruct (saveEligibleMedia_read_back rt kind ls p Hh Hrb Hp) as (Hh1 & Hi1 & Hr1).
  destruct (saveEligibleMedia_read_back (later rt exec now) kind _ p Hh1 Hrb' Hp)
    as (_ & Hi2 & Hr2).
  split; [exact Hr1 |]. split; [exact Hr2 |]. split; [exact Hi1 |].
  rewrite Hi2, Hi1. apply insert_insert_eq.
Qed.

End CacheTimestamps.

(** ** Trimming *)

Section Trim.

Lemma trimEnd_empty_or_cons (a : ascii) (s : string) :
  trimEnd (String a s) = "" \/ trimEnd (String a s) = String a (trimEnd s).
Proof.
  cbn [trimEnd]. destruct (trimEnd s); [| now right].
  destruct (isWhiteSpace a); [now left | now right].
Qed.

Lemma trimEnd_idempotent (s : string) : trimEnd (trimEnd s) = trimEnd s.
Proof.
  induction s as [| a s IH]; [reflexivity |].
  cbn [trimEnd]. destruct (trimEnd s) as [| b r] eqn:E.
  - destruct (isWhiteSpace a) eqn:Ea; [reflexivity |]. cbn [trimEnd]. now rewrite Ea.
  - cbn [trimEnd]. cbn [trimEnd] in IH. rewrite IH. reflexivity.
Qed.

(** A string that starts with a code unit that is no white space keeps it
    under [trimEnd]. *)
Lemma trimEnd_keeps_head (a : ascii) (s : string) :
  isWhiteSpace a = false -> trimEnd (String a s) = String a (trimEnd s).
Proof. intros H. cbn [trimEnd]. rewrite H. now destruct (trimEnd s). Qed.

Lemma trimStart_head (s : string) :
  trimStart s = "" \/ exists a r, trimStart s = String a r /\ isWhiteSpace a = false.
Proof.
  induction s as [| a s IH]; [now left |].
  cbn [trimStart]. destruct (isWhiteSpace a) eqn:E; [exact IH |]. right. eauto.
Qed.

Lemma trim_head (s : string) :
  trim s = "" \/ exists a r, trim s = String a r /\ isWhiteSpace a = false.
Proof.
  unfold trim. destruct (trimStart_head s) as [-> | (a & r & -> & Ha)]; [now left |].
  right. rewrite (trimEnd_keeps_head a r Ha). eauto.
Qed.

Lemma trimStart_fixed (a : ascii) (r : string) :
  isWhiteSpace a = false -> trimStart (String a r) = String a r.
Proof. intros H. cbn [trimStart]. now rewrite H. Qed.

(** [trim] is idempotent. *)
Lemma trim_idempotent (s : string) : trim (trim s) = trim s.
Proof.
  destruct (trim_head s) as [E | (a & r & E & Ha)]; [now rewrite E |].
  unfold trim at 1. rewrite E, (trimStart_fixed a r Ha), <- E.
  unfold trim. apply trimEnd_idempotent.
Qed.

Lemma append_empty (a b : string) : a +:+ b = "" -> a = "" /\ b = "".
Proof. destruct a; [cbn; auto | discriminate]. Qed.

(** Text put in front of a trimmed, non-empty string is kept by [trimEnd]. *)
Lemma trimEnd_prefixed (a b : string) :
  trimEnd b = b -> b <> "" -> trimEnd (a +:+ b) = a +:+ b.
Proof.
  intros Hb Hne. induction a as [| c a IH]; [exact Hb |].
  change (String c a +:+ b) with (String c (a +:+ b)).
  cbn [trimEnd]. rewrite IH.
  destruct (a +:+ b) eqn:E; [| reflexivity].
  apply append_empty in E as [_ ->]. contradiction.
Qed.

Lemma trimEnd_trim (s : string) : trimEnd (trim s) = trim s.
Proof. unfold trim. apply trimEnd_idempotent. Qed.

End Trim.

(** ** Artwork of a payload *)

Section ArtworkUrl.
Import Menubar.

Lemma toArtworkDataUri_cases (data mimeType : string) :
  let raw := trim data in
  toArtworkDataUri data mimeType
  = if negb (truthyStr raw) then ""
    else if hasUrlScheme raw then raw
    else "data:" +:+ orStr (trim mimeType) "image/jpeg" +:+ ";base64," +:+ raw.
Proof. unfold toArtworkDataUri. cbv zeta. now rewrite artworkUrlPattern_test. Qed.

(** X10. Normalizing twice is normalizing once, whatever MIME type the second
    call is given: a normalized artwork is a URL already. *)
Theorem toArtworkDataUri_idempotent (data mimeType mimeType' : string) :
  toArtworkDataUri (toArtworkDataUri data mimeType) mimeType'
  = toArtworkDataUri data mimeType.
Proof.
  rewrite (toArtworkDataUri_cases data mimeType). cbv zeta.
  destruct (truthyStr (trim data)) eqn:Et; cbn [negb]; [| reflexivity].
  destruct (hasUrlScheme (trim data)) eqn:Es.
  - rewrite toArtworkDataUri_cases. cbv zeta. rewrite trim_idempotent, Et, Es. reflexivity.
  - set (mime := orStr (trim mimeType) "image/jpeg").
    assert (Hne : trim data <> "") by now apply truthyStr_true.
    assert (Htrim : trim ("data:" +:+ mime +:+ ";base64," +:+ trim data)
                    = "data:" +:+ mime +:+ ";base64," +:+ trim data).
    { set (tail := ";base64," +:+ trim data).
      assert (H1 : trimEnd tail = tail /\ tail <> "").
      { split; [apply trimEnd_prefixed; [apply trimEnd_trim | exact Hne] | discriminate]. }
      assert (H2 : trimEnd (mime +:+ tail) = mime +:+ tail /\ mime +:+ tail <> "").
      { split; [now apply trimEnd_prefixed |].
        intros E. apply append_empty in E as [_ E]. now destruct H1. }
      unfold trim.
      assert (Hs : trimStart ("data:" +:+ mime +:+ tail) = "data:" +:+ mime +:+ tail)
        by reflexivity.
      rewrite Hs. now apply trimEnd_prefixed. }
    rewrite toArtworkDataUri_cases. cbv zeta. rewrite Htrim.
    assert (Hs : hasUrlScheme ("data:" +:+ mime +:+ ";base64," +:+ trim data) = true).
    { apply hasUrlScheme_append. cbn. tauto. }
    rewrite Hs. reflexivity.
Qed.

Lemma toArtworkDataUri_nonempty (data mimeType : string) :
  trim data <> "" -> toArtworkDataUri data mimeType <> "".
Proof.
  intros Hne. rewrite toArtworkDataUri_cases. cbv zeta.
  apply truthyStr_true in Hne. rewrite Hne. cbn [negb].
  destruct (hasUrlScheme (trim data)); [now apply truthyStr_true | discriminate].
Qed.

End ArtworkUrl.

Section ArtworkOfPayload.
Import Menubar.
Variable rt : MediaControl.Runtime.

Lemma menubar_readStringField_blank (payload : value) (key : string) :
  (forall s, getProperty payload key = Str s -> trim s = "") ->
  readStringField payload key = "".
Proof. exact (readStringField_not_string payload key). Qed.

Lemma flatArtwork_blank (payload : value) (keys : list string) :
  (forall key, In key keys -> readStringField payload key = "") ->
  flatArtwork payload keys = "".
Proof.
  induction keys as [| key keys IH]; intros H; [reflexivity |].
  cbn [flatArtwork]. rewrite (H key (or_introl eq_refl)). cbn [truthyStr].
  apply IH. intros k Hk. apply H. now right.
Qed.

(** X11. A payload that has no non-blank string under any artwork key, and no
    object under [artworkData], has no artwork: the result is the empty
    string. This covers a payload without any of the keys and a payload that
    is no object. *)
Theorem readArtworkUrl_without_artwork (payload : value) :
  (forall key s, In key artworkKeys -> getProperty payload key = Str s -> trim s = "") ->
  (forall props, getProperty payload "artworkData" <> Obj props) ->
  readArtworkUrl payload = "".
Proof.
  intros Hblank Hobj.
  assert (Hflat : flatArtwork payload
                    ["artwork_url"; "artworkUrl"; "artwork"; "album_art_url";
                     "albumArtUrl"; "image"; "thumbnail"] = "").
  { apply flatArtwork_blank. intros key Hk. apply menubar_readStringField_blank.
    intros s. apply Hblank. now right. }
  unfold readArtworkUrl. cbv zeta. rewrite Hflat.
  destruct (truthy payload && typeofObject payload) eqn:Eo; [| reflexivity].
  destruct (getProperty payload "artworkData") as [| | b | n | s | items | props] eqn:Ea;
    try reflexivity.
  - now destruct b.
  - cbn [typeofObject]. now rewrite andb_false_r.
  - rewrite (Hblank "artworkData" s (or_introl eq_refl) Ea). reflexivity.
  - now destruct (Hobj props).
Qed.

Lemma readArtworkUrl_inline (payload : value) (data : string) :
  getProperty payload "artworkData" = Str data ->
  trim data <> "" ->
  readArtworkUrl payload
  = toArtworkDataUri data (orStr (readStringField payload "artworkMimeType") "image/jpeg").
Proof.
  intros Ha Hne. unfold readArtworkUrl. cbv zeta.
  assert (Ho : truthy payload && typeofObject payload = true).
  { destruct payload; try discriminate. reflexivity. }
  rewrite Ho, Ha. apply truthyStr_true in Hne. now rewrite Hne.
Qed.

(** X12. Artwork sent inline wins over every URL key and is never empty, so a
    lookup that carries a title and inline artwork is committed at once,
    whatever is on display: the update is not deferred. *)
Theorem applyLookup_inline_artwork_commits (info : MediaControl.MediaControlDebugInfo)
    (prev : NowPlayingState) (menubarCache : Cache) (data : string) :
  MediaControl.isNotInstalled info = false ->
  readStringField (MediaControl.payload info) "title" <> "" ->
  getProperty (MediaControl.payload info) "artworkData" = Str data ->
  trim data <> "" ->
  let artwork :=
    toArtworkDataUri data
      (orStr (readStringField (MediaControl.payload info) "artworkMimeType") "image/jpeg") in
  let next :=
    committed (readStringField (MediaControl.payload info) "title")
      (readStringField (MediaControl.payload info) "artist")
      (readStringField (MediaControl.payload info) "album") artwork in
  readArtworkUrl (MediaControl.payload info) = artwork
  /\ artwork <> ""
  /\ applyLookup rt info prev menubarCache = (next, writeCachedState rt next menubarCache).
Proof.
  intros Hi Ht Ha Hne. cbv zeta.
  pose proof (readArtworkUrl_inline _ _ Ha Hne) as Hu.
  pose proof (toArtworkDataUri_nonempty data
                (orStr (readStringField (MediaControl.payload info) "artworkMimeType")
                   "image/jpeg") Hne) as Hart.
  split; [exact Hu |]. split; [exact Hart |].
  rewrite (applyLookup_track rt info prev menubarCache Hi Ht), setNowPlayingState_spec.
  rewrite Hu. apply truthyStr_true in Hart.
  assert (Hr : resolvedArtwork prev (readStringField (MediaControl.payload info) "album")
                 (toArtworkDataUri data
                    (orStr (readStringField (MediaControl.payload info) "artworkMimeType")
                       "image/jpeg"))
               = toArtworkDataUri data
                   (orStr (readStringField (MediaControl.payload info) "artworkMimeType")
                      "image/jpeg"))
    by (unfold resolvedArtwork; now rewrite Hart).
  rewrite Hr, Hart. reflexivity.
Qed.

(** X13. Write, then read: a state with status [ok] and a track that
    [writeCachedState] mirrored is what [readCachedState] returns, and what a
    command mounted over that cache shows, already initialized. *)
Theorem writeCachedState_then_read (s : NowPlayingState) (menubarCache : Cache) :
  displaysTrack s ->
  readsBack rt (stateObject s) ->
  readCachedState rt (writeCachedState rt s menubarCache) = Some s
  /\ mount rt (writeCachedState rt s menubarCache)
     = {| state := s; hasInitialized := true; inFlight := false |}.
Proof.
  intros [Hs Ht] [Hparse Hne].
  assert (Hread : readCachedState rt (writeCachedState rt s menubarCache) = Some s).
  { rewrite (proj1 (writeCachedState_gate rt s menubarCache) Hs Ht).
    unfold readCachedState. rewrite lookup_insert_eq.
    apply truthyStr_true in Hne. rewrite Hne, Hparse. cbn [negb].
    destruct s as [t a al u st err]. cbn in Hs. subst st.
    cbn [stateObject getProperty ownProperty app String.eqb Ascii.eqb Bool.eqb
           truthy typeofObject negb orb track artist album artworkUrl status error
           StatusOk truthyStr].
    destruct err; reflexivity. }
  split; [exact Hread |]. unfold mount. now rewrite Hread.
Qed.

(** X14. When every candidate is missing, a refresh shows the install hint:
    the state is blank with status [missing-media-control] and the note of the
    last candidate as its error, whatever was on display and whatever the
    eligibility cache holds; the menubar cache is not written. *)
Theorem refreshNowPlaying_shows_install_hint (c : Command) (menubarCache : Cache)
    (ls : MediaControl.LocalStorage) :
  MediaControl.platform rt = "darwin" ->
  inFlight c = false ->
  Forall (missingBinary rt) MediaControl.candidates ->
  fst (refreshNowPlaying rt c menubarCache ls)
  = ({| state := blankState StatusMissingMediaControl (Some (attemptNote rt lastCandidate));
        hasInitialized := true;
        inFlight := false |},
     menubarCache).
Proof.
  intros Hp Hf Hmiss.
  assert (Hfail : Forall (fails rt) MediaControl.candidates).
  { eapply List.Forall_impl; [| exact Hmiss]. intros b (e & E & _). now exists e. }
  pose proof (inspectNowPlaying_failure rt Hp Hfail) as Hprobe.
  assert (Hcount : length (List.filter (countsAsMissing rt) MediaControl.candidates)
                   = length MediaControl.candidates).
  { apply filter_length_all. eapply List.Forall_impl; [| exact Hmiss].
    intros b Hb. now apply countsAsMissing_iff. }
  rewrite Hcount, Nat.eqb_refl in Hprobe.
  unfold refreshNowPlaying. rewrite Hf, Hp.
  change (("darwin" =? "darwin")%string) with true. cbn [negb orb].
  destruct (inspectNowPlayingForLookup_cases rt MediaControl.track
              (Some {| MediaControl.allowCacheFallbackOnIneligible := Some true |}) ls)
    as [(p & Hpl & _ & E) | [E | (cached & _ & _ & _ & E)]].
  - rewrite Hprobe in Hpl. discriminate.
  - rewrite E, Hprobe. unfold applyLookup. cbv zeta.
    cbn [MediaControl.isNotInstalled MediaControl.withPayloadAndQuery MediaControl.error].
    rewrite setStateIfChanged_next. unfold errorOrUndefined.
    rewrite (attemptNote_nonempty rt lastCandidate); [reflexivity | | discriminate].
    rewrite List.Forall_forall in Hfail. apply Hfail. cbn. tauto.
  - rewrite E, Hprobe. unfold applyLookup. cbv zeta.
    cbn [MediaControl.isNotInstalled MediaControl.withPayloadAndQuery MediaControl.error].
    rewrite setStateIfChanged_next. unfold errorOrUndefined.
    rewrite (attemptNote_nonempty rt lastCandidate); [reflexivity | | discriminate].
    rewrite List.Forall_forall in Hfail. apply Hfail. cbn. tauto.
Qed.

End ArtworkOfPayload.

Section Normalisers.
Import Prompts.

Lemma isLowerAlnum_not_dash (a : ascii) : isLowerAlnum a = true -> Ascii.eqb a "-" = false.
Proof.
  destruct a as [[] [] [] [] [] [] [] []]; vm_compute; congruence.
Qed.

Lemma isLowerAlnum_not_space (a : ascii) : isLowerAlnum a = true -> isWhiteSpace a = false.
Proof.
  destruct a as [[] [] [] [] [] [] [] []]; vm_compute; congruence.
Qed.

Lemma isLowerAlnum_lower (a : ascii) : isLowerAlnum a = true -> lowerUnit a = a.
Proof.
  destruct a as [[] [] [] [] [] [] [] []]; vm_compute; congruence.
Qed.

Lemma lowerUnit_idempotent (a : ascii) : lowerUnit (lowerUnit a) = lowerUnit a.
Proof.
  destruct a as [[] [] [] [] [] [] [] []]; reflexivity.
Qed.

Lemma toLowerCase_idempotent (s : string) : toLowerCase (toLowerCase s) = toLowerCase s.
Proof.
  induction s as [| a s IH]; [reflexivity |].
  cbn [toLowerCase]. now rewrite lowerUnit_idempotent, IH.
Qed.

Section Separator.
Variable d : ascii.
Hypothesis d_outside : isLowerAlnum d = false.
Hypothesis d_lower : lowerUnit d = d.

Lemma eqb_separator (a : ascii) : isLowerAlnum a = true -> Ascii.eqb a d = false.
Proof.
  intros Ha. destruct (Ascii.eqb_spec a d) as [-> |]; [congruence | reflexivity].
Qed.

Lemma replaceRuns_runs (s : string) (inRun : bool) :
  runs d inRun (replaceRuns (String d "") inRun s) = true.
Proof.
  revert inRun. induction s as [| a s IH]; intros inRun; [reflexivity |].
  cbn [replaceRuns]. destruct (isLowerAlnum a) eqn:Ea.
  - cbn [runs]. now rewrite (eqb_separator a Ea), Ea, IH.
  - destruct inRun; [apply IH |].
    change (String d "" +:+ replaceRuns (String d "") true s)
      with (String d (replaceRuns (String d "") true s)).
    cbn [runs]. now rewrite Ascii.eqb_refl, IH.
Qed.

Lemma separated_runs (s : string) (afterSep : bool) :
  separated d afterSep s = true -> runs d afterSep s = true.
Proof.
  revert afterSep. induction s as [| a s IH]; intros afterSep; [reflexivity |].
  cbn [separated runs]. destruct (Ascii.eqb a d).
  - intros [H1 H2]%andb_prop. now rewrite H1, (IH _ H2).
  - intros [H1 H2]%andb_prop. now rewrite H1, (IH _ H2).
Qed.

Lemma runs_replaceRuns (s : string) (afterSep inRun : bool) :
  runs d afterSep s = true ->
  (inRun = true -> afterSep = true) ->
  replaceRuns (String d "") inRun s = s.
Proof.
  revert afterSep inRun. induction s as [| a s IH]; intros afterSep inRun; [reflexivity |].
  cbn [runs replaceRuns]. destruct (Ascii.eqb_spec a d) as [-> | Hne].
  - intros [H1 H2]%andb_prop Himp. rewrite d_outside.
    destruct afterSep; [discriminate |].
    destruct inRun; [now discriminate Himp |].
    change (String d "" +:+ replaceRuns (String d "") true s)
      with (String d (replaceRuns (String d "") true s)).
    f_equal. now apply (IH true true).
  - intros [H1 H2]%andb_prop _. rewrite H1. f_equal. now apply (IH false false).
Qed.

Lemma runs_toLowerCase (s : string) (afterSep : bool) :
  runs d afterSep s = true -> toLowerCase s = s.
Proof.
  revert afterSep. induction s as [| a s IH]; intros afterSep; [reflexivity |].
  cbn [runs toLowerCase]. destruct (Ascii.eqb_spec a d) as [-> | Hne].
  - intros [_ H2]%andb_prop. now rewrite d_lower, (IH _ H2).
  - intros [H1 H2]%andb_prop. now rewrite (isLowerAlnum_lower a H1), (IH _ H2).
Qed.

Lemma separated_nonempty (s : string) : separated d true s = true -> s <> "".
Proof. now destruct s. Qed.

End Separator.

(** *** Prompt identifiers *)

Lemma dropDashesStart_runs (s : string) (afterSep : bool) :
  runs "-" afterSep s = true -> runs "-" true (dropDashesStart s) = true.
Proof.
  revert afterSep. induction s as [| a s IH]; intros afterSep; [reflexivity |].
  cbn [runs dropDashesStart]. destruct (Ascii.eqb a "-") eqn:Ea.
  - intros [_ H2]%andb_prop. now apply (IH true).
  - intros H. cbn [runs]. now rewrite Ea.
Qed.

Lemma dropDashesEnd_separated (s : string) (afterSep : bool) :
  runs "-" afterSep s = true ->
  dropDashesEnd s = "" \/ separated "-" afterSep (dropDashesEnd s) = true.
Proof.
  revert afterSep. induction s as [| a s IH]; intros afterSep; [now left |].
  cbn [runs dropDashesEnd]. destruct (Ascii.eqb a "-") eqn:Ea.
  - intros [H1 H2]%andb_prop. destruct (IH true H2) as [E | E].
    + left. now rewrite E.
    + right. destruct (dropDashesEnd s) as [| b r]; [discriminate |].
      cbn [separated]. rewrite Ea, H1. exact E.
  - intros [H1 H2]%andb_prop. right. destruct (IH false H2) as [E | E].
    + rewrite E. cbn [separated]. now rewrite Ea, H1.
    + destruct (dropDashesEnd s) as [| b r]; cbn [separated]; rewrite Ea, H1; exact E.
Qed.

Lemma separated_dropDashesEnd (s : string) (afterSep : bool) :
  separated "-" afterSep s = true -> dropDashesEnd s = s.
Proof.
  revert afterSep. induction s as [| a s IH]; intros afterSep; [reflexivity |].
  cbn [separated dropDashesEnd]. destruct (Ascii.eqb a "-") eqn:Ea.
  - intros [_ H2]%andb_prop. rewrite (IH true H2).
    destruct s; [discriminate | reflexivity].
  - intros [_ H2]%andb_prop. rewrite (IH false H2). now destruct s.
Qed.

Lemma slug_noWhiteSpace (s : string) (afterSep : bool) :
  runs "-" afterSep s = true -> noWhiteSpace s = true.
Proof.
  revert afterSep. induction s as [| a s IH]; intros afterSep; [reflexivity |].
  cbn [runs noWhiteSpace]. destruct (Ascii.eqb_spec a "-") as [-> | Hne].
  - intros [_ H2]%andb_prop. now rewrite (IH _ H2).
  - intros [H1 H2]%andb_prop. now rewrite (isLowerAlnum_not_space a H1), (IH _ H2).
Qed.

Lemma noWhiteSpace_trimEnd (s : string) : noWhiteSpace s = true -> trimEnd s = s.
Proof.
  induction s as [| a s IH]; [reflexivity |]. cbn [noWhiteSpace trimEnd].
  intros [H1 H2]%andb_prop. rewrite (IH H2). apply negb_true_iff in H1. rewrite H1.
  now destruct s.
Qed.

Lemma noWhiteSpace_trim (s : string) : noWhiteSpace s = true -> trim s = s.
Proof.
  intros H. unfold trim.
  assert (Hs : trimStart s = s).
  { destruct s as [| a s]; [reflexivity |]. cbn [noWhiteSpace] in H.
    apply andb_prop in H as [H1 _]. apply negb_true_iff in H1. cbn [trimStart].
    now rewrite H1. }
  rewrite Hs. now apply noWhiteSpace_trimEnd.
Qed.

Lemma normalizePromptId_of_slug (s : string) : slug s = true -> normalizePromptId s = s.
Proof.
  unfold slug. intros H. pose proof (separated_runs "-" s true H) as Hr.
  unfold normalizePromptId.
  rewrite (runs_toLowerCase "-" eq_refl s true Hr).
  rewrite (noWhiteSpace_trim s (slug_noWhiteSpace s true Hr)).
  rewrite (runs_replaceRuns "-" eq_refl s true false Hr) by discriminate.
  assert (Hs : dropDashesStart s = s).
  { destruct s as [| a s]; [reflexivity |]. cbn [separated] in H. cbn [dropDashesStart].
    destruct (Ascii.eqb a "-"); [discriminate | reflexivity]. }
  rewrite Hs, (separated_dropDashesEnd s true H).
  destruct s; [discriminate | reflexivity].
Qed.

Lemma normalizePromptId_is_slug (value : string) : slug (normalizePromptId value) = true.
Proof.
  unfold normalizePromptId.
  pose proof (replaceRuns_runs "-" eq_refl (trim (toLowerCase value)) false) as H.
  apply dropDashesStart_runs in H. apply dropDashesEnd_separated in H.
  destruct H as [E | E]; [now rewrite E |].
  unfold orStr. destruct (dropDashesEnd _) as [| a r]; [discriminate | exact E].
Qed.

(** X15. A prompt identifier is always a slug: not empty, made of [a-z0-9]
    runs joined by single dashes, with no dash at either end. A slug is its
    own identifier, so normalising twice changes nothing. *)
Theorem normalizePromptId_slug (value : string) :
  slug (normalizePromptId value) = true
  /\ (forall s, slug s = true -> normalizePromptId s = s)
  /\ normalizePromptId (normalizePromptId value) = normalizePromptId value.
Proof.
  split; [apply normalizePromptId_is_slug |].
  split; [exact normalizePromptId_of_slug |].
  apply normalizePromptId_of_slug, normalizePromptId_is_slug.
Qed.

Lemma replaceRuns_outside (sep : string) (s : string) :
  (forall a, In a (list_ascii_of_string s) -> isLowerAlnum a = false) ->
  replaceRuns sep true s = "".
Proof.
  induction s as [| a s IH]; intros H; [reflexivity |].
  cbn [replaceRuns]. rewrite (H a (or_introl eq_refl)). apply IH.
  intros b Hb. apply H. now right.
Qed.

(** X16. A value without any letter or digit, the empty one first of all, gets
    the identifier [prompt]. *)
Theorem normalizePromptId_fallback (value : string) :
  (forall a, In a (list_ascii_of_string value) -> isLowerAlnum (lowerUnit a) = false) ->
  normalizePromptId value = "prompt".
Proof.
  intros H. unfold normalizePromptId.
  assert (Hall : forall s,
             (forall a, In a (list_ascii_of_string s) -> isLowerAlnum a = false) ->
             dropDashesEnd (dropDashesStart (replaceRuns "-" false s)) = "").
  { intros s Hs. destruct s as [| a s]; [reflexivity |]. cbn [replaceRuns].
    rewrite (Hs a (or_introl eq_refl)), replaceRuns_outside; [reflexivity |].
    intros b Hb. apply Hs. now right. }
  rewrite Hall; [reflexivity |].
  assert (Hlow : forall s a, In a (list_ascii_of_string (toLowerCase s)) ->
                             exists b, In b (list_ascii_of_string s) /\ a = lowerUnit b).
  { induction s as [| c s IH]; cbn; [tauto |]. intros a [<- | Ha].
    - exists c. auto.
    - destruct (IH a Ha) as (b & Hb & ->). exists b. auto. }
  assert (Hsub : forall s a, In a (list_ascii_of_string (trim s)) ->
                             In a (list_ascii_of_string s)).
  { assert (Hend : forall s a, In a (list_ascii_of_string (trimEnd s)) ->
                               In a (list_ascii_of_string s)).
    { induction s as [| c s IH]; cbn [trimEnd]; [tauto |]. intros a.
      destruct (trimEnd s) as [| e r] eqn:Et.
      - destruct (isWhiteSpace c); cbn; tauto.
      - cbn [list_ascii_of_string]. intros [<- | Ha]; [now left |]. right. now apply IH. }
    assert (Hstart : forall s a, In a (list_ascii_of_string (trimStart s)) ->
                                 In a (list_ascii_of_string s)).
    { induction s as [| c s IH]; cbn [trimStart]; [tauto |]. intros a.
      destruct (isWhiteSpace c); [| tauto]. intros Ha. right. now apply IH. }
    intros s a Ha. now apply Hstart, Hend. }
  intros a Ha. apply Hsub, Hlow in Ha. destruct Ha as (b & Hb & ->). now apply H.
Qed.

(** *** Album names *)

Lemma trimStart_runs (s : string) (afterSep : bool) :
  runs " " afterSep s = true -> runs " " true (trimStart s) = true.
Proof.
  revert afterSep. induction s as [| a s IH]; intros afterSep; [reflexivity |].
  cbn [runs trimStart]. destruct (Ascii.eqb_spec a " ") as [-> | Hne].
  - intros [_ H2]%andb_prop. now apply (IH true).
  - intros [H1 H2]%andb_prop. rewrite (isLowerAlnum_not_space a H1). cbn [runs].
    destruct (Ascii.eqb_spec a " "); [contradiction |]. now rewrite H1, H2.
Qed.

Lemma trimEnd_separated (s : string) (afterSep : bool) :
  runs " " afterSep s = true ->
  trimEnd s = "" \/ separated " " afterSep (trimEnd s) = true.
Proof.
  revert afterSep. induction s as [| a s IH]; intros afterSep; [now left |].
  cbn [runs trimEnd]. destruct (Ascii.eqb_spec a " ") as [-> | Hne].
  - intros [H1 H2]%andb_prop. destruct (IH true H2) as [E | E].
    + left. now rewrite E.
    + right. destruct (trimEnd s) as [| b r]; [discriminate |].
      cbn [separated]. cbn [Ascii.eqb Bool.eqb]. rewrite H1. exact E.
  - intros [H1 H2]%andb_prop. right.
    assert (Ea : Ascii.eqb a " " = false) by (destruct (Ascii.eqb_spec a " "); congruence).
    destruct (IH false H2) as [E | E].
    + rewrite E, (isLowerAlnum_not_space a H1). cbn [separated]. now rewrite Ea, H1.
    + destruct (trimEnd s) as [| b r].
      * rewrite (isLowerAlnum_not_space a H1). cbn [separated]. now rewrite Ea, H1.
      * cbn [separated]. rewrite Ea, H1. exact E.
Qed.

Lemma separated_trimEnd (s : string) (afterSep : bool) :
  separated " " afterSep s = true -> trimEnd s = s.
Proof.
  revert afterSep. induction s as [| a s IH]; intros afterSep; [reflexivity |].
  cbn [separated trimEnd]. destruct (Ascii.eqb_spec a " ") as [-> | Hne].
  - intros [_ H2]%andb_prop. rewrite (IH true H2). destruct s; [discriminate | reflexivity].
  - intros [H1 H2]%andb_prop. rewrite (IH false H2), (isLowerAlnum_not_space a H1).
    now destruct s.
Qed.

Lemma normalize_shape (value : string) :
  AlbumCommand.normalize value = "" \/ words (AlbumCommand.normalize value) = true.
Proof.
  unfold AlbumCommand.normalize, trim, words.
  pose proof (replaceRuns_runs " " eq_refl (toLowerCase value) false) as H.
  apply trimStart_runs in H. now apply trimEnd_separated in H.
Qed.

Lemma normalize_of_words (s : string) : words s = true -> AlbumCommand.normalize s = s.
Proof.
  unfold words. intros H. pose proof (separated_runs " " s true H) as Hr.
  unfold AlbumCommand.normalize.
  rewrite (runs_toLowerCase " " eq_refl s true Hr).
  rewrite (runs_replaceRuns " " eq_refl s true false Hr) by discriminate.
  unfold trim.
  assert (Hs : trimStart s = s).
  { destruct s as [| a s]; [reflexivity |]. cbn [separated] in H. cbn [trimStart].
    destruct (Ascii.eqb_spec a " ") as [-> | Hne]; [discriminate |].
    apply andb_prop in H as [H1 _]. now rewrite (isLowerAlnum_not_space a H1). }
  rewrite Hs. now apply (separated_trimEnd s true).
Qed.

(** X17. A normalised name is empty or is [a-z0-9] words joined by single
    spaces; such words are their own normal form, so normalising twice changes
    nothing; and the case of the letters A-Z does not matter. *)
Theorem normalize_words (value : string) :
  (AlbumCommand.normalize value = "" \/ words (AlbumCommand.normalize value) = true)
  /\ (forall s, words s = true -> AlbumCommand.normalize s = s)
  /\ AlbumCommand.normalize (AlbumCommand.normalize value) = AlbumCommand.normalize value
  /\ AlbumCommand.normalize (toLowerCase value) = AlbumCommand.normalize value.
Proof.
  split; [apply normalize_shape |]. split; [exact normalize_of_words |]. split.
  - destruct (normalize_shape value) as [E | E].
    + now rewrite E.
    + now apply normalize_of_words.
  - unfold AlbumCommand.normalize. now rewrite toLowerCase_idempotent.
Qed.

End Normalisers.

Section BestAlbum.
Import AlbumCommand.
Variables normalizedTargetAlbum normalizedTargetArtist : string.

#[local] Abbreviation scoreOf := (score normalizedTargetAlbum normalizedTargetArtist).
#[local] Abbreviation loop := (pickLoop normalizedTargetAlbum normalizedTargetArtist).

Lemma score_range (result : AlbumResult) :
  0 <= scoreOf result <= 120
  /\ (100 <= scoreOf result ->
      normalize (candidateAlbum result) = normalizedTargetAlbum).
Proof.
  unfold score. cbv zeta.
  destruct (String.eqb_spec (normalize (candidateAlbum result)) normalizedTargetAlbum)
    as [E | E].
  - destruct (truthyStr normalizedTargetArtist && _); split; (lia || trivial).
  - destruct (truthyStr normalizedTargetAlbum && _);
      destruct (truthyStr normalizedTargetArtist && _); split; lia.
Qed.

Lemma score_exact (result : AlbumResult) :
  normalize (candidateAlbum result) = normalizedTargetAlbum -> 100 <= scoreOf result.
Proof.
  intros E. unfold score. cbv zeta. rewrite E, String.eqb_refl.
  destruct (truthyStr normalizedTargetArtist && _); lia.
Qed.

Lemma pickLoop_some (results : list AlbumResult) (b : AlbumResult) (bs : Z) :
  exists r sc,
    loop results (Some (b, bs)) = Some (r, sc)
    /\ ((r = b /\ sc = bs
         /\ forall x, In x results -> usable x = true -> scoreOf x <= bs)
        \/ (sc = scoreOf r /\ bs < sc
            /\ exists pre post,
                 results = pre ++ r :: post
                 /\ usable r = true
                 /\ (forall x, In x pre -> usable x = true -> scoreOf x < sc)
                 /\ (forall x, In x post -> usable x = true -> scoreOf x <= sc))).
Proof.
  revert b bs. induction results as [| x rest IH]; intros b bs.
  - exists b, bs. split; [reflexivity |]. left. repeat split. intros x [].
  - cbn [pickLoop]. fold (usable x). rewrite <- negb_andb. fold (usable x).
    destruct (usable x) eqn:Eu; cbn [negb].
    + cbv zeta. destruct (Z.ltb_spec bs (scoreOf x)) as [Hlt | Hge].
      * destruct (IH x (scoreOf x)) as (r & sc & E & [(-> & -> & Hall)
                          | (-> & Hlt' & pre & post & -> & Hu & Hpre & Hpost)]).
        -- exists x, (scoreOf x). split; [exact E |]. right.
           split; [reflexivity |]. split; [exact Hlt |]. exists [], rest.
           repeat split; try assumption; try (intros y []).
        -- exists r, (scoreOf r). split; [exact E |]. right.
           split; [reflexivity |]. split; [lia |]. exists (x :: pre), post.
           split; [reflexivity |]. split; [exact Hu |].
           split; [| exact Hpost].
           intros y [<- | Hy] Hyu; [lia | now apply Hpre].
      * destruct (IH b bs) as (r & sc & E & [(-> & -> & Hall)
                          | (-> & Hlt' & pre & post & -> & Hu & Hpre & Hpost)]).
        -- exists b, bs. split; [exact E |]. left. repeat split.
           intros y [<- | Hy] Hyu; [exact Hge | now apply Hall].
        -- exists r, (scoreOf r). split; [exact E |]. right.
           split; [reflexivity |]. split; [exact Hlt' |]. exists (x :: pre), post.
           split; [reflexivity |]. split; [exact Hu |].
           split; [| exact Hpost].
           intros y [<- | Hy] Hyu; [lia | now apply Hpre].
    + destruct (IH b bs) as (r & sc & E & [(-> & -> & Hall)
                          | (-> & Hlt' & pre & post & -> & Hu & Hpre & Hpost)]).
      * exists b, bs. split; [exact E |]. left. repeat split.
        intros y [<- | Hy] Hyu; [congruence | now apply Hall].
      * exists r, (scoreOf r). split; [exact E |]. right.
        split; [reflexivity |]. split; [exact Hlt' |]. exists (x :: pre), post.
        split; [reflexivity |]. split; [exact Hu |].
        split; [| exact Hpost].
        intros y [<- | Hy] Hyu; [congruence | now apply Hpre].
Qed.

Lemma pickLoop_none (results : list AlbumResult) :
  match loop results None with
  | None => forall x, In x results -> usable x = false
  | Some (r, sc) =>
      sc = scoreOf r
      /\ exists pre post,
           results = pre ++ r :: post
           /\ usable r = true
           /\ (forall x, In x pre -> usable x = true -> scoreOf x < sc)
           /\ (forall x, In x post -> usable x = true -> scoreOf x <= sc)
  end.
Proof.
  induction results as [| x rest IH].
  - intros x [].
  - cbn [pickLoop]. rewrite <- negb_andb. fold (usable x).
    destruct (usable x) eqn:Eu; cbn [negb].
    + cbv zeta.
      destruct (pickLoop_some rest x (scoreOf x))
        as (r & sc & E & [(-> & -> & Hall)
                          | (-> & Hlt' & pre & post & -> & Hu & Hpre & Hpost)]);
        rewrite E.
      * split; [reflexivity |]. exists [], rest. repeat split; try assumption.
        intros y [].
      * split; [reflexivity |]. exists (x :: pre), post.
        split; [reflexivity |]. split; [exact Hu |]. split; [| exact Hpost].
        intros y [<- | Hy] Hyu; [lia | now apply Hpre].
    + destruct (loop rest None) as [[r sc] |].
      * destruct IH as (-> & pre & post & -> & Hu & Hpre & Hpost).
        split; [reflexivity |]. exists (x :: pre), post.
        split; [reflexivity |]. split; [exact Hu |]. split; [| exact Hpost].
        intros y [<- | Hy] Hyu; [congruence | now apply Hpre].
      * intros y [<- | Hy]; [exact Eu | now apply IH].
Qed.

End BestAlbum.

Section BestAlbumResult.
Import AlbumCommand.

(** X18. The result picked is the first of the usable results with the highest
    score, and that score is positive: it has a name and an id, and it matches
    the album or the artist looked for. Nothing is picked exactly when no
    usable result scores. *)
Theorem pickBestAlbumResult_first_best (results : list AlbumResult)
    (targetAlbumName targetArtistName : string) :
  match pickBestAlbumResult results targetAlbumName targetArtistName with
  | Some r =>
      firstBest targetAlbumName targetArtistName results r
      /\ 0 < scoreFor targetAlbumName targetArtistName r
  | None =>
      forall x, In x results -> usable x = true ->
                scoreFor targetAlbumName targetArtistName x = 0
  end.
Proof.
  unfold pickBestAlbumResult. cbv zeta.
  pose proof (pickLoop_none (normalize targetAlbumName) (normalize targetArtistName) results)
    as H.
  destruct (pickLoop _ _ results None) as [[r sc] |].
  - destruct H as (-> & pre & post & -> & Hu & Hpre & Hpost).
    fold (scoreFor targetAlbumName targetArtistName r) in *.
    destruct (Z.ltb_spec 0 (scoreFor targetAlbumName targetArtistName r)) as [Hpos | Hle].
    + split; [| exact Hpos]. exists pre, post. repeat split; assumption.
    + intros x Hx Hxu.
      pose proof (proj1 (score_range (normalize targetAlbumName)
                           (normalize targetArtistName) x)) as Hx0.
      fold (scoreFor targetAlbumName targetArtistName x) in Hx0.
      pose proof (proj1 (score_range (normalize targetAlbumName)
                           (normalize targetArtistName) r)) as Hr0.
      fold (scoreFor targetAlbumName targetArtistName r) in Hr0.
      apply in_app_or in Hx as [Hx | [<- | Hx]].
      * specialize (Hpre x Hx Hxu). unfold scoreFor in *. lia.
      * lia.
      * specialize (Hpost x Hx Hxu). unfold scoreFor in *. lia.
  - intros x Hx Hxu. rewrite (H x Hx) in Hxu. discriminate.
Qed.

(** X19. When some usable result has the album looked for, up to
    normalisation, the result picked has it too: an album that only contains
    the name, or a match of the artist alone, never wins over it. *)
Theorem pickBestAlbumResult_prefers_exact_album (results : list AlbumResult)
    (targetAlbumName targetArtistName : string) (x : AlbumResult) :
  In x results ->
  usable x = true ->
  normalize (candidateAlbum x) = normalize targetAlbumName ->
  exists r,
    pickBestAlbumResult results targetAlbumName targetArtistName = Some r
    /\ In r results
    /\ usable r = true
    /\ normalize (candidateAlbum r) = normalize targetAlbumName.
Proof.
  intros Hx Hxu Hexact. unfold pickBestAlbumResult. cbv zeta.
  pose proof (pickLoop_none (normalize targetAlbumName) (normalize targetArtistName) results)
    as H.
  pose proof (score_exact (normalize targetAlbumName) (normalize targetArtistName) x Hexact)
    as Hx100.
  destruct (pickLoop _ _ results None) as [[r sc] |].
  - destruct H as (-> & pre & post & -> & Hu & Hpre & Hpost).
    assert (Hr100 : 100 <= score (normalize targetAlbumName) (normalize targetArtistName) r).
    { apply in_app_or in Hx as [Hx | [<- | Hx]].
      - specialize (Hpre x Hx Hxu). lia.
      - exact Hx100.
      - specialize (Hpost x Hx Hxu). lia. }
    exists r. destruct (Z.ltb_spec 0 (score (normalize targetAlbumName)
                                        (normalize targetArtistName) r)); [| lia].
    split; [reflexivity |]. split; [apply in_or_app; right; now left |].
    split; [exact Hu |].
    now apply (proj2 (score_range (normalize targetAlbumName)
                        (normalize targetArtistName) r)).
  - rewrite (H x Hx) in Hxu. discriminate.
Qed.

End BestAlbumResult.

Section AlbumDetection.
Import AlbumCommand.
Variable rt : MediaControl.Runtime.

#[local] Abbreviation probe := (MediaControl.inspectNowPlaying rt).
#[local] Abbreviation lookup :=
  (MediaControl.inspectNowPlayingForLookup rt MediaControl.album None).

(** The cells after a lookup that carries a payload with an album. *)
Lemma refreshDetection_found (prev : Detection) (ls ls' : MediaControl.LocalStorage)
    (p : value) :
  MediaControl.queryForLookupKind p MediaControl.album <> None ->
  lookup ls
  = (MediaControl.Returned
       (MediaControl.withPayloadAndQuery probe p
          (MediaControl.queryForLookupKind p MediaControl.album)), ls') ->
  readStringField p "album" <> ""
  /\ MediaControl.queryForLookupKind p MediaControl.album = Some (readStringField p "album")
  /\ refreshDetection rt prev ls
     = (found (readStringField p "album") (readStringField p "artist"), ls').
Proof.
  intros Hq E. rewrite queryForLookupKind_album in Hq.
  assert (Ha : MediaControl.formatNowPlayingAlbumSearchQuery p
               = Some (readStringField p "album")
               /\ truthyStr (readStringField p "album") = true).
  { unfold MediaControl.formatNowPlayingAlbumSearchQuery in *. cbv zeta in *.
    change (MediaControl.readStringField p "album") with (readStringField p "album") in *.
    destruct (truthyStr (readStringField p "album")); [now split | now destruct Hq]. }
  destruct Ha as [Ha Ht].
  split; [now apply truthyStr_true |].
  split; [now rewrite queryForLookupKind_album |].
  unfold refreshDetection. rewrite E. cbv zeta.
  cbn [MediaControl.withPayloadAndQuery MediaControl.payload].
  rewrite Ha. cbn [MediaControl.truthyQuery textOfQuery]. now rewrite Ht.
Qed.

(** The cells after a lookup without payload. *)
Lemma refreshDetection_not_found (prev : Detection) (ls ls' : MediaControl.LocalStorage) :
  lookup ls
  = (MediaControl.Returned (MediaControl.withPayloadAndQuery probe Null None), ls') ->
  refreshDetection rt prev ls
  = ({| searchText := "";
        isDetectingTrack := false;
        trackDetectionError :=
          if MediaControl.isNotInstalled probe
          then errorOr (MediaControl.error probe) (Some "No now-playing track detected")
          else errorOr (MediaControl.error probe) None;
        isMediaControlMissing := MediaControl.isNotInstalled probe;
        isMediaControlInstalled := negb (MediaControl.isNotInstalled probe);
        targetAlbumName := "";
        targetArtistName := "" |}, ls').
Proof.
  intros E. unfold refreshDetection. rewrite E. cbv zeta.
  cbn [MediaControl.withPayloadAndQuery MediaControl.payload MediaControl.isNotInstalled
         MediaControl.error].
  change (MediaControl.truthyQuery (MediaControl.formatNowPlayingAlbumSearchQuery Null))
    with false.
  now destruct (MediaControl.isNotInstalled probe).
Qed.

(** X20. Whatever the cells held, a detection ends with the spinner off and
    with the search text equal to the album looked for, which is the query of
    the lookup. With a search text the cells are those of a found album: no
    error and neither hint. Without one, exactly one of the two hints is set,
    by what the probe said about the installation. *)
Theorem refreshDetection_settles (prev : Detection) (ls : MediaControl.LocalStorage) :
  let st := fst (refreshDetection rt prev ls) in
  isDetectingTrack st = false
  /\ targetAlbumName st = searchText st
  /\ (exists info, fst (lookup ls) = MediaControl.Returned info
                   /\ searchText st = textOfQuery (MediaControl.query info))
  /\ (searchText st <> "" -> st = found (searchText st) (targetArtistName st))
  /\ (searchText st = "" ->
      targetArtistName st = ""
      /\ isMediaControlMissing st = MediaControl.isNotInstalled probe
      /\ isMediaControlInstalled st = negb (MediaControl.isNotInstalled probe))
  /\ forall prev', fst (refreshDetection rt prev' ls) = st.
Proof.
  cbv zeta.
  destruct (inspectNowPlayingForLookup_cases rt MediaControl.album None ls)
    as [(p & _ & Hq & E) | [E | (cached & _ & Hq & _ & E)]].
  - destruct (refreshDetection_found prev ls _ p Hq E) as (Hne & Eq & Er).
    rewrite Er, E. cbn [fst found searchText targetAlbumName targetArtistName
                          isDetectingTrack].
    split; [reflexivity |]. split; [reflexivity |]. split; [| split; [| split]].
    + eexists. split; [reflexivity |]. cbn [MediaControl.withPayloadAndQuery
                                              MediaControl.query]. now rewrite Eq.
    + reflexivity.
    + intros H. now destruct Hne.
    + intros prev'. now destruct (refreshDetection_found prev' ls _ p Hq E) as (_ & _ & ->).
  - rewrite (refreshDetection_not_found prev ls ls E), E.
    cbn [fst searchText targetAlbumName targetArtistName isDetectingTrack
           isMediaControlMissing isMediaControlInstalled].
    split; [reflexivity |]. split; [reflexivity |]. split; [| split; [| split]].
    + eexists. split; [reflexivity |]. reflexivity.
    + intros H. now destruct H.
    + intros _. now repeat split.
    + intros prev'. now rewrite (refreshDetection_not_found prev' ls ls E).
  - destruct (refreshDetection_found prev ls _ cached Hq E) as (Hne & Eq & Er).
    rewrite Er, E. cbn [fst found searchText targetAlbumName targetArtistName
                          isDetectingTrack].
    split; [reflexivity |]. split; [reflexivity |]. split; [| split; [| split]].
    + eexists. split; [reflexivity |]. cbn [MediaControl.withPayloadAndQuery
                                              MediaControl.query]. now rewrite Eq.
    + reflexivity.
    + intros H. now destruct Hne.
    + intros prev'.
      now destruct (refreshDetection_found prev' ls _ cached Hq E) as (_ & _ & ->).
Qed.

(** X21. When every candidate is missing, the album command still finds the
    album of the last eligible record: the cached album is searched for and
    the install hint is not shown. Only without such a record does it show the
    hint, with the note of the last candidate as the error. *)
Theorem refreshDetection_not_installed (prev : Detection)
    (ls : MediaControl.LocalStorage) :
  MediaControl.platform rt = "darwin" ->
  Forall (missingBinary rt) MediaControl.candidates ->
  let st := fst (refreshDetection rt prev ls) in
  (forall cached,
      fst (MediaControl.readEligibleMedia rt MediaControl.album ls)
      = MediaControl.Returned (Some cached) ->
      readStringField cached "album" <> "" ->
      st = found (readStringField cached "album") (readStringField cached "artist"))
  /\ ((forall cached,
         fst (MediaControl.readEligibleMedia rt MediaControl.album ls)
         = MediaControl.Returned (Some cached) ->
         readStringField cached "album" = "") ->
      st = {| searchText := "";
              isDetectingTrack := false;
              trackDetectionError := Some (attemptNote rt lastCandidate);
              isMediaControlMissing := true;
              isMediaControlInstalled := false;
              targetAlbumName := "";
              targetArtistName := "" |}).
Proof.
  intros Hp Hmiss. cbv zeta.
  assert (Hfail : Forall (fails rt) MediaControl.candidates).
  { eapply List.Forall_impl; [| exact Hmiss]. intros b (e & E & _). now exists e. }
  pose proof (inspectNowPlaying_failure rt Hp Hfail) as Hprobe.
  assert (Hcount : length (List.filter (countsAsMissing rt) MediaControl.candidates)
                   = length MediaControl.candidates).
  { apply filter_length_all. eapply List.Forall_impl; [| exact Hmiss].
    intros b Hb. now apply countsAsMissing_iff. }
  rewrite Hcount, Nat.eqb_refl in Hprobe.
  assert (Hnote : truthyStr (attemptNote rt lastCandidate) = true).
  { apply attemptNote_nonempty; [| discriminate].
    rewrite List.Forall_forall in Hfail. apply Hfail. cbn. tauto. }
  assert (Hlive : MediaControl.asPayloadRecord (MediaControl.payload probe) = None)
    by now rewrite Hprobe.
  pose proof (lookup_no_live_payload rt MediaControl.album None ls Hlive) as E.
  unfold answerFromCache in E. cbv zeta in E.
  split.
  - intros cached Hr Hne. rewrite Hr in E.
    assert (Hq : MediaControl.queryForLookupKind cached MediaControl.album <> None).
    { rewrite queryForLookupKind_album.
      unfold MediaControl.formatNowPlayingAlbumSearchQuery. cbv zeta.
      change (MediaControl.readStringField cached "album")
        with (readStringField cached "album").
      apply truthyStr_true in Hne. now rewrite Hne. }
    destruct (MediaControl.truthyQuery
                (MediaControl.queryForLookupKind cached MediaControl.album)) eqn:Et.
    + now destruct (refreshDetection_found prev ls ls cached Hq E) as (_ & _ & ->).
    + apply queryForLookupKind_falsy in Et. now destruct Hq.
  - intros Hnone.
    assert (E' : lookup ls
                 = (MediaControl.Returned
                      (MediaControl.withPayloadAndQuery probe Null None), ls)).
    { rewrite E.
      destruct (fst (MediaControl.readEligibleMedia rt MediaControl.album ls))
        as [[cached |] | e] eqn:Er; try reflexivity.
      destruct (MediaControl.truthyQuery
                  (MediaControl.queryForLookupKind cached MediaControl.album)) eqn:Et;
        [| reflexivity].
      exfalso. apply queryForLookupKind_truthy in Et. apply Et.
      rewrite queryForLookupKind_album.
      unfold MediaControl.formatNowPlayingAlbumSearchQuery. cbv zeta.
      change (MediaControl.readStringField cached "album")
        with (readStringField cached "album").
      now rewrite (Hnone cached eq_refl). }
    rewrite (refreshDetection_not_found prev ls ls E'), Hprobe.
    cbn [fst MediaControl.isNotInstalled MediaControl.error negb errorOr].
    now rewrite Hnote.
Qed.

End AlbumDetection.

Section ReleaseDates.
Import ArtistBio.

Lemma toReleaseSortValue_released (album : Album) (y m d : Z) :
  releasedOn album y m d ->
  calendarDate y m d ->
  toReleaseSortValue album = y * 10000 + m * 100 + d.
Proof.
  unfold releasedOn, calendarDate, toReleaseSortValue, yearFromParts.
  intros -> (Hy & Hm & Hd). cbn [year month day orOne].
  destruct (Z.eqb_spec y 0); [lia |]. destruct (Z.eqb_spec m 0); [lia |].
  destruct (Z.eqb_spec d 0); [lia |]. reflexivity.
Qed.

(** X22. On albums dated by their components, the sort value orders as the
    calendar does: one album sorts before another exactly when its release
    date is the earlier one. *)
Theorem toReleaseSortValue_chronological (a b : Album) (y m d y' m' d' : Z) :
  releasedOn a y m d ->
  releasedOn b y' m' d' ->
  calendarDate y m d ->
  calendarDate y' m' d' ->
  toReleaseSortValue a < toReleaseSortValue b <-> before y m d y' m' d'.
Proof.
  intros Ha Hb Hd Hd'.
  rewrite (toReleaseSortValue_released a y m d Ha Hd),
    (toReleaseSortValue_released b y' m' d' Hb Hd').
  unfold calendarDate, before in *. lia.
Qed.

Lemma isDigit_value (a : ascii) :
  isDigit a = true -> 0 <= Z.of_N (N_of_ascii a) - 48 <= 9.
Proof.
  unfold isDigit. cbv zeta. intros [H1 H2]%andb_prop.
  apply N.leb_le in H1, H2. lia.
Qed.

Lemma matchFourDigits_range (s r : string) :
  matchFourDigits s = Some r -> 0 <= digitsToNumber r <= 9999.
Proof.
  induction s as [| a s IH]; [discriminate |]. cbn [matchFourDigits].
  destruct s as [| b [| c [| d t]]]; try discriminate.
  destruct (isDigit a && isDigit b && isDigit c && isDigit d) eqn:E; [| exact IH].
  apply andb_prop in E as [E Hd]. apply andb_prop in E as [E Hc].
  apply andb_prop in E as [Ha Hb]. intros [= <-].
  apply isDigit_value in Ha, Hb, Hc, Hd.
  unfold digitsToNumber. cbn [list_ascii_of_string fold_left]. lia.
Qed.

(** X23. An album without a year, in its components or in its display date,
    gets the largest sort value, and every album with a date of the calendar
    or with a year in its display date sorts before it. *)
Theorem toReleaseSortValue_undated_last (b : Album) :
  noYear b ->
  yearFromDisplay b = None ->
  toReleaseSortValue b = MAX_SAFE_INTEGER
  /\ (forall a y m d,
        releasedOn a y m d -> calendarDate y m d ->
        toReleaseSortValue a < toReleaseSortValue b)
  /\ (forall a,
        noYear a -> yearFromDisplay a <> None ->
        toReleaseSortValue a < toReleaseSortValue b).
Proof.
  intros Hy Hd.
  assert (Hb : toReleaseSortValue b = MAX_SAFE_INTEGER).
  { unfold toReleaseSortValue. cbv zeta. rewrite Hd. now destruct Hy as [-> | ->]. }
  rewrite Hb. split; [reflexivity |]. split.
  - intros a y m d Ha Hc. rewrite (toReleaseSortValue_released a y m d Ha Hc).
    unfold calendarDate, MAX_SAFE_INTEGER in *. lia.
  - intros a Hay Had.
    assert (Ha : exists r, yearFromDisplay a = Some r
                           /\ toReleaseSortValue a = digitsToNumber r * 10000 + 101).
    { unfold toReleaseSortValue. cbv zeta.
      destruct (yearFromDisplay a) as [r |]; [| now destruct Had].
      exists r. split; [reflexivity |]. now destruct Hay as [-> | ->]. }
    destruct Ha as (r & Er & ->). unfold yearFromDisplay in Er.
    destruct (release_date_for_display a) as [s |]; [| discriminate].
    pose proof (matchFourDigits_range s r Er). unfold MAX_SAFE_INTEGER. lia.
Qed.

End ReleaseDates.

(** ** Instances *)

Section Instances.
Import Menubar MediaControl.

Lemma gone_candidates_missing :
  Forall (missingBinary Samples.goneRuntime) candidates.
Proof.
  repeat constructor; (eexists; split; [reflexivity | reflexivity]).
Defined.

Lemma gone_candidates_fail :
  Forall (fails Samples.goneRuntime) candidates.
Proof.
  repeat constructor; (eexists; reflexivity).
Defined.

(** X1, an instance. The provider of Homebrew answers after the bare command
    failed. *)
Lemma inspectNowPlaying_first_success_witness :
  binary (inspectNowPlaying Samples.homebrewRuntime) = Some "/opt/homebrew/bin/media-control"
  /\ attempts (inspectNowPlaying Samples.homebrewRuntime)
     = ["media-control: spawn media-control ENOENT"]
  /\ payload (inspectNowPlaying Samples.homebrewRuntime) = Scenario.songPayload.
Proof.
  assert (Hpre : Forall (fails Samples.homebrewRuntime) ["media-control"])
    by (repeat constructor; eexists; reflexivity).
  rewrite (inspectNowPlaying_first_success Samples.homebrewRuntime ["media-control"]
             ["/usr/local/bin/media-control"; "/opt/local/bin/media-control";
              "/opt/homebrew/opt/media-control/bin/media-control";
              "/usr/local/opt/media-control/bin/media-control"]
             "/opt/homebrew/bin/media-control"
             (Scenario.textOf Scenario.songPayload) "" Scenario.songPayload
             eq_refl eq_refl Hpre eq_refl).
  repeat split.
Defined.

(** X2, an instance. No candidate exists: six notes, the last one is the
    error. *)
Lemma inspectNowPlaying_all_fail_witness :
  platform Samples.goneRuntime = "darwin"
  /\ Forall (fails Samples.goneRuntime) candidates
  /\ error (inspectNowPlaying Samples.goneRuntime)
     = Some (attemptNote Samples.goneRuntime lastCandidate).
Proof.
  split; [reflexivity |]. split; [exact gone_candidates_fail |].
  exact (proj1 (proj2 (proj2 (proj2 (proj2 (proj2
           (inspectNowPlaying_all_fail Samples.goneRuntime eq_refl
              gone_candidates_fail))))))).
Defined.

Lemma homebrew_reads_back :
  readsBack Samples.homebrewRuntime (cachedRecord Samples.homebrewRuntime Scenario.songPayload).
Proof. split; [reflexivity | discriminate]. Defined.

Lemma empty_storage_healthy : healthy (Scenario.storage []).
Proof. split; reflexivity. Defined.

Lemma saving_reads_back :
  readsBack Samples.savingRuntime (cachedRecord Samples.savingRuntime Scenario.songPayload)
  /\ readsBack Samples.savingRuntime
       (cachedRecord (later Samples.savingRuntime Samples.homebrewOnly 1771977660000)
          Scenario.songPayload).
Proof. split; (split; [reflexivity | discriminate]). Defined.

(** X7, an instance. The song is saved into an empty store, and again a
    minute later: it is read back, and the entry holds the later record. *)
Lemma saveEligibleMedia_then_read_witness :
  let rt' := later Samples.savingRuntime Samples.homebrewOnly 1771977660000 in
  let once :=
    snd (saveEligibleMedia Samples.savingRuntime track Scenario.songPayload
           (Scenario.storage [])) in
  let twice := snd (saveEligibleMedia rt' track Scenario.songPayload once) in
  fst (readEligibleMedia rt' track twice) = Returned (Some Scenario.songPayload)
  /\ items twice !! CACHE_KEYS track
     = Some (StoredString (Scenario.textOf Samples.songRecordLater))
  /\ items once !! CACHE_KEYS track
     = Some (StoredString (Scenario.textOf Samples.songRecordNow)).
Proof.
  cbv zeta.
  destruct (saveEligibleMedia_then_read Samples.savingRuntime track (Scenario.storage [])
              Scenario.songPayload Samples.homebrewOnly 1771977660000
              empty_storage_healthy (proj1 saving_reads_back) (proj2 saving_reads_back)
              eq_refl) as (_ & Hread & Honce & Htwice).
  split; [exact Hread |]. split.
  - rewrite Htwice. apply lookup_insert_eq.
  - rewrite Honce. apply lookup_insert_eq.
Defined.

(** X8, an instance. Saving for the track lookup leaves the record of the
    album lookup. *)
Lemma saveEligibleMedia_other_kind_witness :
  track <> album
  /\ fst (readEligibleMedia Samples.homebrewRuntime album
            (snd (saveEligibleMedia Samples.homebrewRuntime track Scenario.untitledAlbum
                    Samples.albumStorage)))
     = fst (readEligibleMedia Samples.homebrewRuntime album Samples.albumStorage).
Proof.
  assert (H : track <> album) by discriminate.
  split; [exact H |].
  exact (saveEligibleMedia_other_kind Samples.homebrewRuntime track album
           Samples.albumStorage Scenario.untitledAlbum H).
Defined.

(** X9, an instance. The song is found, then the provider is removed: the next
    lookup still answers with the song. *)
Lemma lookup_falls_back_to_last_eligible_witness :
  exists info,
    fst (inspectNowPlayingForLookup
           (later Samples.homebrewRuntime Scenario.notInstalled 1771977660000) track None
           (snd (inspectNowPlayingForLookup Samples.homebrewRuntime track None
                   (Scenario.storage []))))
    = Returned info
    /\ payload info = Scenario.songPayload
    /\ query info = Some "Song Artist".
Proof.
  assert (Hq : queryForLookupKind Scenario.songPayload track <> None) by discriminate.
  destruct (lookup_falls_back_to_last_eligible Samples.homebrewRuntime track None None
              (Scenario.storage []) Scenario.songPayload Scenario.notInstalled
              1771977660000 empty_storage_healthy eq_refl Hq homebrew_reads_back eq_refl)
    as (info & E & Hp & Hquery).
  exists info. rewrite E. repeat split; assumption.
Defined.

(** X11, an instance. The song carries no artwork. *)
Lemma readArtworkUrl_without_artwork_witness :
  readArtworkUrl Scenario.songPayload = "".
Proof.
  apply readArtworkUrl_without_artwork.
  - intros key s Hk.
    repeat (destruct Hk as [<- | Hk]; [discriminate |]). destruct Hk.
  - intros props. discriminate.
Defined.

(** X12, an instance. Track "B" arrives with inline artwork while "A" is on
    display: it is committed with a data URI. *)
Lemma applyLookup_inline_artwork_commits_witness :
  fst (applyLookup Scenario.runtimeB Samples.lookupInline Scenario.shownA ∅)
  = committed "B" "" "X" "data:image/jpeg;base64,QUJD".
Proof.
  assert (Ht : Menubar.readStringField (payload Samples.lookupInline) "title" <> "")
    by discriminate.
  assert (Hd : trim "QUJD" <> "") by discriminate.
  destruct (applyLookup_inline_artwork_commits Scenario.runtimeB Samples.lookupInline
              Scenario.shownA ∅ "QUJD" eq_refl Ht eq_refl Hd) as (_ & _ & E).
  rewrite E. reflexivity.
Defined.

(** X13, an instance. The state that shows track "A" is read back from the
    cache. *)
Lemma writeCachedState_then_read_witness :
  displaysTrack Scenario.shownA
  /\ readsBack Samples.stateRuntime (stateObject Scenario.shownA)
  /\ readCachedState Samples.stateRuntime
       (writeCachedState Samples.stateRuntime Scenario.shownA ∅)
     = Some Scenario.shownA.
Proof.
  assert (Hd : displaysTrack Scenario.shownA) by (split; [reflexivity | discriminate]).
  assert (Hr : readsBack Samples.stateRuntime (stateObject Scenario.shownA))
    by (split; [reflexivity | discriminate]).
  split; [exact Hd |]. split; [exact Hr |].
  exact (proj1 (writeCachedState_then_read Samples.stateRuntime Scenario.shownA ∅ Hd Hr)).
Defined.

(** X14, an instance. No candidate exists while track "A" is on display and
    the song is cached: the refresh shows the install hint. *)
Lemma refreshNowPlaying_shows_install_hint_witness :
  platform Samples.goneRuntime = "darwin"
  /\ inFlight Scenario.mountedA = false
  /\ Forall (missingBinary Samples.goneRuntime) candidates
  /\ status (state (fst (fst (refreshNowPlaying Samples.goneRuntime Scenario.mountedA ∅
                                Scenario.songStorage))))
     = StatusMissingMediaControl.
Proof.
  split; [reflexivity |]. split; [reflexivity |]. split; [exact gone_candidates_missing |].
  rewrite (refreshNowPlaying_shows_install_hint Samples.goneRuntime Scenario.mountedA ∅
             Scenario.songStorage eq_refl eq_refl gone_candidates_missing).
  reflexivity.
Defined.

(** X16, an instance. Punctuation alone gives the identifier [prompt]. *)
Lemma normalizePromptId_fallback_witness :
  Prompts.normalizePromptId " ?! " = "prompt".
Proof.
  apply normalizePromptId_fallback. intros a Ha.
  repeat (destruct Ha as [<- | Ha]; [reflexivity |]). destruct Ha.
Defined.

(** X19, an instance. The album by its name wins over the sessions by the
    artist. *)
Lemma pickBestAlbumResult_prefers_exact_album_witness :
  In Samples.shouted [Samples.sessions; Samples.shouted]
  /\ usable Samples.shouted = true
  /\ AlbumCommand.normalize (AlbumCommand.candidateAlbum Samples.shouted)
     = AlbumCommand.normalize "Abbey Road"
  /\ exists r,
       AlbumCommand.pickBestAlbumResult [Samples.sessions; Samples.shouted]
         "Abbey Road" "The Beatles" = Some r
       /\ AlbumCommand.normalize (AlbumCommand.candidateAlbum r) = "abbey road".
Proof.
  assert (Hin : In Samples.shouted [Samples.sessions; Samples.shouted])
    by (right; left; reflexivity).
  split; [exact Hin |]. split; [reflexivity |]. split; [reflexivity |].
  destruct (pickBestAlbumResult_prefers_exact_album [Samples.sessions; Samples.shouted]
              "Abbey Road" "The Beatles" Samples.shouted Hin eq_refl eq_refl)
    as (r & E & _ & _ & Hn).
  exists r. split; [exact E | exact Hn].
Defined.

(** X21, an instance. No candidate exists and the album command found the song
    before: it searches for the album of the song. *)
Lemma refreshDetection_not_installed_witness :
  fst (AlbumCommand.refreshDetection Samples.goneRuntime
         (AlbumCommand.initial Samples.goneRuntime) Samples.albumStorage)
  = found "Album" "Artist".
Proof.
  assert (Ha : AlbumCommand.readStringField Scenario.songPayload "album" <> "")
    by discriminate.
  exact (proj1 (refreshDetection_not_installed Samples.goneRuntime
                  (AlbumCommand.initial Samples.goneRuntime) Samples.albumStorage
                  eq_refl gone_candidates_missing)
           Scenario.songPayload eq_refl Ha).
Defined.

(** X22, an instance. March sorts before November. *)
Lemma toReleaseSortValue_chronological_witness :
  ArtistBio.toReleaseSortValue Samples.spring < ArtistBio.toReleaseSortValue Samples.autumn.
Proof.
  apply (toReleaseSortValue_chronological Samples.spring Samples.autumn 2019 3 1 2019 11 22
           eq_refl eq_refl).
  - unfold calendarDate. lia.
  - unfold calendarDate. lia.
  - unfold before. lia.
Defined.

(** X23, an instance. An album that is not announced sorts after a dated one.
    *)
Lemma toReleaseSortValue_undated_last_witness :
  ArtistBio.toReleaseSortValue Samples.unannounced = ArtistBio.MAX_SAFE_INTEGER
  /\ ArtistBio.toReleaseSortValue Samples.spring
     < ArtistBio.toReleaseSortValue Samples.unannounced.
Proof.
  destruct (toReleaseSortValue_undated_last Samples.unannounced (or_introl eq_refl) eq_refl)
    as (E & Hdated & _).
  split; [exact E |]. apply (Hdated Samples.spring 2019 3 1 eq_refl).
  unfold calendarDate. lia.
Defined.

End Instances.
